(** * speclite.redshift: a shallow embedding and its specification

    The module [speclite/redshift.py] rescales named spectroscopic arrays
    between two redshifts.  This development embeds its three functions

      - [redshift_array]            (single array),
      - [apply_redshift_transform]  (pre-extracted dictionaries of arrays),
      - [redshift]                  (columns of a tabular object),

    together with the module level table [exponents], and proves the
    properties the specification states about them.

    Modelling choices.

    - numpy arrays are heap objects: a [world] maps object identities to
      array objects, so that writes through [y_out[:] = ...] are visible
      through every alias, and the [.base] attribute of a view can be
      compared by identity as the source does;
    - element values are IEEE binary64 numbers (Rocq's primitive floats,
      which are exactly numpy's float64 for [+], [*], [/] and the
      comparisons), 64 bit integers (the [Z] from [-2^63] to [2^63 - 1];
      the conversions from and to binary64 are those of numpy on x86-64)
      and booleans (numpy's non-numeric scalar type used here);
    - [**] on floats is the C library's [pow]; it is a parameter [fpow] of
      the development;
    - Python exceptions are the [Err] results of a state and error monad;
      the world reached at the point of the [raise] is kept, because a
      Python caller observes it. *)

From Stdlib Require Import ZArith List String Bool Lia Arith.
From Stdlib Require Import PrimFloat Uint63 FloatOps SpecFloat FloatAxioms.
Import ListNotations.

Set Implicit Arguments.

(* ================================================================== *)
(** ** Scalars and element types *)

Inductive dtype := Float64 | Int64 | Bool8.

Inductive scalar :=
| SF (f : float)              (* float64 *)
| SI (n : Z)                  (* int64: [-2^63 <= n < 2^63] *)
| SB (b : bool).              (* bool *)

Definition dtype_eqb (a b : dtype) : bool :=
  match a, b with
  | Float64, Float64 | Int64, Int64 | Bool8, Bool8 => true
  | _, _ => false
  end.

Definition has_dtype (d : dtype) (s : scalar) : bool :=
  match d, s with
  | Float64, SF _ | Int64, SI _ | Bool8, SB _ => true
  | _, _ => false
  end.

(** [np.issubdtype(dt, np.number)]: numpy's booleans are not numbers. *)
Definition is_number (d : dtype) : bool :=
  match d with Float64 | Int64 => true | Bool8 => false end.

(** The 64 bit integers are the [n] with [-2^63 <= n < 2^63]. *)
Definition int64_min : Z := (- 2 ^ 63)%Z.

Definition is_int64 (n : Z) : bool := ((int64_min <=? n) && (n <? 2 ^ 63))%Z.

(** Conversion of a 64 bit integer to binary64: the nearest binary64
    number, ties to even ([-2^63] is converted exactly). *)
Definition Z2F (z : Z) : float :=
  SF2Prim (binary_normalize prec emax z 0 false).

(** Conversion of a binary64 to a 64 bit integer: truncation toward zero
    (the C cast numpy applies on assignment).  NaN, the infinities and the
    numbers whose truncation is not a 64 bit integer give the "integer
    indefinite" value [-2^63] of the x86-64 conversion instruction. *)
Definition F2Z (f : float) : Z :=
  match Prim2SF f with
  | S754_finite s m e =>
      let v := if (0 <=? e)%Z then (Z.pos m * 2 ^ e)%Z
               else (Z.pos m / 2 ^ (- e))%Z in
      let v := if s then (- v)%Z else v in
      if is_int64 v then v else int64_min
  | S754_zero _ => 0%Z
  | _ => int64_min
  end.

Definition to_float (s : scalar) : float :=
  match s with
  | SF f => f
  | SI n => Z2F n
  | SB b => if b then 1%float else 0%float
  end.

(** The conversion numpy performs when a value is stored into an array of
    element type [d]. *)
Definition cast (d : dtype) (s : scalar) : scalar :=
  match d, s with
  | Float64, SF _ | Int64, SI _ | Bool8, SB _ => s
  | Float64, _ => SF (to_float s)
  | Int64, SF f => SI (F2Z f)
  | Int64, SB b => SI (if b then 1 else 0)
  | Bool8, SF f => SB (negb (PrimFloat.eqb f 0%float))
  | Bool8, SI n => SB (negb (n =? 0)%Z)
  end.

(** The 64 bit integers that are binary64 numbers: those of at most 53
    significant bits, which are all the integers up to [2^53] in magnitude
    and, beyond, those whose low bits are zero ([-2^63] is one). *)
Definition int64_exact (n : Z) : bool :=
  is_int64 n
  && (Z.abs n mod 2 ^ Z.max 0 (Z.log2 (Z.abs n) - 52) =? 0)%Z.

(** An element whose value is a binary64 number. *)
Definition exact_in_float (s : scalar) : bool :=
  match s with
  | SI n => int64_exact n
  | _ => true
  end.

(** [np.isfinite] on one element. *)
Definition isfinite (s : scalar) : bool :=
  match s with
  | SF f => PrimFloat.is_finite f
  | _ => true
  end.

(** The element test of [z <= -1]. *)
Definition le_minus_one (s : scalar) : bool :=
  match s with
  | SF f => PrimFloat.leb f (-1)%float
  | SI n => (n <=? -1)%Z
  | SB _ => false
  end.

(** The element test of [z > -1], the precondition of the docstrings. *)
Definition gt_minus_one (s : scalar) : bool :=
  match s with
  | SF f => PrimFloat.ltb (-1)%float f
  | SI n => (-1 <? n)%Z
  | SB _ => true
  end.

(* ================================================================== *)
(** ** Shapes and broadcasting

    An array holds its elements in row-major order.  All index arithmetic
    is done on reversed shapes (fastest dimension first), which is the order
    in which numpy aligns shapes for broadcasting. *)

Definition size (s : list nat) : nat := fold_right Nat.mul 1 s.

(** A shape of at least one dimension (an array that is not 0-d). *)
Definition has_dims (s : list nat) : bool :=
  match s with [] => false | _ :: _ => true end.

Definition bdim (x y : nat) : option nat :=
  if x =? y then Some x
  else if x =? 1 then Some y
  else if y =? 1 then Some x
  else None.

Fixpoint bshape_r (a b : list nat) : option (list nat) :=
  match a, b with
  | [], _ => Some b
  | _, [] => Some a
  | x :: a', y :: b' =>
      match bdim x y, bshape_r a' b' with
      | Some d, Some r => Some (d :: r)
      | _, _ => None
      end
  end.

(** The shape two arrays broadcast to, [None] when they do not. *)
Definition broadcast_shape (a b : list nat) : option (list nat) :=
  option_map (@rev nat) (bshape_r (rev a) (rev b)).

Definition shape_eqb (a b : list nat) : bool :=
  if list_eq_dec Nat.eq_dec a b then true else false.

(** [np.broadcast(a, b, c).shape]. *)
Definition broadcast_shape3 (a b c : list nat) : option (list nat) :=
  match broadcast_shape a b with
  | Some s => broadcast_shape s c
  | None => None
  end.

(** [bto_r s t]: an array of (reversed) shape [s] can be broadcast to the
    (reversed) shape [t]. *)
Fixpoint bto_r (s t : list nat) : bool :=
  match s, t with
  | [], _ => true
  | _ :: _, [] => false
  | d :: s', D :: t' => ((d =? D) || (d =? 1)) && bto_r s' t'
  end.

Definition broadcastable_to (s t : list nat) : bool := bto_r (rev s) (rev t).

(** [ato_r s t]: a value of (reversed) shape [s] can be assigned to an
    array of (reversed) shape [t].  Assignment broadcasts the value, after
    it has dropped the leading dimensions of size 1 that the value has in
    excess of the array. *)
Fixpoint ato_r (s t : list nat) : bool :=
  match s, t with
  | [], _ => true
  | d :: s', [] => (d =? 1) && ato_r s' []
  | d :: s', D :: t' => ((d =? D) || (d =? 1)) && ato_r s' t'
  end.

Definition assignable_to (s t : list nat) : bool := ato_r (rev s) (rev t).

(** Position, in an array of reversed shape [rs], of the element that
    broadcasting puts at position [k] of an array of reversed shape [rt]. *)
Fixpoint bidx (rs rt : list nat) (k : nat) : nat :=
  match rs, rt with
  | d :: rs', D :: rt' =>
      (if d =? 1 then 0 else k mod D) + d * bidx rs' rt' (k / D)
  | _, _ => 0
  end.

Record ndarray := mk_ndarray {
  dtype_of : dtype;
  shape : list nat;
  items : list scalar
}.

(** Element [k] of [a] broadcast to shape [s]. *)
Definition bget (a : ndarray) (s : list nat) (k : nat) : scalar :=
  nth (bidx (rev (shape a)) (rev s) k) (items a) (SI 0).

(** A binary arithmetic operator of numpy between arrays of which one at
    least is float64: the operands are broadcast against each other and
    converted to float64. *)
Definition broadcast_op (f : float -> float -> float) (a b : ndarray)
  : option ndarray :=
  match broadcast_shape (shape a) (shape b) with
  | Some s =>
      Some (mk_ndarray Float64 s
              (map (fun k => SF (f (to_float (bget a s k)) (to_float (bget b s k))))
                   (seq 0 (size s))))
  | None => None
  end.

(** An operator between a Python float and an array. *)
Definition scalar_op (f : float -> float) (a : ndarray) : ndarray :=
  mk_ndarray Float64 (shape a) (map (fun s => SF (f (to_float s))) (items a)).

(** A well formed array value has one element per position. *)
Definition wf_array (a : ndarray) : Prop :=
  List.length (items a) = size (shape a).

(* ================================================================== *)
(** ** The heap of array objects

    A numpy array either owns its buffer ([.base] is [None]) or is a view
    of the array that does ([.base] is that array).  A view reaches element
    [k] at position [imap[k]] of the buffer of its base, which covers
    slices, reversed and transposed views alike. *)

Definition objid := nat.

Inductive storage :=
| Own (buf : list scalar)
| View (base : objid) (imap : list nat).

Record arrobj := mk_arrobj {
  a_dtype : dtype;
  a_shape : list nat;
  a_store : storage
}.

Record world := mk_world {
  w_heap : objid -> arrobj;
  w_next : objid;               (* next identity that allocation hands out *)
  w_stdout : list string        (* what [print] has written so far *)
}.

Definition buffer_of (w : world) (o : objid) : list scalar :=
  match a_store (w_heap w o) with
  | Own l => l
  | View _ _ => []
  end.

Definition obj_items (w : world) (o : objid) : list scalar :=
  match a_store (w_heap w o) with
  | Own l => l
  | View b m => map (fun i => nth i (buffer_of w b) (SI 0)) m
  end.

(** The value of an array object: what reading all of it yields. *)
Definition load (w : world) (o : objid) : ndarray :=
  mk_ndarray (a_dtype (w_heap w o)) (a_shape (w_heap w o)) (obj_items w o).

(** The [.base] attribute. *)
Definition base_of (w : world) (o : objid) : option objid :=
  match a_store (w_heap w o) with
  | Own _ => None
  | View b _ => Some b
  end.

(** The object whose buffer a write through [o] changes. *)
Definition owner (w : world) (o : objid) : objid :=
  match a_store (w_heap w o) with
  | Own _ => o
  | View b _ => b
  end.

Fixpoint set_nth (i : nat) (v : scalar) (l : list scalar) : list scalar :=
  match l, i with
  | [], _ => []
  | _ :: l', O => v :: l'
  | x :: l', S i' => x :: set_nth i' v l'
  end.

Fixpoint scatter (m : list nat) (vals buf : list scalar) : list scalar :=
  match m, vals with
  | i :: m', v :: vals' => scatter m' vals' (set_nth i v buf)
  | _, _ => buf
  end.

Definition upd (h : objid -> arrobj) (o : objid) (a : arrobj) : objid -> arrobj :=
  fun o' => if o' =? o then a else h o'.

(** Overwrite every element of the array object [o]. *)
Definition set_items (w : world) (o : objid) (vals : list scalar) : world :=
  let ob := w_heap w o in
  match a_store ob with
  | Own _ =>
      mk_world (upd (w_heap w) o (mk_arrobj (a_dtype ob) (a_shape ob) (Own vals)))
               (w_next w) (w_stdout w)
  | View b m =>
      let bo := w_heap w b in
      mk_world (upd (w_heap w) b
                  (mk_arrobj (a_dtype bo) (a_shape bo)
                     (Own (scatter m vals (buffer_of w b)))))
               (w_next w) (w_stdout w)
  end.

Fixpoint nodup_nat (l : list nat) : bool :=
  match l with
  | [] => true
  | i :: l' => negb (existsb (Nat.eqb i) l') && nodup_nat l'
  end.

(** An array object through which every element can be written and read
    back: an array that owns its buffer, or a view that reaches distinct
    positions inside the buffer of another array. *)
Definition is_own (w : world) (o : objid) : bool :=
  match a_store (w_heap w o) with Own _ => true | View _ _ => false end.

Definition writable (w : world) (o : objid) : bool :=
  match a_store (w_heap w o) with
  | Own _ => true
  | View b m =>
      is_own w b && nodup_nat m
      && forallb (fun i => i <? List.length (buffer_of w b)) m
      && (List.length m =? size (a_shape (w_heap w o)))
  end.

(** The base and the positions of a view, [None] for an array that owns
    its buffer. *)
Definition view_of (w : world) (o : objid) : option (objid * list nat) :=
  match a_store (w_heap w o) with
  | Own _ => None
  | View b m => Some (b, m)
  end.

(** The base of a view is an array that owns its buffer. *)
Definition based (w : world) (o : objid) : bool :=
  match view_of w o with
  | None => true
  | Some (b, _) => is_own w b
  end.

Definition disjoint_nat (a b : list nat) : bool :=
  forallb (fun i => negb (existsb (Nat.eqb i) b)) a.

(** A write through [o] reaches no element of [x]: the two arrays have
    different buffers, or they are views of one buffer at different
    positions (two fields of a structured array, two halves of an array). *)
Definition untouched_by (w : world) (o x : objid) : bool :=
  match view_of w o, view_of w x with
  | None, None => negb (x =? o)
  | None, Some (b, _) => negb (b =? o)
  | Some (b', _), None => negb (x =? b')
  | Some (b', m'), Some (b, m) => negb (b =? b') || disjoint_nat m m'
  end.

(* ================================================================== *)
(** ** Exceptions and the monad of the embedding

    The failures that the module raises itself are Python [ValueError]s
    told apart by their message; the constructors below follow the
    messages, named after the specification's taxonomy.  The last five are
    raised by Python, by numpy and by the tabular adapter. *)

Inductive zarg := Zin | Zout.
Inductive conflict := CombineZ | MustBoth.

Inductive error :=
| InvalidRedshift (which : zarg)          (* 'Found invalid z_in <= -1.' / z_out *)
| NonNumericInput (name : string)         (* 'Cannot redshift non-numeric values' *)
| NonFiniteInput (name : string)          (* 'Cannot redshift non-finite values' *)
| BroadcastError (name : string)          (* 'Cannot broadcast ... with shapes' *)
| ShapeMismatch (name : string)           (* 'Wrong output shape' *)
| DtypeMismatch (name : string)           (* 'Wrong output dtype' *)
| ConflictingRedshiftSpec (c : conflict)  (* invalid z, z_in, z_out options *)
| MissingOutputColumn (name : string)     (* 'data_out missing required column' *)
| KeyError (name : string)                (* a dictionary lookup that fails *)
| OperandsError                           (* numpy: shapes cannot be broadcast *)
| IndexError                              (* numpy: too many indices for array *)
| TypeError                               (* an operand of the wrong Python type *)
| AdapterError.                           (* a failure of the tabular adapter *)

Inductive result (A : Type) :=
| OK (a : A)
| Err (e : error).
Arguments Err {A} e.

Definition M (A : Type) : Type := world -> result A * world.

Definition ret {A} (a : A) : M A := fun w => (OK a, w).

Definition raise {A} (e : error) : M A := fun w => (Err e, w).

Definition bind {A B} (c : M A) (k : A -> M B) : M B :=
  fun w =>
    match c w with
    | (OK a, w') => k a w'
    | (Err e, w') => (Err e, w')
    end.

Notation "x <- c1 ;; c2" := (bind c1 (fun x => c2))
  (at level 61, c1 at next level, right associativity).
Notation "' p <- c1 ;; c2" := (bind c1 (fun x => let p := x in c2))
  (at level 61, p pattern, c1 at next level, right associativity).

Definition lift {A} (e : error) (o : option A) : M A :=
  match o with
  | Some a => ret a
  | None => raise e
  end.

(** [o[:] = a]: the value [a] is broadcast to the shape of [o], converted to
    its element type and stored.  numpy reads the right-hand side in full
    before it writes, also when the two overlap in memory.  The slice [:]
    indexes the first dimension: on an array [o] without dimensions numpy
    raises [IndexError], whatever [a] is. *)
Definition stored_values (dt : dtype) (shp : list nat) (a : ndarray)
  : list scalar :=
  map (fun k => cast dt (bget a shp k)) (seq 0 (size shp)).

Definition assign (o : objid) (a : ndarray) : M unit :=
  fun w =>
    let ob := w_heap w o in
    match a_shape ob with
    | [] => (Err IndexError, w)
    | _ :: _ =>
        if assignable_to (shape a) (a_shape ob) then
          (OK tt, set_items w o (stored_values (a_dtype ob) (a_shape ob) a))
        else (Err OperandsError, w)
    end.

(** [print(label, value)]; the rendering of the value is not modelled. *)
Definition print (label : string) : M unit :=
  fun w => (OK tt, mk_world (w_heap w) (w_next w) (w_stdout w ++ [label])).

(* ================================================================== *)
(** ** Python dictionaries (insertion ordered) *)

Definition dict (V : Type) := list (string * V).

Fixpoint dict_get {V} (k : string) (d : dict V) : option V :=
  match d with
  | [] => None
  | (k', v) :: d' => if String.eqb k k' then Some v else dict_get k d'
  end.

(** [d[k] = v]: an existing key keeps its place, a new one goes last. *)
Fixpoint dict_set {V} (k : string) (v : V) (d : dict V) : dict V :=
  match d with
  | [] => [(k, v)]
  | (k', v') :: d' =>
      if String.eqb k k' then (k, v) :: d' else (k', v') :: dict_set k v d'
  end.

Definition keys {V} (d : dict V) : list string := map fst d.

(* ================================================================== *)
(** ** The table of predefined exponents (lines 21-27) *)

Definition exponents : dict Z :=
  [ ("wlen", 1); ("wavelength", 1); ("wavelength_error", 1);
    ("freq", -1); ("frequency", -1); ("frequency_error", -1);
    ("flux", -1); ("irradiance_per_wavelength", -1);
    ("irradiance_per_frequency", 1);
    ("ivar", 2); ("ivar_irradiance_per_wavelength", 2);
    ("ivar_irradiance_per_frequency", -2) ]%string%Z.

(* ================================================================== *)
(** ** Collaborators from [speclite.utility] *)

(** Python values that reach [redshift] through [*args] and [**kwargs]. *)
Inductive pyval :=
| PyNone
| PyNum (a : ndarray)          (* a number or an array passed by value *)
| PyArr (o : objid)            (* a numpy array object *)
| PyTab (t : dict objid).      (* a tabular object: ordered named columns *)

Definition is_none (v : pyval) : bool :=
  match v with PyNone => true | _ => false end.

(** Modelled from the spec: [empty_like(template_array, shape, dtype)] of
    the module [speclite.utility].  It "allocates an uninitialized array of
    the requested shape and element type"; the model fills the new array
    with zeros, and no statement below depends on them. *)
Definition empty_like (template : ndarray) (shp : list nat) (dt : dtype)
  : M objid :=
  fun w =>
    let o := w_next w in
    (OK o,
     mk_world (upd (w_heap w) o
                 (mk_arrobj dt shp (Own (repeat (cast dt (SI 0)) (size shp)))))
              (S o) (w_stdout w)).

(** Modelled from the spec: [get_options(keyword_args, defaults)] of
    [speclite.utility]: it "splits recognized option keywords (with
    defaults) out of a keyword mapping, leaving the rest as ordinary column
    data".  All defaults used by the module are [None]. *)
Definition get_options (kwargs : dict pyval) (names : list string)
  : dict pyval * dict pyval :=
  (filter (fun kv => negb (existsb (String.eqb (fst kv)) names)) kwargs,
   map (fun n => (n, match dict_get n kwargs with
                     | Some v => v
                     | None => PyNone
                     end)) names).

(** [options[name]] for a name that [get_options] was asked for. *)
Definition option_of (options : dict pyval) (name : string) : pyval :=
  match dict_get name options with
  | Some v => v
  | None => PyNone
  end.

Fixpoint nodup_keys (l : list string) : bool :=
  match l with
  | [] => true
  | k :: l' => negb (existsb (String.eqb k) l') && nodup_keys l'
  end.

Fixpoint columns_of_args (args : list pyval) : option (dict objid) :=
  match args with
  | [] => Some []
  | PyTab t :: rest => option_map (app t) (columns_of_args rest)
  | _ :: _ => None
  end.

Fixpoint columns_of_kwargs (kwargs : dict pyval) : option (dict objid) :=
  match kwargs with
  | [] => Some []
  | (k, PyArr o) :: rest => option_map (cons (k, o)) (columns_of_kwargs rest)
  | _ :: _ => None
  end.

(** Modelled from the spec: [prepare_data] of [speclite.utility].  In
    read-only mode it must "accept a mix of tabular objects and raw named
    arrays, flatten them into one ordered mapping of unique names to
    arrays" and "fails if any name collides across inputs"; in in-place
    mode it "returns mutable views into the given object's backing storage,
    keyed by column name".  A tabular object is identified with the ordered
    mapping of its column arrays, which also serves as its descriptor. *)
Definition prepare_data_read_only (args : list pyval) (kwargs : dict pyval)
  : M (dict objid * pyval) :=
  match columns_of_args args, columns_of_kwargs kwargs with
  | Some c1, Some c2 =>
      if nodup_keys (keys (c1 ++ c2)) then ret (c1 ++ c2, PyTab (c1 ++ c2))
      else raise AdapterError
  | _, _ => raise AdapterError
  end.

Definition prepare_data_in_place (target : pyval) : M (dict objid * pyval) :=
  match target with
  | PyTab t => ret (t, target)
  | _ => raise AdapterError
  end.

(** Modelled from the spec: [tabular_like(source_descriptor, mapping)] of
    [speclite.utility] "builds a new tabular object of the same kind as
    [source_descriptor], with columns in mapping order". *)
Definition tabular_like (descriptor : pyval) (arrays : dict objid) : M pyval :=
  ret (PyTab arrays).

(** [np.asanyarray] of a redshift argument. *)
Definition asanyarray (v : pyval) : M ndarray :=
  fun w =>
    match v with
    | PyNum a => (OK a, w)
    | PyArr o => (OK (load w o), w)
    | _ => (Err TypeError, w)
    end.

(* ================================================================== *)
(** ** The functions of [speclite/redshift.py] *)

Section Redshift.

(** The C library's [pow], which numpy's [**] calls on float64. *)
Variable fpow : float -> float -> float.

(** [(1. + z_out) / (1. + z_in)] *)
Definition zfactor_of (z_in z_out : ndarray) : option ndarray :=
  broadcast_op PrimFloat.div
    (scalar_op (PrimFloat.add 1) z_out) (scalar_op (PrimFloat.add 1) z_in).

(** [y * zfactor ** e] *)
Definition scaled (y zfactor : ndarray) (e : float) : option ndarray :=
  broadcast_op PrimFloat.mul y (scalar_op (fun x => fpow x e) zfactor).

(** Lines 72-80, the body of the loop: one entry [name], [out] of
    [data_out].  [data_in] is a dictionary of array objects, [exponent] a
    dictionary of integers. *)
Definition fill_entry (zfactor : ndarray) (data_in : dict objid)
    (exponent : dict Z) (name : string) (out : objid) : M unit :=
  let n := match dict_get name exponent with Some n => n | None => 0%Z end in
  if negb (n =? 0)%Z then
    src <- lift (KeyError name) (dict_get name data_in) ;;
    y <- (fun w => (OK (load w src), w)) ;;
    rhs <- lift OperandsError (scaled y zfactor (Z2F n)) ;;
    assign out rhs
  else
    src <- lift (KeyError name) (dict_get name data_in) ;;
    is_view <- (fun w => (OK (match base_of w out with
                              | Some b => b =? src
                              | None => false
                              end), w)) ;;
    if negb is_view then
      y <- (fun w => (OK (load w src), w)) ;;
      assign out y
    else ret tt.

(** Lines 72-80, the loop over [data_out]. *)
Fixpoint fill_data_out (zfactor : ndarray) (data_in : dict objid)
    (exponent : dict Z) (todo : dict objid) : M unit :=
  match todo with
  | [] => ret tt
  | (name, out) :: rest =>
      _ <- fill_entry zfactor data_in exponent name out ;;
      fill_data_out zfactor data_in exponent rest
  end.

(** Lines 30-82. *)
Definition apply_redshift_transform (z_in z_out : ndarray)
    (data_in data_out : dict objid) (exponent : dict Z) : M (dict objid) :=
  if existsb le_minus_one (items z_in) then raise (InvalidRedshift Zin)
  else if existsb le_minus_one (items z_out) then raise (InvalidRedshift Zout)
  else
    zfactor <- lift OperandsError (zfactor_of z_in z_out) ;;
    _ <- fill_data_out zfactor data_in exponent data_out ;;
    ret data_out.

(** The resolution of the exponent, lines 138-141. *)
Definition resolve_exponent (exponent : option float) (name : string) : float :=
  let exponent :=
    match exponent with
    | None => option_map Z2F (dict_get name exponents)
    | Some e => Some e
    end in
  match exponent with
  | None => 0%float
  | Some e => e
  end.

(** Lines 85-165.  [y_in] is an array object, read once: nothing between
    its validation and line 163 writes to an existing array. *)
Definition redshift_array (z_in z_out : ndarray) (y_in : objid)
    (y_out : option objid) (exponent : option float) (name : string)
  : M objid :=
  if existsb le_minus_one (items z_in) then raise (InvalidRedshift Zin)
  else if existsb le_minus_one (items z_out) then raise (InvalidRedshift Zout)
  else
    y <- (fun w => (OK (load w y_in), w)) ;;
    if negb (is_number (dtype_of y)) then raise (NonNumericInput name)
    else if negb (forallb isfinite (items y)) then raise (NonFiniteInput name)
    else
      let exponent := resolve_exponent exponent name in
      shape_out <- lift (BroadcastError name)
                     (broadcast_shape3 (shape z_in) (shape z_out) (shape y)) ;;
      y_out <- match y_out with
               | None => empty_like y shape_out (dtype_of y)
               | Some o =>
                   out <- (fun w => (OK (w_heap w o), w)) ;;
                   if negb (shape_eqb (a_shape out) shape_out)
                   then raise (ShapeMismatch name)
                   else if negb (dtype_eqb (a_dtype out) (dtype_of y))
                   then raise (DtypeMismatch name)
                   else ret o
               end ;;
      zfactor <- lift OperandsError (zfactor_of z_in z_out) ;;
      rhs <- lift OperandsError (scaled y zfactor exponent) ;;
      _ <- assign y_out rhs ;;
      ret y_out.

(** The formula of the docstring and of the specification,
    [y_in * ((1. + z_out) / (1. + z_in)) ** exponent], at position [k] of
    the broadcast shape [shp]. *)
Definition formula (z_in z_out y : ndarray) (e : float) (shp : list nat)
    (k : nat) : float :=
  PrimFloat.mul (to_float (bget y shp k))
    (fpow (PrimFloat.div (PrimFloat.add 1 (to_float (bget z_out shp k)))
                         (PrimFloat.add 1 (to_float (bget z_in shp k)))) e).

(** Lines 253-262, the body of the loop: the transform of the column
    [name]; [has_out] is [data_out is not None]. *)
Definition redshift_column (z_in z_out : pyval) (has_out : bool)
    (arrays_out : dict objid) (name : string) (y_in : objid) : M objid :=
  y_out <- (if negb has_out then ret None
            else match dict_get name arrays_out with
                 | None => raise (MissingOutputColumn name)
                 | Some o => ret (Some o)
                 end) ;;
  zi <- asanyarray z_in ;;
  zo <- asanyarray z_out ;;
  redshift_array zi zo y_in y_out None name.

(** The loop of lines 252-262. *)
Fixpoint redshift_columns (z_in z_out : pyval) (has_out : bool)
    (todo : dict objid) (arrays_out : dict objid) : M (dict objid) :=
  match todo with
  | [] => ret arrays_out
  | (name, y_in) :: rest =>
      r <- redshift_column z_in z_out has_out arrays_out name y_in ;;
      redshift_columns z_in z_out has_out rest (dict_set name r arrays_out)
  end.

(** Lines 240-271: [redshift] once [z_in] and [z_out] are resolved. *)
Definition redshift_resolved (z_in z_out : pyval) (opt_data_out : pyval)
    (args : list pyval) (kwargs : dict pyval) : M pyval :=
  ' (arrays_in, data_in) <- prepare_data_read_only args kwargs ;;
  ' (arrays_out, data_out) <-
      (if negb (is_none opt_data_out) then prepare_data_in_place opt_data_out
       else ret ([], PyNone)) ;;
  arrays_out <- redshift_columns z_in z_out (negb (is_none data_out))
                  arrays_in arrays_out ;;
  data_out <- (if is_none data_out then tabular_like data_in arrays_out
               else ret data_out) ;;
  _ <- print "arrays_out" ;;
  _ <- print "data_in" ;;
  _ <- print "data_out" ;;
  ret data_out.

(** The Python literal [0]. *)
Definition py_zero : pyval := PyNum (mk_ndarray Int64 [] [SI 0]).

(** Lines 168-271. *)
Definition redshift (args : list pyval) (kwargs : dict pyval) : M pyval :=
  let '(kwargs, options) :=
    get_options kwargs ["z"; "z_in"; "z_out"; "data_out"]%string in
  if negb (is_none (option_of options "z")) then
    if negb (is_none (option_of options "z_in"))
       || negb (is_none (option_of options "z_out"))
    then raise (ConflictingRedshiftSpec CombineZ)
    else redshift_resolved py_zero (option_of options "z")
           (option_of options "data_out") args kwargs
  else if is_none (option_of options "z_in")
          || is_none (option_of options "z_out")
  then raise (ConflictingRedshiftSpec MustBoth)
  else redshift_resolved (option_of options "z_in") (option_of options "z_out")
         (option_of options "data_out") args kwargs.

End Redshift.

(* ================================================================== *)
(** ** The errors of [redshift_array] *)

(** The errors of the six checks of lines 122-160. *)
Definition validation_error (name : string) (e : error) : Prop :=
  e = InvalidRedshift Zin \/ e = InvalidRedshift Zout
  \/ e = NonNumericInput name \/ e = NonFiniteInput name
  \/ e = BroadcastError name
  \/ e = ShapeMismatch name \/ e = DtypeMismatch name.

(* ================================================================== *)
(** ** Aliasing conditions for [apply_redshift_transform]

    The function writes through the arrays of [data_out] one after the
    other while it reads those of [data_in].  Its result is described for
    dictionaries whose arrays do not interfere: *)

Definition nat_list_eqb (a b : list nat) : bool :=
  if list_eq_dec Nat.eq_dec a b then true else false.

(** [out] is a view of all of [src], element for element. *)
Definition identity_view (w : world) (out src : objid) : bool :=
  match a_store (w_heap w out), a_store (w_heap w src) with
  | View _ m, Own buf =>
      nat_list_eqb m (seq 0 (List.length buf))
      && shape_eqb (a_shape (w_heap w out)) (a_shape (w_heap w src))
      && dtype_eqb (a_dtype (w_heap w out)) (a_dtype (w_heap w src))
      && forallb (has_dtype (a_dtype (w_heap w src))) buf
  | _, _ => false
  end.

(** An entry of [data_out] can be filled: its name is in [data_in], its
    array can be written and read back, and if it is a direct view of the
    input array of the same name, it is the identity view. *)
Definition entry_ok (w : world) (data_in : dict objid) (e : string * objid)
  : bool :=
  match dict_get (fst e) data_in with
  | None => false
  | Some src =>
      writable w (snd e)
      && match base_of w (snd e) with
         | Some b => if b =? src then identity_view w (snd e) src else true
         | None => true
         end
  end.

(** The entry [e] is filled before the entry [e'], and neither spoils the
    other: the write through the array of [e] reaches no element of the
    input array of [e'], which is read after it, and the write through the
    array of [e'] reaches no element of the array of [e], which was filled
    before it. *)
Definition independent (w : world) (data_in : dict objid)
    (e e' : string * objid) : bool :=
  untouched_by w (snd e') (snd e)
  && match dict_get (fst e') data_in with
     | Some src' => untouched_by w (snd e) src'
     | None => true
     end.

(** Every entry of [data_out] is independent of the entries that are
    filled after it. *)
Fixpoint separated (w : world) (data_in : dict objid) (todo : dict objid)
  : bool :=
  match todo with
  | [] => true
  | e :: rest =>
      forallb (independent w data_in e) rest && separated w data_in rest
  end.

(** What the specification expects in [data_out[name]] at position [k]:
    the formula for a non-zero exponent, the input itself otherwise, in the
    element type of the output array. *)
Definition expected (fpow : float -> float -> float) (w : world)
    (z_in z_out : ndarray) (exponent : dict Z) (name : string)
    (src out : objid) (k : nat) : scalar :=
  let y := load w src in
  let shp := a_shape (w_heap w out) in
  let n := match dict_get name exponent with Some n => n | None => 0%Z end in
  cast (a_dtype (w_heap w out))
    (if (n =? 0)%Z then bget y shp k
     else SF (formula fpow z_in z_out y (Z2F n) shp k)).

(* ================================================================== *)
(** ** Vocabulary of the statements about [redshift] *)

(** What the options [z], [z_in], [z_out] and [data_out] of a call are. *)
Definition kwarg (kwargs : dict pyval) (name : string) : pyval :=
  match dict_get name kwargs with
  | Some v => v
  | None => PyNone
  end.

(** The keyword arguments that are column data. *)
Definition column_kwargs (kwargs : dict pyval) : dict pyval :=
  fst (get_options kwargs ["z"; "z_in"; "z_out"; "data_out"]%string).

(** The combinations of [z], [z_in] and [z_out] that the specification
    rejects. *)
Definition conflicting (kwargs : dict pyval) : bool :=
  if negb (is_none (kwarg kwargs "z")) then
    negb (is_none (kwarg kwargs "z_in")) || negb (is_none (kwarg kwargs "z_out"))
  else
    is_none (kwarg kwargs "z_in") || is_none (kwarg kwargs "z_out").

(** The redshifts a call with consistent options works with (lines
    229-238). *)
Definition resolved_z_in (kwargs : dict pyval) : pyval :=
  if negb (is_none (kwarg kwargs "z")) then py_zero else kwarg kwargs "z_in".

Definition resolved_z_out (kwargs : dict pyval) : pyval :=
  if negb (is_none (kwarg kwargs "z")) then kwarg kwargs "z"
  else kwarg kwargs "z_out".

(** The three lines that the end of [redshift] prints. *)
Definition debug_lines : list string := ["arrays_out"; "data_in"; "data_out"]%string.

(** Two calls end the same way: both return, or both raise the same
    exception. *)
Definition same_outcome {A B} (r1 : result A) (r2 : result B) : Prop :=
  match r1, r2 with
  | OK _, OK _ => True
  | Err e1, Err e2 => e1 = e2
  | _, _ => False
  end.

(** The table [t] without the columns that are not named in [names]. *)
Definition drop_extra (names : list string) (t : dict objid) : dict objid :=
  filter (fun kv => existsb (String.eqb (fst kv)) names) t.

(** A tabular object in memory: its columns are arrays that can be
    written and read back, and two columns of different names share no
    element (they are separate arrays, or the fields of one structured
    array). *)
Definition table_ok (w : world) (t : dict objid) : bool :=
  forallb (fun c => writable w (snd c)) t
  && forallb (fun c =>
       forallb (fun c' => String.eqb (fst c) (fst c')
                          || untouched_by w (snd c) (snd c')) t) t.

(* ================================================================== *)
(** ** Concrete inputs

    A reference [pow] for integral exponents, by repeated multiplication.
    It agrees with the C library wherever the exact result is a binary64
    number, which is the case of every evaluation below. *)

Fixpoint ipow (x : float) (n : nat) : float :=
  match n with
  | O => 1%float
  | S n' => PrimFloat.mul x (ipow x n')
  end.

Definition pow_ref (x e : float) : float :=
  let n := F2Z e in
  if PrimFloat.eqb (Z2F n) e then
    if (0 <=? n)%Z then ipow x (Z.to_nat n)
    else PrimFloat.div 1 (ipow x (Z.to_nat (- n)))
  else nan.

Definition empty_obj : arrobj := mk_arrobj Float64 [0] (Own []).

(** A world holding the given array objects at identities 0, 1, ... *)
Definition world_of (objs : list arrobj) : world :=
  mk_world (fun o => nth o objs empty_obj) (List.length objs) [].

Definition scalar_int (n : Z) : ndarray := mk_ndarray Int64 [] [SI n].

Definition scalar_float (f : float) : ndarray := mk_ndarray Float64 [] [SF f].
Definition vector_float (l : list float) : arrobj :=
  mk_arrobj Float64 [List.length l] (Own (map SF l)).
Definition vector_int (l : list Z) : arrobj :=
  mk_arrobj Int64 [List.length l] (Own (map SI l)).

(** [wlen] and [flux] of a small spectrum, at identities 0 and 1. *)
Definition w_spectrum : world :=
  world_of [vector_float [4000; 4001; 4002]%float; vector_float [1; 1; 1]%float].

(** An array of integer counts. *)
Definition w_counts : world := world_of [vector_int [3%Z]].

(** An integer that is not a binary64 number: 2^53 + 1. *)
Definition w_big : world := world_of [vector_int [9007199254740993%Z]].

(** An array and the reversed view [a[::-1]] of it. *)
Definition w_reversed : world :=
  world_of [vector_float [1; 2; 3]%float;
            mk_arrobj Float64 [3] (View 0 [2; 1; 0])].

(** A structured array of three records with the fields [wlen] and
    [note]: one buffer at identity 0, and the two fields as the views 1
    and 2 of it; at identity 3 a separate array. *)
Definition w_record : world :=
  world_of [mk_arrobj Float64 [6] (Own (map SF [1; 7; 2; 7; 3; 7]%float));
            mk_arrobj Float64 [3] (View 0 [0; 2; 4]);
            mk_arrobj Float64 [3] (View 0 [1; 3; 5]);
            vector_float [4000; 4001; 4002]%float].

(** The spectrum, and the columns of an output table at identities 2
    and 3. *)
Definition w_table : world :=
  world_of [vector_float [4000; 4001; 4002]%float; vector_float [1; 1; 1]%float;
            vector_float [0; 0; 0]%float; vector_float [7; 7; 7]%float].

(* ================================================================== *)
(** ** Vocabulary of the statements about allocation and columns *)

(** An array object that exists: it and the owner of its buffer were
    handed out by an earlier allocation. *)
Definition allocated (w : world) (o : objid) : bool :=
  (o <? w_next w) && (owner w o <? w_next w).

(** [np.isnan] on one element. *)
Definition scalar_is_nan (s : scalar) : bool :=
  match s with
  | SF f => PrimFloat.is_nan f
  | _ => false
  end.

(** A column that passes the input checks of [redshift_array] for the
    redshifts [zi] and [zo], and is broadcast to a shape of at least one
    dimension. *)
Definition column_ready (w : world) (zi zo : ndarray) (c : string * objid)
  : bool :=
  allocated w (snd c)
  && is_number (a_dtype (w_heap w (snd c)))
  && forallb isfinite (obj_items w (snd c))
  && match broadcast_shape3 (shape zi) (shape zo) (a_shape (w_heap w (snd c))) with
     | Some s => has_dims s
     | None => false
     end.

(** The shape a column is broadcast to (the shape of the column when the
    shapes do not broadcast). *)
Definition column_shape (w : world) (zi zo : ndarray) (y : objid) : list nat :=
  match broadcast_shape3 (shape zi) (shape zo) (a_shape (w_heap w y)) with
  | Some s => s
  | None => a_shape (w_heap w y)
  end.

(** The output mapping that [redshift] builds when no [data_out] is given:
    one new array per name, in the order of the names. *)
Definition fresh_columns (names : list string) (first : objid) : dict objid :=
  combine names (seq first (List.length names)).

(** The column [c] of the input passes the input checks, and the table
    [t] given as [data_out] has a writable column of its name, of the
    broadcast shape, which has at least one dimension, and of its element
    type. *)
Definition column_out_ready (w : world) (zi zo : ndarray) (t : dict objid)
    (c : string * objid) : bool :=
  match dict_get (fst c) t with
  | None => false
  | Some o =>
      writable w o
      && is_number (a_dtype (w_heap w (snd c)))
      && forallb isfinite (obj_items w (snd c))
      && match broadcast_shape3 (shape zi) (shape zo)
                 (a_shape (w_heap w (snd c))) with
         | Some s => has_dims s
                     && shape_eqb (a_shape (w_heap w o)) s
                     && dtype_eqb (a_dtype (w_heap w o))
                          (a_dtype (w_heap w (snd c)))
         | None => false
         end
  end.

(** The columns of [t] that the columns [cols] of the input are written
    to. *)
Definition outputs_for (t : dict objid) (cols : dict objid) : dict objid :=
  map (fun c => (fst c, match dict_get (fst c) t with
                        | Some o => o
                        | None => snd c
                        end)) cols.

(** The column name an exception message carries. *)
Definition error_column (e : error) : option string :=
  match e with
  | NonNumericInput n | NonFiniteInput n | BroadcastError n
  | ShapeMismatch n | DtypeMismatch n | MissingOutputColumn n => Some n
  | _ => None
  end.

(* ================================================================== *)
(** * Properties *)

(** ** Element types *)

Lemma dtype_eqb_eq a b : dtype_eqb a b = true <-> a = b.
Proof. destruct a, b; simpl; split; congruence. Qed.

Lemma cast_has_dtype d s : has_dtype d (cast d s) = true.
Proof. destruct d, s; reflexivity. Qed.

Lemma cast_same d s : has_dtype d s = true -> cast d s = s.
Proof. destruct d, s; simpl; congruence. Qed.

Lemma shape_eqb_eq a b : shape_eqb a b = true <-> a = b.
Proof.
  unfold shape_eqb. destruct (list_eq_dec Nat.eq_dec a b); split; congruence.
Qed.

(** The order of binary64 numbers is antisymmetric; NaN compares with
    nothing. *)
Lemma SFcompare_antisym a b :
  SFcompare b a = option_map CompOpp (SFcompare a b).
Proof.
  destruct a as [sa|sa| |sa ma ea], b as [sb|sb| |sb mb eb]; simpl; auto;
    try (destruct sa; reflexivity); try (destruct sb; reflexivity);
    try (destruct sa, sb; reflexivity).
  pose proof (Pos.compare_cont_antisym ma mb Eq) as Hp. simpl in Hp.
  change (PosDef.Pos.compare_cont Eq) with (Pos.compare_cont Eq).
  destruct sa, sb; simpl; auto;
    rewrite (Z.compare_antisym ea eb); destruct (ea ?= eb)%Z; simpl; auto;
    rewrite <- Hp; reflexivity.
Qed.

Lemma ltb_not_leb (x y : float) :
  PrimFloat.ltb x y = true -> PrimFloat.leb y x = false.
Proof.
  rewrite FloatAxioms.ltb_spec, FloatAxioms.leb_spec. unfold SFltb, SFleb.
  rewrite (SFcompare_antisym (Prim2SF x) (Prim2SF y)).
  destruct (SFcompare (Prim2SF x) (Prim2SF y)) as [[]|]; simpl; congruence.
Qed.

Lemma gt_not_le s : gt_minus_one s = true -> le_minus_one s = false.
Proof.
  destruct s as [f|n|b]; simpl; auto.
  - apply ltb_not_leb.
  - intros H. apply Z.ltb_lt in H. apply Z.leb_gt. exact H.
Qed.

(** Redshifts that are all [> -1] pass the test of lines 124-127. *)
Lemma valid_redshift_passes l :
  forallb gt_minus_one l = true -> existsb le_minus_one l = false.
Proof.
  induction l as [|s l IH]; simpl; auto.
  intros H. apply andb_true_iff in H as [Hs Hl].
  now rewrite (gt_not_le _ Hs), IH.
Qed.

(** ** Conversions between integers and binary64 *)

Lemma Prim2SF_one : Prim2SF 1%float = S754_finite false 4503599627370496 (-52).
Proof. vm_compute. reflexivity. Qed.

Lemma digits2_pos_xO_iter (n : nat) m :
  Z.pos (digits2_pos (Nat.iter n xO m)) = (Z.pos (digits2_pos m) + Z.of_nat n)%Z.
Proof.
  induction n as [|n IH]; [simpl; lia|].
  rewrite Nat.iter_succ. cbn [digits2_pos]. rewrite Pos2Z.inj_succ, IH. lia.
Qed.

Lemma mul_pow52 m : (m * 4503599627370496)%positive = Nat.iter 52 xO m.
Proof. rewrite Pos.mul_comm. reflexivity. Qed.

Lemma SFmul_one x :
  valid_binary x = true ->
  SF64mul x (S754_finite false 4503599627370496 (-52)) = x.
Proof.
  destruct x as [s|s| |s m e]; intros Hv; simpl; try reflexivity.
  - now rewrite xorb_false_r.
  - now rewrite xorb_false_r.
  - unfold SF64mul, SFmul. rewrite xorb_false_r.
    simpl in Hv. unfold bounded, canonical_mantissa in Hv.
    apply andb_true_iff in Hv as [Hc Hb]. apply Z.eqb_eq in Hc.
    change PosDef.Pos.mul with Pos.mul.
    rewrite mul_pow52.
    unfold binary_round_aux, shr_fexp.
    cbn [Zdigits2]. rewrite digits2_pos_xO_iter.
    replace (Z.pos (digits2_pos m) + Z.of_nat 52 + (e + -52))%Z
      with (Z.pos (digits2_pos m) + e)%Z by lia.
    rewrite Hc. replace (e - (e + -52))%Z with 52%Z by lia.
    cbv [Nat.iter nat_rect].
    cbn [shr shr_record_of_loc iter_pos shr_1 shr_m loc_of_shr_record
         round_nearest_even orb].
    cbn [Zdigits2].
    replace (e + -52 + 52)%Z with e by lia. rewrite Hc, Z.sub_diag.
    cbn [shr shr_record_of_loc shr_m]. now rewrite Hb.
Qed.

(** The multiplication by [1.0] is exact, on every binary64 number. *)
Lemma mul_one (f : float) : PrimFloat.mul f 1 = f.
Proof.
  apply Prim2SF_inj. rewrite mul_spec, Prim2SF_one.
  apply SFmul_one, Prim2SF_valid.
Qed.

Lemma digits2_pos_bounds p :
  (2 ^ (Z.pos (digits2_pos p) - 1) <= Z.pos p < 2 ^ Z.pos (digits2_pos p))%Z.
Proof.
  induction p as [p IH|p IH|]; cbn [digits2_pos]; [| |simpl; lia];
    rewrite Pos2Z.inj_succ;
    replace (Z.succ (Z.pos (digits2_pos p)) - 1)%Z
      with (Z.succ (Z.pos (digits2_pos p) - 1))%Z by lia;
    rewrite !Z.pow_succ_r by lia; lia.
Qed.

Lemma iter_xO_spec k : forall p,
  Z.pos (Pos.iter xO p k) = (Z.pos p * 2 ^ Z.pos k)%Z
  /\ Z.pos (digits2_pos (Pos.iter xO p k)) = (Z.pos (digits2_pos p) + Z.pos k)%Z.
Proof.
  intros p. induction k as [|k IH] using Pos.peano_ind.
  - cbn. split; lia.
  - rewrite Pos.iter_succ. cbn [digits2_pos]. destruct IH as [IH1 IH2].
    rewrite !Pos2Z.inj_succ, Pos2Z.inj_xO, IH1, IH2.
    rewrite Z.pow_succ_r by lia. split; lia.
Qed.

Lemma binary_round_aux_canonical s m e :
  fexp prec emax (Z.pos (digits2_pos m) + e) = e ->
  (e <=? emax - prec)%Z = true ->
  binary_round_aux prec emax s (Z.pos m) e loc_Exact = S754_finite s m e.
Proof.
  intros Hc Hb. unfold binary_round_aux, shr_fexp. cbn [Zdigits2].
  rewrite Hc, Z.sub_diag.
  cbn [shr shr_record_of_loc shr_m loc_of_shr_record round_nearest_even Zdigits2].
  rewrite Hc, Z.sub_diag. cbn [shr shr_record_of_loc shr_m]. now rewrite Hb.
Qed.

(** Shifting out the zero bits that were shifted in. *)
Lemma iter_pos_shr_1 j : forall x,
  iter_pos shr_1 j {| shr_m := Z.pos (Pos.iter xO x j); shr_r := false;
                      shr_s := false |}
  = {| shr_m := Z.pos x; shr_r := false; shr_s := false |}.
Proof.
  induction j as [j IH|j IH|]; intros x; cbn [iter_pos Pos.iter].
  - cbn [shr_1 orb]. now rewrite !IH.
  - now rewrite !IH.
  - reflexivity.
Qed.

Lemma digits2_log2 p : Z.log2 (Z.pos p) = (Z.pos (digits2_pos p) - 1)%Z.
Proof.
  apply Z.log2_unique; [lia|].
  replace (Z.succ (Z.pos (digits2_pos p) - 1)) with (Z.pos (digits2_pos p)) by lia.
  apply digits2_pos_bounds.
Qed.

Lemma binary_round_exact s p :
  (Z.pos p <= 2 ^ 63)%Z ->
  (Z.pos p mod 2 ^ Z.max 0 (Z.log2 (Z.pos p) - 52) = 0)%Z ->
  exists m e,
    binary_round prec emax s p 0 = S754_finite s m e
    /\ valid_binary (S754_finite s m e) = true
    /\ (if (0 <=? e)%Z then Z.pos m * 2 ^ e else Z.pos m / 2 ^ (- e))%Z = Z.pos p.
Proof.
  intros Hp Hmod. pose proof (digits2_pos_bounds p) as [Hlo Hhi].
  rewrite digits2_log2 in Hmod.
  set (d := Z.pos (digits2_pos p)) in *.
  assert (Hd1 : (1 <= d)%Z) by (subst d; lia).
  assert (Hd : (d <= 64)%Z).
  { destruct (Z_le_gt_dec d 64) as [H|H]; [exact H|].
    assert (2 ^ 64 <= 2 ^ (d - 1))%Z by (apply Z.pow_le_mono_r; lia). lia. }
  assert (Hf : forall k, (1 <= k <= 64)%Z -> fexp prec emax k = (k - 53)%Z).
  { intros k H. unfold fexp, SpecFloat.emin, prec, emax. lia. }
  unfold binary_round, shl_align. fold d.
  rewrite Z.add_0_r, Hf by lia. rewrite Z.sub_0_r.
  destruct (d - 53)%Z as [|q|q] eqn:Eq.
  - (* exactly 53 bits *)
    exists p, 0%Z. rewrite binary_round_aux_canonical.
    + repeat split; [|simpl; lia]. simpl. unfold bounded, canonical_mantissa.
      fold d. rewrite Z.add_0_r, Hf by lia. rewrite Eq. reflexivity.
    + fold d. rewrite Z.add_0_r, Hf by lia. exact Eq.
    + reflexivity.
  - (* more than 53 bits: the low ones are zero *)
    replace (Z.max 0 (d - 1 - 52)) with (Z.pos q) in Hmod by lia.
    assert (Hx : exists x, p = Pos.iter xO x q).
    { apply Z.mod_divide in Hmod; [|apply Z.pow_nonzero; lia].
      destruct Hmod as [c Hc].
      assert (0 < c)%Z.
      { assert (0 < 2 ^ Z.pos q)%Z by (apply Z.pow_pos_nonneg; lia). nia. }
      destruct c as [|x|x]; try lia. exists x.
      destruct (iter_xO_spec q x) as [Hv _].
      apply Pos2Z.inj. rewrite Hv. exact Hc. }
    destruct Hx as [x Hx].
    destruct (iter_xO_spec q x) as [Hv Hdig]. rewrite <- Hx in Hv, Hdig.
    fold d in Hdig.
    assert (Hcan : fexp prec emax (Z.pos (digits2_pos x) + Z.pos q) = Z.pos q).
    { rewrite <- Hdig. rewrite Hf by lia. exact Eq. }
    assert (Hb : (Z.pos q <=? emax - prec)%Z = true).
    { apply Z.leb_le. unfold emax, prec. lia. }
    exists x, (Z.pos q). split; [|split].
    + unfold binary_round_aux, shr_fexp. cbn [Zdigits2]. fold d.
      rewrite Z.add_0_r, Hf by lia. rewrite Z.sub_0_r, Eq.
      assert (Hit : iter_pos shr_1 q
                      {| shr_m := Z.pos p; shr_r := false; shr_s := false |}
                    = {| shr_m := Z.pos x; shr_r := false; shr_s := false |}).
      { rewrite Hx at 1. apply iter_pos_shr_1. }
      cbn [shr shr_record_of_loc]. rewrite Hit.
      cbn [shr_m loc_of_shr_record round_nearest_even Zdigits2].
      rewrite Z.add_0_l, Hcan, Z.sub_diag.
      cbn [shr shr_record_of_loc shr_m]. now rewrite Hb.
    + simpl. unfold bounded, canonical_mantissa. now rewrite Hcan, Z.eqb_refl, Hb.
    + simpl. rewrite Hv. reflexivity.
  - (* less than 53 bits: the integer is shifted left *)
    destruct (iter_xO_spec q p) as [Hv Hdig].
    change (PosDef.Pos.iter xO p q) with (Pos.iter xO p q).
    assert (Hcan : fexp prec emax (Z.pos (digits2_pos (Pos.iter xO p q)) + Z.neg q)
                   = Z.neg q).
    { rewrite Hdig. fold d. replace (d + Z.pos q + Z.neg q)%Z with d by lia.
      rewrite Hf by lia. exact Eq. }
    assert (Hb : (Z.neg q <=? emax - prec)%Z = true) by reflexivity.
    exists (Pos.iter xO p q), (Z.neg q).
    rewrite (@binary_round_aux_canonical s _ _ Hcan Hb).
    split; [reflexivity|]. split.
    + simpl. unfold bounded, canonical_mantissa.
      rewrite Hcan, Z.eqb_refl. reflexivity.
    + change (0 <=? Z.neg q)%Z with false. cbv iota.
      change (- Z.neg q)%Z with (Z.pos q). rewrite Hv.
      apply Z.div_mul. apply Z.pow_nonzero; lia.
Qed.

(** A 64 bit integer of at most 53 significant bits survives the
    conversion to binary64 and back. *)
Lemma F2Z_Z2F n : int64_exact n = true -> F2Z (Z2F n) = n.
Proof.
  unfold int64_exact. rewrite andb_true_iff, Z.eqb_eq. intros [Hi Hmod].
  destruct n as [|p|p].
  - vm_compute. reflexivity.
  - unfold Z2F. cbn [binary_normalize]. cbn [Z.abs] in Hmod.
    assert (Hp : (Z.pos p <= 2 ^ 63)%Z).
    { unfold is_int64 in Hi. apply andb_true_iff in Hi as [_ H].
      apply Z.ltb_lt in H. lia. }
    destruct (@binary_round_exact false p Hp Hmod) as (m & e & -> & Hv & Hval).
    unfold F2Z. rewrite (Prim2SF_SF2Prim _ Hv). cbv zeta. rewrite Hval.
    now rewrite Hi.
  - unfold Z2F. cbn [binary_normalize]. cbn [Z.abs] in Hmod.
    assert (Hp : (Z.pos p <= 2 ^ 63)%Z).
    { unfold is_int64, int64_min in Hi. apply andb_true_iff in Hi as [H _].
      apply Z.leb_le in H. lia. }
    destruct (@binary_round_exact true p Hp Hmod) as (m & e & -> & Hv & Hval).
    unfold F2Z. rewrite (Prim2SF_SF2Prim _ Hv). cbv zeta. rewrite Hval.
    change (- Z.pos p)%Z with (Z.neg p). now rewrite Hi.
Qed.

(** So does every integer up to [2^53] in magnitude. *)
Lemma int64_exact_small n : (Z.abs n <= 2 ^ 53)%Z -> int64_exact n = true.
Proof.
  intros Hn. unfold int64_exact. apply andb_true_iff. split.
  - unfold is_int64, int64_min. apply andb_true_iff.
    split; [apply Z.leb_le|apply Z.ltb_lt]; lia.
  - apply Z.eqb_eq.
    destruct (Z.eq_dec (Z.abs n) (2 ^ 53)) as [->|Hne]; [reflexivity|].
    assert (Hl : (Z.log2 (Z.abs n) <= 52)%Z).
    { destruct (Z.eq_dec (Z.abs n) 0) as [->|H0]; [simpl; lia|].
      assert (Z.log2 (Z.abs n) < 53)%Z by (apply Z.log2_lt_pow2; lia). lia. }
    replace (Z.max 0 (Z.log2 (Z.abs n) - 52)) with 0%Z by lia.
    apply Z.mod_1_r.
Qed.

(** What the conversion of a binary64 stores is a 64 bit integer. *)
Lemma F2Z_int64 f : is_int64 (F2Z f) = true.
Proof.
  unfold F2Z. destruct (Prim2SF f) as [s|s| |s m e]; try reflexivity.
  cbv zeta.
  set (v := if s then _ else _).
  destruct (is_int64 v) eqn:E; [exact E|reflexivity].
Qed.

(** An element that is a binary64 number comes back as it was when it is
    converted to float64, multiplied by [1.0] and stored with its own
    element type. *)
Lemma cast_through_float dt s :
  is_number dt = true -> has_dtype dt s = true -> exact_in_float s = true ->
  cast dt (SF (PrimFloat.mul (to_float s) 1)) = s.
Proof.
  rewrite mul_one. destruct dt, s as [f|n|b]; simpl; try discriminate; auto.
  intros _ _ H. now rewrite F2Z_Z2F.
Qed.

(** ** Broadcasting *)

Lemma size_cons d s : size (d :: s) = d * size s.
Proof. reflexivity. Qed.

Lemma size_app s t : size (s ++ t) = size s * size t.
Proof.
  induction s as [|d s IH]; simpl.
  - lia.
  - fold (size (s ++ t)) (size s). rewrite IH. lia.
Qed.

Lemma size_rev s : size (rev s) = size s.
Proof.
  induction s as [|d s IH]; simpl; auto.
  rewrite size_app, IH. simpl. fold (size s). lia.
Qed.

Lemma bdim_comm x y : bdim x y = bdim y x.
Proof.
  unfold bdim.
  destruct (Nat.eqb_spec x y), (Nat.eqb_spec y x); try congruence;
    destruct (Nat.eqb_spec x 1), (Nat.eqb_spec y 1); congruence.
Qed.

Lemma bshape_r_comm a : forall b, bshape_r a b = bshape_r b a.
Proof.
  induction a as [|x a IH]; intros [|y b]; simpl; auto.
  rewrite bdim_comm, IH. reflexivity.
Qed.

Lemma bto_r_refl s : bto_r s s = true.
Proof. induction s; simpl; auto. rewrite Nat.eqb_refl, IHs. reflexivity. Qed.

Lemma bto_r_trans a : forall b c,
  bto_r a b = true -> bto_r b c = true -> bto_r a c = true.
Proof.
  induction a as [|x a IH]; intros [|y b] [|z c]; simpl; auto; try discriminate.
  rewrite !andb_true_iff, !orb_true_iff, !Nat.eqb_eq.
  intros [Hxy Hab] [Hyz Hbc]. split; [|eauto].
  destruct Hxy; destruct Hyz; subst; auto.
Qed.

Lemma bshape_r_bto a : forall b c,
  bshape_r a b = Some c -> bto_r a c = true /\ bto_r b c = true.
Proof.
  induction a as [|x a IH]; intros [|y b] c; simpl.
  - intros [= <-]. auto.
  - intros [= <-]. split; [reflexivity | apply (bto_r_refl (y :: b))].
  - intros [= <-]. split; [apply (bto_r_refl (x :: a)) | reflexivity].
  - destruct (bdim x y) as [d|] eqn:Hd; [|discriminate].
    destruct (bshape_r a b) as [r|] eqn:Hr; [|discriminate].
    intros [= <-]. destruct (IH _ _ Hr) as [H1 H2]. simpl.
    rewrite H1, H2, !andb_true_r. unfold bdim in Hd.
    destruct (Nat.eqb_spec x y).
    { injection Hd as <-. subst. rewrite Nat.eqb_refl. auto. }
    destruct (Nat.eqb_spec x 1).
    { injection Hd as <-. rewrite Nat.eqb_refl, orb_true_r. auto. }
    destruct (Nat.eqb_spec y 1); [|discriminate].
    injection Hd as <-. rewrite Nat.eqb_refl, orb_true_r. auto.
Qed.

Lemma bto_dim d D : (d =? D) || (d =? 1) = true -> d = D \/ d = 1.
Proof. rewrite orb_true_iff, !Nat.eqb_eq. auto. Qed.

Lemma bidx_id s : forall k, k < size s -> bidx s s k = k.
Proof.
  induction s as [|d s IH]; intros k Hk.
  - simpl in *. lia.
  - rewrite size_cons in Hk. simpl.
    assert (Hd : d <> 0) by (intros ->; lia).
    assert (Hq : k / d < size s) by (apply Nat.Div0.div_lt_upper_bound; lia).
    rewrite (IH _ Hq).
    pose proof (Nat.div_mod_eq k d) as E.
    destruct (Nat.eqb_spec d 1) as [->|_].
    + rewrite Nat.div_1_r. lia.
    + lia.
Qed.

(** What broadcasts can be assigned. *)
Lemma bto_ato s : forall t, bto_r s t = true -> ato_r s t = true.
Proof.
  induction s as [|d s IH]; intros [|D t]; simpl; auto; try discriminate.
  rewrite !andb_true_iff. intros [H1 H2]. auto.
Qed.

Lemma ato_r_refl s : ato_r s s = true.
Proof. apply bto_ato, bto_r_refl. Qed.

Lemma ato_nil_size s : ato_r s [] = true -> size s = 1.
Proof.
  induction s as [|d s IH]; simpl; auto.
  rewrite andb_true_iff, Nat.eqb_eq. intros [-> H]. fold (size s).
  rewrite (IH H). reflexivity.
Qed.

Lemma bto_ato_trans a : forall b c,
  bto_r a b = true -> ato_r b c = true -> ato_r a c = true.
Proof.
  induction a as [|x a IH]; intros [|y b] [|z c]; simpl; auto; try discriminate.
  - rewrite !andb_true_iff, !orb_true_iff, !Nat.eqb_eq.
    intros [Hxy Hab] [Hy Hb]. split; [|exact (IH _ _ Hab Hb)].
    destruct Hxy; subst; auto.
  - rewrite !andb_true_iff, !orb_true_iff, !Nat.eqb_eq.
    intros [Hxy Hab] [Hyz Hbc]. split; [|eauto].
    destruct Hxy; destruct Hyz; subst; auto.
Qed.

Lemma bidx_zero s : forall t, bidx s t 0 = 0.
Proof.
  induction s as [|d s IH]; intros [|D t]; simpl; auto.
  rewrite Nat.Div0.mod_0_l, Nat.Div0.div_0_l, IH.
  destruct (d =? 1); lia.
Qed.

Lemma bidx_lt_ato s : forall t k,
  ato_r s t = true -> k < size t -> bidx s t k < size s.
Proof.
  induction s as [|d s IH]; intros [|D t] k Hb Hk.
  - simpl. lia.
  - simpl. lia.
  - rewrite (ato_nil_size _ Hb). simpl. lia.
  - simpl in Hb. apply andb_true_iff in Hb as [Hd Hb]. rewrite size_cons in Hk.
    apply bto_dim in Hd.
    assert (HD : D <> 0) by (intros ->; lia).
    assert (Hq : k / D < size t) by (apply Nat.Div0.div_lt_upper_bound; lia).
    specialize (IH _ _ Hb Hq). rewrite size_cons. simpl.
    destruct (Nat.eqb_spec d 1) as [->|Hne].
    + lia.
    + destruct Hd as [->|Hd]; [|lia].
      pose proof (Nat.mod_upper_bound k D HD). nia.
Qed.

Lemma bidx_lt s t k :
  bto_r s t = true -> k < size t -> bidx s t k < size s.
Proof. intros H. apply bidx_lt_ato. now apply bto_ato. Qed.

Lemma bidx_compose_ato s : forall m t k,
  bto_r s m = true -> ato_r m t = true -> k < size t ->
  bidx s m (bidx m t k) = bidx s t k.
Proof.
  induction s as [|d s IH]; intros [|E m] [|D t] k Hsm Hmt Hk;
    simpl in Hsm, Hmt; try discriminate; try reflexivity.
  { cbn [bidx]. rewrite Nat.Div0.mod_0_l, Nat.Div0.div_0_l, bidx_zero.
    destruct (d =? 1); lia. }
  apply andb_true_iff in Hsm as [Hd Hsm].
  apply andb_true_iff in Hmt as [HE Hmt].
  apply bto_dim in Hd. apply bto_dim in HE.
  rewrite size_cons in Hk.
  assert (HD : D <> 0) by (intros ->; lia).
  assert (Hq : k / D < size t) by (apply Nat.Div0.div_lt_upper_bound; lia).
  cbn [bidx].
  set (a := if E =? 1 then 0 else k mod D).
  set (q := bidx m t (k / D)).
  assert (HE0 : E <> 0) by lia.
  assert (Ha : a < E).
  { subst a. destruct (Nat.eqb_spec E 1) as [->|Hne]; [lia|].
    destruct HE as [->|HE]; [|lia].
    apply Nat.mod_upper_bound; lia. }
  assert (Hdiv : (a + E * q) / E = q).
  { symmetry. apply (Nat.div_unique (a + E * q) E q a); lia. }
  assert (Hmod : (a + E * q) mod E = a).
  { symmetry. apply (Nat.mod_unique (a + E * q) E q a); lia. }
  rewrite Hdiv, Hmod. subst q. rewrite (IH _ _ _ Hsm Hmt Hq).
  f_equal. destruct (Nat.eqb_spec d 1) as [->|Hne]; [reflexivity|].
  destruct Hd as [->|Hd]; [|lia].
  subst a. destruct (Nat.eqb_spec E 1); [lia|reflexivity].
Qed.

(** ** Reading broadcast elements *)

Lemma nth_map_seq (g : nat -> scalar) n k d :
  k < n -> nth k (map g (seq 0 n)) d = g k.
Proof.
  intros Hk. rewrite (nth_indep _ d (g 0)) by (rewrite length_map, length_seq; lia).
  rewrite (map_nth g (seq 0 n) 0 k), seq_nth by lia. reflexivity.
Qed.

Lemma broadcast_shape_bto a b c :
  broadcast_shape a b = Some c ->
  broadcastable_to a c = true /\ broadcastable_to b c = true.
Proof.
  unfold broadcast_shape, broadcastable_to.
  destruct (bshape_r (rev a) (rev b)) as [r|] eqn:E; simpl; [|discriminate].
  intros [= <-]. rewrite rev_involutive. eapply bshape_r_bto; eauto.
Qed.

Lemma broadcast_shape_comm a b : broadcast_shape a b = broadcast_shape b a.
Proof. unfold broadcast_shape. rewrite bshape_r_comm. reflexivity. Qed.

Lemma broadcastable_to_refl s : broadcastable_to s s = true.
Proof. apply bto_r_refl. Qed.

Lemma broadcastable_to_trans a b c :
  broadcastable_to a b = true -> broadcastable_to b c = true ->
  broadcastable_to a c = true.
Proof. apply bto_r_trans. Qed.

Lemma broadcastable_assignable s t :
  broadcastable_to s t = true -> assignable_to s t = true.
Proof. apply bto_ato. Qed.

Lemma assignable_to_refl s : assignable_to s s = true.
Proof. apply ato_r_refl. Qed.

Lemma broadcastable_assignable_trans a b c :
  broadcastable_to a b = true -> assignable_to b c = true ->
  assignable_to a c = true.
Proof. apply bto_ato_trans. Qed.

Lemma bget_self a k :
  k < size (shape a) -> bget a (shape a) k = nth k (items a) (SI 0).
Proof. intros Hk. unfold bget. rewrite bidx_id; [reflexivity|]. now rewrite size_rev. Qed.

Lemma bget_scalar_op f a t k :
  wf_array a -> assignable_to (shape a) t = true -> k < size t ->
  bget (scalar_op f a) t k = SF (f (to_float (bget a t k))).
Proof.
  intros Hwf Hb Hk. unfold bget, scalar_op; simpl.
  set (g := fun s => SF (f (to_float s))).
  assert (Hi : bidx (rev (shape a)) (rev t) k < List.length (items a)).
  { rewrite Hwf, <- (size_rev (shape a)). apply bidx_lt_ato; [exact Hb|].
    now rewrite size_rev. }
  rewrite (nth_indep _ (SI 0) (g (SI 0))) by (now rewrite length_map).
  apply map_nth.
Qed.

Lemma broadcast_op_shape f a b c :
  broadcast_op f a b = Some c ->
  broadcast_shape (shape a) (shape b) = Some (shape c) /\ wf_array c.
Proof.
  unfold broadcast_op. destruct (broadcast_shape (shape a) (shape b)); [|discriminate].
  intros [= <-]. split; [reflexivity|].
  unfold wf_array; simpl. now rewrite length_map, length_seq.
Qed.

Lemma bget_broadcast_op f a b c t k :
  broadcast_op f a b = Some c ->
  assignable_to (shape c) t = true -> k < size t ->
  bget c t k = SF (f (to_float (bget a t k)) (to_float (bget b t k))).
Proof.
  intros Hop Hb Hk. pose proof Hop as Hop'. unfold broadcast_op in Hop.
  destruct (broadcast_shape (shape a) (shape b)) as [s|] eqn:Hs; [|discriminate].
  injection Hop as <-.
  destruct (broadcast_shape_bto _ _ Hs) as [Ha Hbb].
  unfold bget at 1; simpl. simpl in Hb.
  assert (Hi : bidx (rev s) (rev t) k < size s).
  { rewrite <- (size_rev s). apply bidx_lt_ato; [exact Hb|now rewrite size_rev]. }
  rewrite nth_map_seq by exact Hi.
  unfold bget. rewrite !bidx_compose_ato; auto; now rewrite size_rev.
Qed.

(** ** The heap *)

Lemma set_nth_length i v : forall l, List.length (set_nth i v l) = List.length l.
Proof.
  induction i as [|i IH]; intros [|x l]; simpl; auto.
Qed.

Lemma nth_set_nth_eq v d : forall i l,
  i < List.length l -> nth i (set_nth i v l) d = v.
Proof.
  induction i as [|i IH]; intros [|x l] Hi; simpl in *; try lia; auto.
  apply IH. lia.
Qed.

Lemma nth_set_nth_neq v d : forall i j l,
  i <> j -> nth j (set_nth i v l) d = nth j l d.
Proof.
  induction i as [|i IH]; intros [|j] [|x l] Hij; simpl; auto; try lia.
Qed.

Lemma scatter_length m : forall vals buf,
  List.length (scatter m vals buf) = List.length buf.
Proof.
  induction m as [|i m IH]; intros [|v vals] buf; simpl; auto.
  rewrite IH. apply set_nth_length.
Qed.

Lemma existsb_eqb_false i l : existsb (Nat.eqb i) l = false -> ~ In i l.
Proof.
  intros H Hin. assert (existsb (Nat.eqb i) l = true); [|congruence].
  apply existsb_exists. exists i. split; [exact Hin|apply Nat.eqb_refl].
Qed.

Lemma scatter_nth_notin d j m : forall vals buf,
  ~ In j m -> nth j (scatter m vals buf) d = nth j buf d.
Proof.
  induction m as [|i m IH]; intros [|v vals] buf Hj; simpl; auto.
  rewrite IH by (intros H; apply Hj; now right).
  apply nth_set_nth_neq. intros ->. apply Hj. now left.
Qed.

Lemma scatter_read d m : forall vals buf,
  nodup_nat m = true ->
  forallb (fun i => i <? List.length buf) m = true ->
  List.length m = List.length vals ->
  map (fun i => nth i (scatter m vals buf) d) m = vals.
Proof.
  induction m as [|i m IH]; intros [|v vals] buf Hnd Hb Hlen;
    simpl in *; try discriminate; auto.
  apply andb_true_iff in Hnd as [Hi Hnd]. apply negb_true_iff in Hi.
  apply andb_true_iff in Hb as [Hib Hb]. apply Nat.ltb_lt in Hib.
  f_equal.
  - rewrite scatter_nth_notin by (now apply existsb_eqb_false).
    now apply nth_set_nth_eq.
  - apply IH; auto. now rewrite set_nth_length.
Qed.

Lemma upd_same h o a : upd h o a o = a.
Proof. unfold upd. now rewrite Nat.eqb_refl. Qed.

Lemma upd_other h o a o' : o' <> o -> upd h o a o' = h o'.
Proof. unfold upd. intros H. apply Nat.eqb_neq in H. now rewrite H. Qed.

(** A write through [o] changes the object that owns the buffer, and
    nothing else. *)
Lemma set_items_frame w o vals o' :
  o' <> owner w o -> w_heap (set_items w o vals) o' = w_heap w o'.
Proof.
  unfold set_items, owner. destruct (a_store (w_heap w o)); simpl; apply upd_other.
Qed.

Lemma set_items_next w o vals : w_next (set_items w o vals) = w_next w.
Proof. unfold set_items. now destruct (a_store (w_heap w o)). Qed.

Lemma set_items_stdout w o vals : w_stdout (set_items w o vals) = w_stdout w.
Proof. unfold set_items. now destruct (a_store (w_heap w o)). Qed.

Lemma set_items_shape w o vals o' :
  a_shape (w_heap (set_items w o vals) o') = a_shape (w_heap w o').
Proof.
  unfold set_items. destruct (a_store (w_heap w o)) as [buf|b m]; simpl; unfold upd.
  - destruct (Nat.eqb_spec o' o) as [->|_]; reflexivity.
  - destruct (Nat.eqb_spec o' b) as [->|_]; reflexivity.
Qed.

Lemma set_items_dtype w o vals o' :
  a_dtype (w_heap (set_items w o vals) o') = a_dtype (w_heap w o').
Proof.
  unfold set_items. destruct (a_store (w_heap w o)) as [buf|b m]; simpl; unfold upd.
  - destruct (Nat.eqb_spec o' o) as [->|_]; reflexivity.
  - destruct (Nat.eqb_spec o' b) as [->|_]; reflexivity.
Qed.

(** What is written through a writable object is what is read back. *)
Lemma set_items_read w o vals :
  writable w o = true ->
  List.length vals = size (a_shape (w_heap w o)) ->
  obj_items (set_items w o vals) o = vals.
Proof.
  unfold writable, set_items, obj_items, buffer_of.
  destruct (a_store (w_heap w o)) as [buf|b m] eqn:E; intros Hw Hlen; simpl.
  - now rewrite upd_same.
  - rewrite !andb_true_iff in Hw. destruct Hw as [[[Hbo Hnd] Hb] Hl].
    apply Nat.eqb_eq in Hl.
    assert (Hne : o <> b).
    { intros ->. unfold is_own in Hbo. rewrite E in Hbo. discriminate. }
    rewrite upd_other by auto. rewrite E, upd_same. simpl.
    apply scatter_read; auto. congruence.
Qed.

(** ** The right-hand side of line 163 *)

Section Scaling.

Variable fpow : float -> float -> float.

Lemma broadcast_shape3_inv a b c s :
  broadcast_shape3 a b c = Some s ->
  exists s1, broadcast_shape a b = Some s1 /\ broadcast_shape s1 c = Some s.
Proof.
  unfold broadcast_shape3. destruct (broadcast_shape a b) as [s1|]; [|discriminate].
  intros H. now exists s1.
Qed.

Lemma broadcast_shape3_bto a b c s :
  broadcast_shape3 a b c = Some s ->
  broadcastable_to a s = true /\ broadcastable_to b s = true
  /\ broadcastable_to c s = true.
Proof.
  intros H. destruct (broadcast_shape3_inv _ _ _ H) as (s1 & H1 & H2).
  destruct (broadcast_shape_bto _ _ H1) as [Ha Hb].
  destruct (broadcast_shape_bto _ _ H2) as [Hs Hc].
  repeat split; eauto using broadcastable_to_trans.
Qed.

(** When the three shapes broadcast, the stepwise evaluation of the
    right-hand side succeeds, has the broadcast shape, and holds the formula
    at every position. *)
Lemma scaled_formula z_in z_out y e s :
  broadcast_shape3 (shape z_in) (shape z_out) (shape y) = Some s ->
  exists zfactor rhs,
    zfactor_of z_in z_out = Some zfactor /\
    scaled fpow y zfactor e = Some rhs /\
    shape rhs = s /\ wf_array rhs /\
    (wf_array z_in -> wf_array z_out ->
     forall k, k < size s ->
       nth k (items rhs) (SI 0) = SF (formula fpow z_in z_out y e s k)).
Proof.
  intros H3.
  destruct (broadcast_shape3_inv _ _ _ H3) as (s1 & H1 & H2).
  destruct (broadcast_shape3_bto _ _ _ H3) as (Hbi & Hbo & Hby).
  destruct (broadcast_shape_bto _ _ H2) as [Hs1 _].
  unfold zfactor_of, scaled.
  destruct (broadcast_op PrimFloat.div (scalar_op (PrimFloat.add 1) z_out)
              (scalar_op (PrimFloat.add 1) z_in))
    as [zf|] eqn:Ezf.
  2:{ unfold broadcast_op in Ezf. simpl in Ezf.
      rewrite broadcast_shape_comm, H1 in Ezf. discriminate. }
  destruct (broadcast_op_shape _ _ _ Ezf) as [Hszf Hwzf]. simpl in Hszf.
  rewrite broadcast_shape_comm, H1 in Hszf. injection Hszf as Hszf.
  destruct (broadcast_op PrimFloat.mul y (scalar_op (fun x => fpow x e) zf)) as [rhs|] eqn:Er.
  2:{ unfold broadcast_op in Er. simpl in Er.
      rewrite broadcast_shape_comm, <- Hszf, H2 in Er. discriminate. }
  destruct (broadcast_op_shape _ _ _ Er) as [Hsr Hwr]. simpl in Hsr.
  rewrite broadcast_shape_comm, <- Hszf, H2 in Hsr. injection Hsr as Hsr.
  exists zf, rhs. repeat split; auto.
  intros Hwi Hwo k Hk. rewrite <- bget_self by (now rewrite <- Hsr).
  rewrite <- Hsr.
  rewrite (bget_broadcast_op _ _ _ _ Er)
    by (rewrite <- ?Hsr; auto using assignable_to_refl).
  rewrite bget_scalar_op
    by (rewrite <- ?Hszf, <- ?Hsr; auto using broadcastable_assignable).
  rewrite (bget_broadcast_op _ _ _ _ Ezf)
    by (rewrite <- ?Hszf, <- ?Hsr; auto using broadcastable_assignable).
  rewrite !bget_scalar_op
    by (rewrite <- ?Hsr; auto using broadcastable_assignable).
  reflexivity.
Qed.


(** The value of a call that passes the checks of the redshifts and of
    [y_in]: either the output array is rejected, nothing being written, or
    the right-hand side is evaluated and line 163 stores it, which numpy
    refuses when the output array has no dimension. *)
Lemma redshift_array_run z_in z_out y_in y_out exponent name w s :
  existsb le_minus_one (items z_in) = false ->
  existsb le_minus_one (items z_out) = false ->
  is_number (a_dtype (w_heap w y_in)) = true ->
  forallb isfinite (obj_items w y_in) = true ->
  broadcast_shape3 (shape z_in) (shape z_out) (a_shape (w_heap w y_in)) = Some s ->
  exists rhs,
    shape rhs = s /\ wf_array rhs /\
    (wf_array z_in -> wf_array z_out ->
     forall k, k < size s ->
       nth k (items rhs) (SI 0)
       = SF (formula fpow z_in z_out (load w y_in)
               (resolve_exponent exponent name) s k)) /\
    redshift_array fpow z_in z_out y_in y_out exponent name w =
      match y_out with
      | None =>
          let dt := a_dtype (w_heap w y_in) in
          let w1 := snd (empty_like (load w y_in) s dt w) in
          if has_dims s
          then (OK (w_next w),
                set_items w1 (w_next w) (stored_values dt s rhs))
          else (Err IndexError, w1)
      | Some o =>
          if negb (shape_eqb (a_shape (w_heap w o)) s)
          then (Err (ShapeMismatch name), w)
          else if negb (dtype_eqb (a_dtype (w_heap w o)) (a_dtype (w_heap w y_in)))
          then (Err (DtypeMismatch name), w)
          else if has_dims s
          then (OK o,
                set_items w o
                  (stored_values (a_dtype (w_heap w o)) (a_shape (w_heap w o)) rhs))
          else (Err IndexError, w)
      end.
Proof.
  intros Hzi Hzo Hnum Hfin H3.
  destruct (scaled_formula z_in z_out (load w y_in)
              (resolve_exponent exponent name) H3)
    as (zf & rhs & Ezf & Er & Hs & Hwf & Hform).
  exists rhs. repeat split; auto.
  unfold redshift_array. rewrite Hzi, Hzo.
  unfold bind, lift, ret, raise, empty_like, assign.
  cbn [load dtype_of items shape]. rewrite Hnum, Hfin. cbn [negb].
  rewrite H3, Ezf.
  destruct y_out as [o|].
  - destruct (negb (shape_eqb (a_shape (w_heap w o)) s)) eqn:Hshape; [reflexivity|].
    destruct (negb (dtype_eqb (a_dtype (w_heap w o)) (a_dtype (w_heap w y_in))))
      eqn:Hdt; [reflexivity|].
    rewrite Er, Hs.
    apply negb_false_iff, shape_eqb_eq in Hshape. rewrite Hshape.
    destruct s as [|d s']; [reflexivity|].
    rewrite assignable_to_refl. reflexivity.
  - rewrite Er. cbn [w_heap a_shape a_dtype snd]. rewrite upd_same.
    cbn [a_shape a_dtype]. rewrite Hs.
    destruct s as [|d s']; [reflexivity|].
    rewrite assignable_to_refl. reflexivity.
Qed.

End Scaling.

(** ** [redshift_array] *)

Section ArrayProperties.

Variable fpow : float -> float -> float.

Lemma stored_values_length dt s a : List.length (stored_values dt s a) = size s.
Proof. unfold stored_values. now rewrite length_map, length_seq. Qed.

Lemma stored_values_nth dt s a k :
  shape a = s -> k < size s ->
  nth k (stored_values dt s a) (SI 0) = cast dt (nth k (items a) (SI 0)).
Proof.
  intros Hs Hk. unfold stored_values. rewrite nth_map_seq by exact Hk.
  rewrite <- Hs, bget_self; [reflexivity|]. now rewrite Hs.
Qed.

(** A call that returns has an output of at least one dimension. *)
Lemma redshift_array_returns_dims z_in z_out y_in y_out exponent name w s r w' :
  existsb le_minus_one (items z_in) = false ->
  existsb le_minus_one (items z_out) = false ->
  is_number (a_dtype (w_heap w y_in)) = true ->
  forallb isfinite (obj_items w y_in) = true ->
  broadcast_shape3 (shape z_in) (shape z_out) (a_shape (w_heap w y_in)) = Some s ->
  redshift_array fpow z_in z_out y_in y_out exponent name w = (OK r, w') ->
  has_dims s = true.
Proof.
  intros Hzi Hzo Hnum Hfin H3.
  destruct (redshift_array_run fpow z_in z_out y_in y_out exponent name w
              Hzi Hzo Hnum Hfin H3) as (rhs & _ & _ & _ & Hrun).
  rewrite Hrun. destruct y_out as [o|].
  - destruct (negb _); [discriminate|]. destruct (negb _); [discriminate|].
    now destruct (has_dims s).
  - cbv zeta. now destruct (has_dims s).
Qed.

(** What a call that passes the input checks returns: an array of the
    broadcast shape and of the element type of [y_in], holding the formula
    converted to that element type.  It returns when the broadcast shape
    has a dimension. *)
Lemma redshift_array_result z_in z_out y_in y_out exponent name w s :
  existsb le_minus_one (items z_in) = false ->
  existsb le_minus_one (items z_out) = false ->
  is_number (a_dtype (w_heap w y_in)) = true ->
  forallb isfinite (obj_items w y_in) = true ->
  wf_array z_in -> wf_array z_out ->
  broadcast_shape3 (shape z_in) (shape z_out) (a_shape (w_heap w y_in)) = Some s ->
  match y_out with None => True | Some o => writable w o = true end ->
  (has_dims s = true ->
   match y_out with
   | None => True
   | Some o => a_shape (w_heap w o) = s
               /\ a_dtype (w_heap w o) = a_dtype (w_heap w y_in)
   end ->
   exists r w',
     redshift_array fpow z_in z_out y_in y_out exponent name w = (OK r, w'))
  /\
  forall r w',
    redshift_array fpow z_in z_out y_in y_out exponent name w = (OK r, w') ->
    a_shape (w_heap w' r) = s
    /\ a_dtype (w_heap w' r) = a_dtype (w_heap w y_in)
    /\ List.length (obj_items w' r) = size s
    /\ forall k, k < size s ->
         nth k (obj_items w' r) (SI 0)
         = cast (a_dtype (w_heap w y_in))
             (SF (formula fpow z_in z_out (load w y_in)
                    (resolve_exponent exponent name) s k)).
Proof.
  intros Hzi Hzo Hnum Hfin Hwi Hwo H3 Hout.
  destruct (redshift_array_run fpow z_in z_out y_in y_out exponent name w
              Hzi Hzo Hnum Hfin H3) as (rhs & Hs & Hwf & Hform & Hrun).
  specialize (Hform Hwi Hwo). rewrite Hrun. clear Hrun.
  destruct (has_dims s) eqn:Hdims.
  2:{ split; [discriminate|]. intros r w'. destruct y_out as [o|].
      - destruct (negb _); [discriminate|]. now destruct (negb _).
      - discriminate. }
  destruct y_out as [o|].
  - split.
    + intros _ [Hshape Hdt].
      apply shape_eqb_eq in Hshape. apply dtype_eqb_eq in Hdt.
      rewrite Hshape, Hdt. simpl. eauto.
    + intros r w'.
      destruct (shape_eqb (a_shape (w_heap w o)) s) eqn:Hshape; simpl;
        [|discriminate].
      destruct (dtype_eqb (a_dtype (w_heap w o)) (a_dtype (w_heap w y_in)))
        eqn:Hdt; simpl; [|discriminate].
      apply shape_eqb_eq in Hshape. apply dtype_eqb_eq in Hdt.
      intros [= <- <-]. rewrite set_items_shape, set_items_dtype.
      rewrite set_items_read by (auto; rewrite stored_values_length; auto).
      rewrite Hshape, Hdt. repeat split; auto using stored_values_length.
      intros k Hk. rewrite stored_values_nth by auto. now rewrite Hform.
  - split; [eauto|]. intros r w'. cbv zeta.
    remember (snd (empty_like (load w y_in) s (a_dtype (w_heap w y_in)) w))
      as w1 eqn:Ew1.
    assert (Hobj : w_heap w1 (w_next w)
                   = mk_arrobj (a_dtype (w_heap w y_in)) s
                       (Own (repeat (cast (a_dtype (w_heap w y_in)) (SI 0)) (size s)))).
    { subst w1. unfold empty_like. simpl. apply upd_same. }
    clear Ew1. intros [= <- <-].
    rewrite set_items_shape, set_items_dtype, Hobj. simpl.
    rewrite set_items_read.
    + repeat split; auto using stored_values_length.
      intros k Hk. rewrite stored_values_nth by auto. now rewrite Hform.
    + unfold writable. now rewrite Hobj.
    + rewrite Hobj. simpl. apply stored_values_length.
Qed.

(** A failure of [redshift_array] is one of its six validation errors,
    and then the world is as the call found it, or the [IndexError] of
    line 163, which is raised before anything is stored: by then the call
    has at most allocated its own output array. *)
Lemma redshift_array_failure z_in z_out y_in y_out exponent name w e w' :
  redshift_array fpow z_in z_out y_in y_out exponent name w = (Err e, w') ->
  (w' = w /\ validation_error name e)
  \/ (e = IndexError
      /\ match y_out with
         | Some _ => w' = w
         | None =>
             w_stdout w' = w_stdout w /\ w_next w' = S (w_next w)
             /\ forall p, p <> w_next w -> w_heap w' p = w_heap w p
         end).
Proof.
  unfold validation_error.
  destruct (existsb le_minus_one (items z_in)) eqn:Hzi.
  { unfold redshift_array. rewrite Hzi. intros [= <- <-]. auto. }
  destruct (existsb le_minus_one (items z_out)) eqn:Hzo.
  { unfold redshift_array. rewrite Hzi, Hzo. intros [= <- <-]. auto. }
  destruct (is_number (a_dtype (w_heap w y_in))) eqn:Hnum.
  2:{ unfold redshift_array, bind. rewrite Hzi, Hzo. simpl. rewrite Hnum. simpl.
      intros [= <- <-]. auto 6. }
  destruct (forallb isfinite (obj_items w y_in)) eqn:Hfin.
  2:{ unfold redshift_array, bind. rewrite Hzi, Hzo. simpl. rewrite Hnum, Hfin.
      simpl. intros [= <- <-]. auto 7. }
  destruct (broadcast_shape3 (shape z_in) (shape z_out) (a_shape (w_heap w y_in)))
    as [s|] eqn:H3.
  2:{ unfold redshift_array, bind, lift. rewrite Hzi, Hzo. simpl.
      rewrite Hnum, Hfin, H3. simpl. intros [= <- <-]. auto 8. }
  destruct (redshift_array_run fpow z_in z_out y_in y_out exponent name w
              Hzi Hzo Hnum Hfin H3) as (rhs & _ & _ & _ & Hrun).
  rewrite Hrun. destruct y_out as [o|].
  - destruct (negb (shape_eqb (a_shape (w_heap w o)) s)).
    { intros [= <- <-]. left. split; auto. do 5 right. now left. }
    destruct (negb (dtype_eqb (a_dtype (w_heap w o)) (a_dtype (w_heap w y_in)))).
    { intros [= <- <-]. left. split; auto. do 6 right. reflexivity. }
    destruct (has_dims s); [discriminate|].
    intros [= <- <-]. right. auto.
  - cbv zeta. destruct (has_dims s); [discriminate|].
    intros [= <- <-]. right. split; [reflexivity|].
    unfold empty_like. cbn [snd w_stdout w_next w_heap].
    repeat split. intros p Hp. now apply upd_other.
Qed.

End ArrayProperties.

(** ** Writes and what they leave alone *)

Lemma assign_run o a w :
  assign o a w =
    if has_dims (a_shape (w_heap w o)) then
      if assignable_to (shape a) (a_shape (w_heap w o)) then
        (OK tt, set_items w o
                  (stored_values (a_dtype (w_heap w o)) (a_shape (w_heap w o)) a))
      else (Err OperandsError, w)
    else (Err IndexError, w).
Proof. unfold assign. now destruct (a_shape (w_heap w o)). Qed.

Lemma assign_ok o a w w' :
  assign o a w = (OK tt, w') ->
  has_dims (a_shape (w_heap w o)) = true
  /\ assignable_to (shape a) (a_shape (w_heap w o)) = true
  /\ w' = set_items w o
            (stored_values (a_dtype (w_heap w o)) (a_shape (w_heap w o)) a).
Proof.
  rewrite assign_run. destruct (has_dims _); [|discriminate].
  destruct (assignable_to _ _); [|discriminate]. now intros [= <-].
Qed.

Lemma assign_err o a w e w' :
  assign o a w = (Err e, w') ->
  w' = w /\ (e = OperandsError \/ e = IndexError).
Proof.
  rewrite assign_run. destruct (has_dims _).
  - destruct (assignable_to _ _); [discriminate|]. intros [= <- <-]. auto.
  - intros [= <- <-]. auto.
Qed.

Lemma view_of_own w o : is_own w o = true <-> view_of w o = None.
Proof.
  unfold is_own, view_of. destruct (a_store (w_heap w o)); split; congruence.
Qed.

Lemma base_of_view_of w o : base_of w o = option_map fst (view_of w o).
Proof. unfold base_of, view_of. now destruct (a_store (w_heap w o)). Qed.

Lemma owner_view_of w o :
  owner w o = match view_of w o with Some (b, _) => b | None => o end.
Proof. unfold owner, view_of. now destruct (a_store (w_heap w o)). Qed.

Lemma writable_based w o : writable w o = true -> based w o = true.
Proof.
  unfold writable, based, view_of.
  destruct (a_store (w_heap w o)); [reflexivity|].
  rewrite !andb_true_iff. tauto.
Qed.

(** A write keeps every array what it is: the owner of its buffer, or a
    view of the same base at the same positions. *)
Lemma set_items_view_of w o vals p :
  based w o = true -> view_of (set_items w o vals) p = view_of w p.
Proof.
  unfold based, set_items, view_of.
  destruct (a_store (w_heap w o)) as [buf|b m] eqn:E; intros Hb; simpl; unfold upd.
  - destruct (Nat.eqb_spec p o) as [->|_]; [now rewrite E|reflexivity].
  - unfold is_own in Hb.
    destruct (Nat.eqb_spec p b) as [->|_]; [|reflexivity].
    simpl. destruct (a_store (w_heap w b)); [reflexivity|discriminate].
Qed.

Lemma based_agree w1 w o :
  (forall p, view_of w1 p = view_of w p) -> based w1 o = based w o.
Proof.
  intros H. unfold based. rewrite H.
  destruct (view_of w o) as [[b m]|]; [|reflexivity].
  destruct (is_own w1 b) eqn:E1, (is_own w b) eqn:E; auto.
  - apply view_of_own in E1. rewrite H in E1. apply view_of_own in E1. congruence.
  - apply view_of_own in E. rewrite <- H in E. apply view_of_own in E. congruence.
Qed.

Lemma untouched_by_agree w1 w o x :
  (forall p, view_of w1 p = view_of w p) ->
  untouched_by w1 o x = untouched_by w o x.
Proof. intros H. unfold untouched_by. now rewrite !H. Qed.

(** A write through [o] leaves the arrays it does not reach as they
    were. *)
Lemma set_items_untouched w o vals x :
  based w o = true -> untouched_by w o x = true ->
  load (set_items w o vals) x = load w x.
Proof.
  intros Hw Hu. unfold load. rewrite set_items_shape, set_items_dtype. f_equal.
  revert Hw Hu.
  unfold based, untouched_by, view_of, set_items, obj_items, buffer_of.
  destruct (a_store (w_heap w o)) as [buf|b' m'] eqn:Eo;
    destruct (a_store (w_heap w x)) as [bufx|b m] eqn:Ex; intros Hw Hu;
    cbn [w_heap].
  - apply negb_true_iff, Nat.eqb_neq in Hu.
    rewrite upd_other by exact Hu. now rewrite Ex.
  - apply negb_true_iff, Nat.eqb_neq in Hu.
    assert (Hxo : x <> o) by (intros ->; congruence).
    rewrite upd_other by exact Hxo. rewrite Ex.
    rewrite upd_other by exact Hu. reflexivity.
  - apply negb_true_iff, Nat.eqb_neq in Hu.
    rewrite upd_other by exact Hu. now rewrite Ex.
  - rename Hw into Hb. unfold is_own in Hb.
    assert (Hxb : x <> b').
    { intros ->. rewrite Ex in Hb. discriminate. }
    rewrite upd_other by exact Hxb. rewrite Ex.
    destruct (Nat.eqb_spec b b') as [->|Hne].
    + simpl in Hu. rewrite upd_same. cbn [a_store].
      apply map_ext_in. intros i Hi. apply scatter_nth_notin.
      unfold disjoint_nat in Hu. rewrite forallb_forall in Hu.
      apply existsb_eqb_false. apply negb_true_iff. now apply Hu.
    + rewrite upd_other by exact Hne. reflexivity.
Qed.

(** A write through [o] leaves an array [x] writable, when a write
    through [x] does not reach [o]. *)
Lemma writable_after_write w o vals x :
  writable w o = true -> untouched_by w x o = true ->
  writable (set_items w o vals) x = writable w x.
Proof.
  unfold writable, untouched_by, view_of, set_items, is_own, buffer_of.
  destruct (a_store (w_heap w o)) as [buf|b' m'] eqn:Eo;
    destruct (a_store (w_heap w x)) as [bufx|b m] eqn:Ex; intros Hw Hu;
    cbn [w_heap].
  - unfold upd. destruct (Nat.eqb_spec x o) as [->|_]; [reflexivity|].
    now rewrite Ex.
  - apply negb_true_iff, Nat.eqb_neq in Hu.
    assert (Hxo : x <> o) by (intros ->; congruence).
    rewrite upd_other by exact Hxo. rewrite Ex.
    rewrite !upd_other by auto. reflexivity.
  - unfold upd. destruct (Nat.eqb_spec x b') as [->|_]; [reflexivity|].
    now rewrite Ex.
  - rewrite !andb_true_iff in Hw. destruct Hw as [[[Hb _] _] _].
    assert (Hxb : x <> b').
    { intros ->. rewrite Ex in Hb. discriminate. }
    rewrite upd_other by exact Hxb. rewrite Ex.
    destruct (Nat.eqb_spec b b') as [->|Hne].
    + rewrite !upd_same. cbn [a_store]. rewrite scatter_length.
      destruct (a_store (w_heap w b')); [reflexivity|discriminate].
    + rewrite !upd_other by exact Hne. reflexivity.
Qed.

(** What one step of a loop of writes leaves as it was. *)
Lemma write_step w o w1 :
  writable w o = true ->
  w1 = w \/ (exists vals, w1 = set_items w o vals) ->
  (forall p, view_of w1 p = view_of w p)
  /\ (forall p, a_shape (w_heap w1 p) = a_shape (w_heap w p))
  /\ (forall p, a_dtype (w_heap w1 p) = a_dtype (w_heap w p))
  /\ w_stdout w1 = w_stdout w
  /\ w_next w1 = w_next w
  /\ (forall x, untouched_by w o x = true -> load w1 x = load w x)
  /\ (forall x, untouched_by w x o = true -> writable w1 x = writable w x).
Proof.
  intros Hw [->|(vals & ->)]; [repeat split; auto|].
  repeat split;
    auto using set_items_view_of, set_items_shape, set_items_dtype,
      set_items_stdout, set_items_next, set_items_untouched,
      writable_after_write, writable_based.
Qed.

Lemma identity_view_alt w out src :
  identity_view w out src =
    match view_of w out, view_of w src with
    | Some (_, m), None =>
        nat_list_eqb m (seq 0 (List.length (obj_items w src)))
        && shape_eqb (a_shape (w_heap w out)) (a_shape (w_heap w src))
        && dtype_eqb (a_dtype (w_heap w out)) (a_dtype (w_heap w src))
        && forallb (has_dtype (a_dtype (w_heap w src))) (obj_items w src)
    | _, _ => false
    end.
Proof.
  unfold identity_view, view_of, obj_items.
  destruct (a_store (w_heap w out)); [reflexivity|].
  now destruct (a_store (w_heap w src)).
Qed.

Lemma identity_view_agree w1 w out src :
  (forall p, view_of w1 p = view_of w p) ->
  (forall p, a_shape (w_heap w1 p) = a_shape (w_heap w p)) ->
  (forall p, a_dtype (w_heap w1 p) = a_dtype (w_heap w p)) ->
  load w1 src = load w src ->
  identity_view w1 out src = identity_view w out src.
Proof.
  intros Hv Hs Hd Hl. rewrite !identity_view_alt, !Hv, !Hs, !Hd.
  assert (Hi : obj_items w1 src = obj_items w src)
    by exact (f_equal items Hl).
  now rewrite Hi.
Qed.

(** ** [apply_redshift_transform] *)

(** What is read from an object depends on the object and on the owner of
    its buffer only. *)
Lemma obj_items_agree w1 w o :
  w_heap w1 o = w_heap w o ->
  w_heap w1 (owner w o) = w_heap w (owner w o) ->
  obj_items w1 o = obj_items w o.
Proof.
  unfold obj_items, owner, buffer_of. intros H1. rewrite H1.
  destruct (a_store (w_heap w o)); [reflexivity|]. intros H2. now rewrite H2.
Qed.

Lemma load_agree w1 w o :
  w_heap w1 o = w_heap w o ->
  w_heap w1 (owner w o) = w_heap w (owner w o) ->
  load w1 o = load w o.
Proof.
  intros H1 H2. unfold load. rewrite (obj_items_agree _ _ _ H1 H2), H1. reflexivity.
Qed.

Lemma owner_agree w1 w o : w_heap w1 o = w_heap w o -> owner w1 o = owner w o.
Proof. unfold owner. now intros ->. Qed.

Lemma map_nth_seq (l : list scalar) d :
  map (fun i => nth i l d) (seq 0 (List.length l)) = l.
Proof.
  apply nth_ext with (d := d) (d' := d).
  - now rewrite length_map, length_seq.
  - intros n Hn. rewrite length_map, length_seq in Hn.
    rewrite (nth_indep _ d (nth 0 l d)) by (now rewrite length_map, length_seq).
    rewrite (map_nth (fun i => nth i l d) (seq 0 (List.length l)) 0 n).
    now rewrite seq_nth.
Qed.

Lemma forallb_eq {A} (f g : A -> bool) l :
  (forall x, In x l -> f x = g x) -> forallb f l = forallb g l.
Proof.
  intros H. induction l as [|x l IH]; simpl; [reflexivity|].
  rewrite H by now left. rewrite IH; [reflexivity|].
  intros y Hy. apply H. now right.
Qed.

Lemma separated_agree w1 w data_in todo :
  (forall p, view_of w1 p = view_of w p) ->
  separated w1 data_in todo = separated w data_in todo.
Proof.
  intros H. induction todo as [|e rest IH]; simpl; [reflexivity|].
  rewrite IH. f_equal. apply forallb_eq. intros e' _.
  unfold independent. rewrite (@untouched_by_agree w1 w _ _ H).
  destruct (dict_get (fst e') data_in); [|reflexivity].
  now rewrite (@untouched_by_agree w1 w _ _ H).
Qed.

Section DictProperties.

Variable fpow : float -> float -> float.

(** The right-hand side of line 75, read at a position of an array it is
    assigned to. *)
Lemma scaled_bget z_in z_out y e zfactor rhs shp k :
  wf_array z_in -> wf_array z_out ->
  zfactor_of z_in z_out = Some zfactor ->
  scaled fpow y zfactor e = Some rhs ->
  assignable_to (shape rhs) shp = true -> k < size shp ->
  bget rhs shp k = SF (formula fpow z_in z_out y e shp k).
Proof.
  intros Hwi Hwo Ezf Er Hb Hk. unfold zfactor_of in Ezf. unfold scaled in Er.
  destruct (broadcast_op_shape _ _ _ Ezf) as [Hszf Hwzf].
  destruct (broadcast_op_shape _ _ _ Er) as [Hsr _].
  destruct (broadcast_shape_bto _ _ Hszf) as [Hbo Hbi]. simpl in Hbo, Hbi.
  destruct (broadcast_shape_bto _ _ Hsr) as [_ Hbz]. simpl in Hbz.
  assert (Hz : assignable_to (shape zfactor) shp = true)
    by eauto using broadcastable_assignable_trans.
  rewrite (bget_broadcast_op _ _ _ _ Er) by auto.
  rewrite bget_scalar_op by auto.
  rewrite (bget_broadcast_op _ _ _ _ Ezf) by auto.
  rewrite !bget_scalar_op by eauto using broadcastable_assignable_trans.
  reflexivity.
Qed.

(** One entry of [data_out]: a failure writes nothing. *)
Lemma fill_entry_failure zfactor data_in exponent name out w e w' :
  fill_entry fpow zfactor data_in exponent name out w = (Err e, w') ->
  w' = w /\ (e = KeyError name \/ e = OperandsError \/ e = IndexError).
Proof.
  unfold fill_entry, bind, lift, ret, raise.
  destruct (negb _); destruct (dict_get name data_in) as [src|];
    try (intros [= <- <-]; now auto).
  - destruct (scaled _ _ _ _); [|intros [= <- <-]; now auto].
    intros H. apply assign_err in H as [-> H]. tauto.
  - destruct (negb _); [|discriminate].
    intros H. apply assign_err in H as [-> H]. tauto.
Qed.

(** One entry writes through its output array or not at all. *)
Lemma fill_entry_world zfactor data_in exponent name out w r w' :
  fill_entry fpow zfactor data_in exponent name out w = (r, w') ->
  w' = w \/ exists vals, w' = set_items w out vals.
Proof.
  unfold fill_entry, bind, lift, ret, raise.
  destruct (negb _); destruct (dict_get name data_in) as [src|];
    try (intros [= _ <-]; now left).
  - destruct (scaled _ _ _ _); [|intros [= _ <-]; now left].
    rewrite assign_run.
    destruct (has_dims _); [|intros [= _ <-]; now left].
    destruct (assignable_to _ _); intros [= _ <-]; eauto.
  - destruct (negb _); [|intros [= _ <-]; now left].
    rewrite assign_run.
    destruct (has_dims _); [|intros [= _ <-]; now left].
    destruct (assignable_to _ _); intros [= _ <-]; eauto.
Qed.

(** One entry of [data_out]: a success writes through [out] what the
    specification expects. *)
Lemma fill_entry_success z_in z_out zfactor data_in exponent name out w w' :
  wf_array z_in -> wf_array z_out ->
  zfactor_of z_in z_out = Some zfactor ->
  entry_ok w data_in (name, out) = true ->
  fill_entry fpow zfactor data_in exponent name out w = (OK tt, w') ->
  exists src,
    dict_get name data_in = Some src
    /\ forall k, k < size (a_shape (w_heap w out)) ->
         nth k (obj_items w' out) (SI 0)
         = expected fpow w z_in z_out exponent name src out k.
Proof.
  intros Hwi Hwo Ezf Hok. unfold entry_ok in Hok. simpl in Hok.
  destruct (dict_get name data_in) as [src|] eqn:Esrc; [|discriminate].
  apply andb_true_iff in Hok as [Hwr Hview].
  unfold fill_entry, expected, bind, lift, ret, raise. rewrite Esrc.
  set (n := match dict_get name exponent with Some n => n | None => 0%Z end).
  destruct (n =? 0)%Z eqn:En; cbn [negb].
  - (* zero exponent *)
    destruct (base_of w out) as [b|] eqn:Eb.
    + destruct (Nat.eqb_spec b src) as [->|Hne]; cbn [negb].
      * (* direct view of the input: nothing is copied *)
        intros [= <-]. exists src. split; [reflexivity|].
        intros k Hk. unfold identity_view in Hview.
        unfold base_of in Eb. unfold writable in Hwr.
        destruct (a_store (w_heap w out)) as [|b m] eqn:Eo; [discriminate|].
        injection Eb as ->.
        destruct (a_store (w_heap w src)) as [buf|] eqn:Es; [|discriminate].
        rewrite !andb_true_iff in Hview. destruct Hview as [[[Hm Hsh] Hdt] Hty].
        unfold nat_list_eqb in Hm.
        destruct (list_eq_dec Nat.eq_dec m (seq 0 (List.length buf))) as [->|];
          [|discriminate].
        apply shape_eqb_eq in Hsh. apply dtype_eqb_eq in Hdt.
        rewrite !andb_true_iff in Hwr. destruct Hwr as [_ Hlen].
        apply Nat.eqb_eq in Hlen. rewrite length_seq in Hlen.
        assert (Hitems : obj_items w out = buf).
        { unfold obj_items, buffer_of. rewrite Eo, Es. apply map_nth_seq. }
        assert (Hload : obj_items w src = buf).
        { unfold obj_items. now rewrite Es. }
        rewrite Hitems, Hsh.
        replace (bget (load w src) (a_shape (w_heap w src)) k) with (nth k buf (SI 0)).
        2:{ symmetry. rewrite <- Hload. apply (bget_self (load w src)). simpl.
            now rewrite <- Hsh. }
        symmetry. apply cast_same. rewrite Hdt.
        rewrite forallb_forall in Hty. apply Hty. apply nth_In. lia.
      * intros H. apply assign_ok in H as (_ & _ & ->). exists src.
        split; [reflexivity|].
        intros k Hk. rewrite set_items_read by auto using stored_values_length.
        unfold stored_values. now rewrite nth_map_seq.
    + cbn [negb]. intros H. apply assign_ok in H as (_ & _ & ->). exists src.
      split; [reflexivity|].
      intros k Hk. rewrite set_items_read by auto using stored_values_length.
      unfold stored_values. now rewrite nth_map_seq.
  - (* non-zero exponent *)
    destruct (scaled fpow (load w src) zfactor (Z2F n)) as [rhs|] eqn:Er;
      [|discriminate].
    intros H. apply assign_ok in H as (_ & Hbc & ->). exists src.
    split; [reflexivity|].
    intros k Hk. rewrite set_items_read by auto using stored_values_length.
    unfold stored_values. rewrite nth_map_seq by auto.
    now rewrite (@scaled_bget z_in z_out (load w src) (Z2F n) zfactor rhs _ k
                   Hwi Hwo Ezf Er Hbc Hk).
Qed.

Lemma entry_ok_writable w data_in e :
  entry_ok w data_in e = true -> writable w (snd e) = true.
Proof.
  unfold entry_ok. destruct (dict_get (fst e) data_in); [|discriminate].
  intros H. now apply andb_true_iff in H as [H _].
Qed.

(** An entry stays ready to be filled while the entries before it are,
    if they are independent of it. *)
Lemma entry_ok_agree w1 w data_in e :
  (forall p, view_of w1 p = view_of w p) ->
  (forall p, a_shape (w_heap w1 p) = a_shape (w_heap w p)) ->
  (forall p, a_dtype (w_heap w1 p) = a_dtype (w_heap w p)) ->
  writable w1 (snd e) = writable w (snd e) ->
  (forall src, dict_get (fst e) data_in = Some src -> load w1 src = load w src) ->
  entry_ok w1 data_in e = entry_ok w data_in e.
Proof.
  intros Hv Hs Hd Hw Hl. unfold entry_ok.
  destruct (dict_get (fst e) data_in) as [src|]; [|reflexivity].
  rewrite Hw, !base_of_view_of, Hv. f_equal.
  destruct (option_map fst (view_of w (snd e))) as [b|]; [|reflexivity].
  destruct (b =? src); [|reflexivity].
  apply identity_view_agree; auto.
Qed.

Lemma expected_agree w1 w z_in z_out exponent name src out k :
  load w1 src = load w src ->
  a_shape (w_heap w1 out) = a_shape (w_heap w out) ->
  a_dtype (w_heap w1 out) = a_dtype (w_heap w out) ->
  expected fpow w1 z_in z_out exponent name src out k
  = expected fpow w z_in z_out exponent name src out k.
Proof. intros Hl Hs Hd. unfold expected. now rewrite Hl, Hs, Hd. Qed.

(** The loop over [data_out], for dictionaries whose arrays do not
    interfere: every array keeps its shape and its element type, an array
    that no write reaches reads as before, and every entry holds what the
    specification expects. *)
Lemma fill_data_out_success z_in z_out zfactor data_in exponent :
  wf_array z_in -> wf_array z_out ->
  zfactor_of z_in z_out = Some zfactor ->
  forall todo w w',
    forallb (entry_ok w data_in) todo = true ->
    separated w data_in todo = true ->
    fill_data_out fpow zfactor data_in exponent todo w = (OK tt, w') ->
    (forall p, view_of w' p = view_of w p)
    /\ (forall p, a_shape (w_heap w' p) = a_shape (w_heap w p))
    /\ (forall p, a_dtype (w_heap w' p) = a_dtype (w_heap w p))
    /\ w_stdout w' = w_stdout w
    /\ (forall x, (forall e, In e todo -> untouched_by w (snd e) x = true) ->
                  load w' x = load w x)
    /\ forall name out, In (name, out) todo ->
         exists src,
           dict_get name data_in = Some src
           /\ forall k, k < size (a_shape (w_heap w out)) ->
                nth k (obj_items w' out) (SI 0)
                = expected fpow w z_in z_out exponent name src out k.
Proof.
  intros Hwi Hwo Ezf. induction todo as [|[name out] rest IH]; intros w w' Hok Hsep.
  - simpl. intros [= <-]. repeat split; auto. intros ? ? [].
  - simpl in Hok, Hsep. apply andb_true_iff in Hok as [Hok1 Hok].
    apply andb_true_iff in Hsep as [Hdis Hsep].
    cbn [fill_data_out]. unfold bind.
    destruct (fill_entry fpow zfactor data_in exponent name out w)
      as [[[]|e] w1] eqn:E1; [|discriminate].
    intros Hrest.
    destruct (@fill_entry_success z_in z_out zfactor data_in exponent name out w w1
                Hwi Hwo Ezf Hok1 E1) as (src & Esrc & V1).
    destruct (@write_step w out w1 (entry_ok_writable _ _ _ Hok1)
                (fill_entry_world _ _ _ _ _ _ E1))
      as (Vw1 & Sh1 & Dt1 & Out1 & _ & Fr1 & Wr1).
    rewrite forallb_forall in Hdis.
    assert (Hind : forall e', In e' rest ->
              untouched_by w (snd e') out = true
              /\ forall src', dict_get (fst e') data_in = Some src' ->
                              untouched_by w out src' = true).
    { intros e' He'. specialize (Hdis _ He'). unfold independent in Hdis.
      cbn [fst snd] in Hdis. apply andb_true_iff in Hdis as [H1 H2].
      split; [exact H1|]. intros src' Hs'. now rewrite Hs' in H2. }
    assert (Hok' : forallb (entry_ok w1 data_in) rest = true).
    { rewrite forallb_forall in Hok. apply forallb_forall. intros e' He'.
      destruct (Hind _ He') as [H1 H2].
      rewrite (@entry_ok_agree w1 w data_in e'); auto. }
    assert (Hsep' : separated w1 data_in rest = true)
      by (now rewrite (@separated_agree w1 w data_in rest Vw1)).
    destruct (IH w1 w' Hok' Hsep' Hrest) as (Vw2 & Sh2 & Dt2 & Out2 & Fr2 & V2).
    repeat split.
    + intros p. now rewrite Vw2.
    + intros p. now rewrite Sh2.
    + intros p. now rewrite Dt2.
    + congruence.
    + intros x Hx. rewrite Fr2.
      * apply Fr1. exact (Hx (name, out) (or_introl eq_refl)).
      * intros e' He'. rewrite (@untouched_by_agree w1 w _ _ Vw1).
        apply Hx. now right.
    + intros name' out' [[= <- <-]|Hin].
      * exists src. split; [exact Esrc|]. intros k Hk.
        rewrite <- (V1 k Hk). f_equal.
        assert (Hl : load w' out = load w1 out).
        { apply Fr2. intros e' He'. rewrite (@untouched_by_agree w1 w _ _ Vw1).
          now apply Hind. }
        exact (f_equal items Hl).
      * destruct (V2 _ _ Hin) as (src' & Esrc' & V). exists src'.
        split; [exact Esrc'|]. intros k Hk.
        rewrite V by (now rewrite Sh1).
        destruct (Hind _ Hin) as [_ H2].
        apply expected_agree; auto.
Qed.

Lemma fill_data_out_failure zfactor data_in exponent : forall todo w e w',
  fill_data_out fpow zfactor data_in exponent todo w = (Err e, w') ->
  exists name, e = KeyError name \/ e = OperandsError \/ e = IndexError.
Proof.
  induction todo as [|[name out] rest IH]; intros w e w'; simpl.
  - discriminate.
  - unfold bind.
    destruct (fill_entry fpow zfactor data_in exponent name out w)
      as [[[]|e1] w1] eqn:E1.
    + apply IH.
    + intros [= <- <-]. exists name.
      now destruct (@fill_entry_failure zfactor data_in exponent name out w e1 w1 E1).
Qed.

End DictProperties.

(** ** [redshift] *)

Lemma dict_get_set {V} k (v : V) n : forall d,
  dict_get n (dict_set k v d) = if String.eqb n k then Some v else dict_get n d.
Proof.
  induction d as [|[k' v'] d IH]; simpl.
  - reflexivity.
  - destruct (String.eqb_spec k k') as [->|Hk]; simpl.
    + destruct (String.eqb_spec n k'); reflexivity.
    + rewrite IH. destruct (String.eqb_spec n k') as [->|_]; [|reflexivity].
      destruct (String.eqb_spec k' k); [congruence|reflexivity].
Qed.

Lemma set_items_owner_written w o vals :
  owner (set_items w o vals) (owner w o) = owner w o.
Proof.
  unfold set_items, owner.
  destruct (a_store (w_heap w o)) as [buf|b m] eqn:E; simpl;
    now rewrite upd_same.
Qed.

Section TableProperties.

Variable fpow : float -> float -> float.

(** A successful call of [redshift_array] writes through [y_out], or into
    the array it allocates, and nowhere else; it prints nothing. *)
Lemma redshift_array_frame z_in z_out y_in y_out exponent name w r w' :
  redshift_array fpow z_in z_out y_in y_out exponent name w = (OK r, w') ->
  w_stdout w' = w_stdout w
  /\ match y_out with
     | Some o =>
         r = o /\ w_next w' = w_next w
         /\ exists vals, w' = set_items w o vals
     | None =>
         r = w_next w /\ w_next w' = S (w_next w)
         /\ forall p, p <> w_next w -> w_heap w' p = w_heap w p
     end.
Proof.
  destruct (existsb le_minus_one (items z_in)) eqn:Hzi.
  { unfold redshift_array. rewrite Hzi. discriminate. }
  destruct (existsb le_minus_one (items z_out)) eqn:Hzo.
  { unfold redshift_array. rewrite Hzi, Hzo. discriminate. }
  destruct (is_number (a_dtype (w_heap w y_in))) eqn:Hnum.
  2:{ unfold redshift_array, bind. rewrite Hzi, Hzo. simpl. rewrite Hnum.
      discriminate. }
  destruct (forallb isfinite (obj_items w y_in)) eqn:Hfin.
  2:{ unfold redshift_array, bind. rewrite Hzi, Hzo. simpl. rewrite Hnum, Hfin.
      discriminate. }
  destruct (broadcast_shape3 (shape z_in) (shape z_out) (a_shape (w_heap w y_in)))
    as [s|] eqn:H3.
  2:{ unfold redshift_array, bind, lift. rewrite Hzi, Hzo. simpl.
      rewrite Hnum, Hfin, H3. discriminate. }
  destruct (@redshift_array_run fpow z_in z_out y_in y_out exponent name w s
              Hzi Hzo Hnum Hfin H3) as (rhs & _ & _ & _ & Hrun).
  rewrite Hrun. destruct y_out as [o|].
  - destruct (negb _); [discriminate|]. destruct (negb _); [discriminate|].
    destruct (has_dims s); [|discriminate].
    intros [= <- <-]. rewrite set_items_stdout, set_items_next. eauto.
  - cbv zeta. destruct (has_dims s); [|discriminate]. intros [= <- <-].
    rewrite set_items_stdout, set_items_next. simpl. repeat split.
    intros p Hp. rewrite set_items_frame.
    + simpl. now apply upd_other.
    + unfold owner. simpl. now rewrite upd_same.
Qed.

Lemma asanyarray_pure v w r w' : asanyarray v w = (r, w') -> w' = w.
Proof. unfold asanyarray. destruct v; now intros [= _ <-]. Qed.

Lemma asanyarray_error v w e w' : asanyarray v w = (Err e, w') -> e = TypeError.
Proof. unfold asanyarray. destruct v; now intros [= <- _]. Qed.

(** One column: a failure writes nothing, and leaves the world as it was
    unless it is the [IndexError] of a call that has allocated its output
    array; a success writes through the output column, or into a new array,
    and prints nothing. *)
Lemma redshift_column_failure z_in z_out has_out arrays_out name y_in w e w' :
  redshift_column fpow z_in z_out has_out arrays_out name y_in w = (Err e, w') ->
  w_stdout w' = w_stdout w
  /\ (w' = w
      \/ (has_out = false /\ e = IndexError /\ w_next w' = S (w_next w)
          /\ forall p, p <> w_next w -> w_heap w' p = w_heap w p))
  /\ match e with
     | ConflictingRedshiftSpec _ => False
     | MissingOutputColumn n =>
         n = name /\ has_out = true /\ dict_get name arrays_out = None
     | _ => True
     end.
Proof.
  unfold redshift_column, bind.
  destruct (if negb has_out then _ else _) as [[y_out|e0] w0] eqn:E0.
  2:{ intros [= <- <-]. destruct has_out; cbn [negb] in E0; [|discriminate].
      destruct (dict_get name arrays_out) eqn:Eo; [discriminate|].
      injection E0 as <- <-. auto. }
  assert (Hw0 : w0 = w /\ (has_out = true -> y_out <> None)
                /\ (has_out = false -> y_out = None)).
  { destruct has_out; cbn [negb] in E0.
    - destruct (dict_get name arrays_out); [|discriminate].
      injection E0 as <- <-. repeat split; congruence.
    - injection E0 as <- <-. repeat split; congruence. }
  destruct Hw0 as (-> & Hsome & Hnone). clear E0.
  destruct (asanyarray z_in w) as [[zi|e1] w1] eqn:E1;
    pose proof (asanyarray_pure _ _ E1) as ->.
  2:{ intros [= <- <-]. apply asanyarray_error in E1 as ->. auto. }
  destruct (asanyarray z_out w) as [[zo|e2] w2] eqn:E2;
    pose proof (asanyarray_pure _ _ E2) as ->.
  2:{ intros [= <- <-]. apply asanyarray_error in E2 as ->. auto. }
  intros H. apply redshift_array_failure in H as [[-> He]|[-> Hw]].
  - split; [reflexivity|]. split; [now left|].
    unfold validation_error in He.
    destruct He as [->|[->|[->|[->|[->|[->| ->]]]]]]; exact I.
  - destruct y_out as [o|].
    + subst w'. auto.
    + destruct Hw as (Hs & Hn & Hf). split; [exact Hs|]. split; [|exact I].
      right. destruct has_out; [now destruct Hsome|auto].
Qed.

Lemma redshift_column_success z_in z_out has_out arrays_out name y_in w r w' :
  redshift_column fpow z_in z_out has_out arrays_out name y_in w = (OK r, w') ->
  w_stdout w' = w_stdout w
  /\ if has_out then
       dict_get name arrays_out = Some r /\ exists vals, w' = set_items w r vals
     else
       r = w_next w /\ w_next w' = S (w_next w)
       /\ forall p, p <> w_next w -> w_heap w' p = w_heap w p.
Proof.
  unfold redshift_column, bind.
  destruct has_out; cbn [negb].
  - destruct (dict_get name arrays_out) as [o|] eqn:Eo; unfold ret, raise;
      [|discriminate].
    destruct (asanyarray z_in w) as [[zi|e1] w1] eqn:E1;
      pose proof (asanyarray_pure _ _ E1) as ->; [|discriminate].
    destruct (asanyarray z_out w) as [[zo|e2] w2] eqn:E2;
      pose proof (asanyarray_pure _ _ E2) as ->; [|discriminate].
    intros H. destruct (redshift_array_frame _ _ _ _ _ _ _ H) as (Hs & -> & _ & Hv).
    auto.
  - unfold ret.
    destruct (asanyarray z_in w) as [[zi|e1] w1] eqn:E1;
      pose proof (asanyarray_pure _ _ E1) as ->; [|discriminate].
    destruct (asanyarray z_out w) as [[zo|e2] w2] eqn:E2;
      pose proof (asanyarray_pure _ _ E2) as ->; [|discriminate].
    intros H. now destruct (redshift_array_frame _ _ _ _ _ _ _ H).
Qed.

(** The loop prints nothing and never complains about the options. *)
Lemma redshift_columns_quiet z_in z_out has_out : forall todo arrays_out w r w',
  redshift_columns fpow z_in z_out has_out todo arrays_out w = (r, w') ->
  w_stdout w' = w_stdout w
  /\ match r with Err (ConflictingRedshiftSpec _) => False | _ => True end.
Proof.
  induction todo as [|[name y_in] rest IH]; intros ao w r w'; cbn [redshift_columns].
  - intros [= <- <-]. auto.
  - unfold bind.
    destruct (redshift_column fpow z_in z_out has_out ao name y_in w)
      as [[o|e] w1] eqn:E1.
    + intros H. destruct (IH _ _ _ _ H) as [Hs Hr].
      destruct (redshift_column_success _ _ _ _ _ _ _ E1) as [Hs1 _].
      split; [congruence|exact Hr].
    + intros [= <- <-].
      destruct (redshift_column_failure _ _ _ _ _ _ _ E1) as (Hs & _ & He).
      split; [exact Hs|]. destruct e; auto.
Qed.

(** With [data_out] given, a failure of a column leaves the world as it
    was. *)
Lemma redshift_column_failure_in_place z_in z_out arrays_out name y_in w e w' :
  redshift_column fpow z_in z_out true arrays_out name y_in w = (Err e, w') ->
  w' = w.
Proof.
  intros H. apply redshift_column_failure in H as (_ & [H|(H & _)] & _);
    [exact H|discriminate].
Qed.

(** With [data_out] given, the loop changes the elements that its output
    columns reach and nothing else: an array that no write through such a
    column reaches reads as before. *)
Lemma redshift_columns_untouched z_in z_out x : forall todo arrays_out w r w',
  redshift_columns fpow z_in z_out true todo arrays_out w = (r, w') ->
  (forall n o, In n (keys todo) -> dict_get n arrays_out = Some o ->
               based w o = true /\ untouched_by w o x = true) ->
  load w' x = load w x.
Proof.
  induction todo as [|[name y_in] rest IH]; intros ao w r w'; cbn [redshift_columns].
  - now intros [= _ <-].
  - unfold bind.
    destruct (redshift_column fpow z_in z_out true ao name y_in w)
      as [[o|e] w1] eqn:E1.
    + intros H Hp.
      destruct (redshift_column_success _ _ _ _ _ _ _ E1) as (_ & Eo & vals & ->).
      destruct (Hp name o (or_introl eq_refl) Eo) as [Hb Hu].
      pose proof (fun p => @set_items_view_of w o vals p Hb) as Hv.
      rewrite (IH _ _ _ _ H).
      * now apply set_items_untouched.
      * intros n o' Hn. rewrite dict_get_set.
        rewrite (@based_agree _ w o' Hv), (@untouched_by_agree _ w o' x Hv).
        destruct (String.eqb_spec n name) as [->|Hne].
        -- intros [= <-]. auto.
        -- intros Eo'. exact (Hp n o' (or_intror Hn) Eo').
    + intros [= _ <-] _.
      now rewrite (redshift_column_failure_in_place _ _ _ _ _ _ E1).
Qed.

(** The loop consults [arrays_out] at the names of the input columns
    only. *)
Lemma redshift_columns_agree z_in z_out has_out : forall todo ao ao' w,
  (forall n, In n (keys todo) -> dict_get n ao = dict_get n ao') ->
  snd (redshift_columns fpow z_in z_out has_out todo ao w)
  = snd (redshift_columns fpow z_in z_out has_out todo ao' w)
  /\ same_outcome (fst (redshift_columns fpow z_in z_out has_out todo ao w))
                  (fst (redshift_columns fpow z_in z_out has_out todo ao' w)).
Proof.
  induction todo as [|[name y_in] rest IH]; intros ao ao' w Hag;
    cbn [redshift_columns].
  - simpl. auto.
  - assert (Hstep : redshift_column fpow z_in z_out has_out ao name y_in w
                    = redshift_column fpow z_in z_out has_out ao' name y_in w).
    { unfold redshift_column. now rewrite (Hag name (or_introl eq_refl)). }
    unfold bind. rewrite Hstep.
    destruct (redshift_column fpow z_in z_out has_out ao' name y_in w)
      as [[o|e] w1]; [|simpl; auto].
    apply IH. intros n Hn. rewrite !dict_get_set.
    destruct (String.eqb n name); [reflexivity|]. apply Hag. now right.
Qed.

(** The loop stops at the first input column that [data_out] lacks, with
    the world the columns before it have left. *)
Lemma redshift_columns_missing z_in z_out name y_in post : forall pre ao w ao1 w1,
  ~ In name (keys pre) ->
  dict_get name ao = None ->
  redshift_columns fpow z_in z_out true pre ao w = (OK ao1, w1) ->
  redshift_columns fpow z_in z_out true (pre ++ (name, y_in) :: post) ao w
  = (Err (MissingOutputColumn name), w1).
Proof.
  induction pre as [|[n y] pre IH]; intros ao w ao1 w1 Hnot Hget;
    cbn [redshift_columns app].
  - intros [= <- <-]. unfold bind, redshift_column, raise.
    cbn [negb]. now rewrite Hget.
  - unfold bind.
    destruct (redshift_column fpow z_in z_out true ao n y w) as [[o|e] w2];
      [|discriminate].
    apply IH.
    + intros H. apply Hnot. now right.
    + rewrite dict_get_set. destruct (String.eqb_spec name n) as [->|_]; auto.
      exfalso. apply Hnot. now left.
Qed.

End TableProperties.

Section CallProperties.

Variable fpow : float -> float -> float.

(** [redshift] is the resolution of its options followed by lines 240-271. *)
Lemma redshift_unfold args kwargs w :
  redshift fpow args kwargs w =
    if conflicting kwargs then
      (Err (ConflictingRedshiftSpec
              (if negb (is_none (kwarg kwargs "z")) then CombineZ else MustBoth)), w)
    else
      redshift_resolved fpow (resolved_z_in kwargs) (resolved_z_out kwargs)
        (kwarg kwargs "data_out") args (column_kwargs kwargs) w.
Proof.
  unfold redshift, conflicting, resolved_z_in, resolved_z_out, column_kwargs,
    get_options, option_of, kwarg. cbn [fst snd map dict_get String.eqb Ascii.eqb
    Bool.eqb].
  destruct (negb (is_none match dict_get "z" kwargs with
                          | Some v => v | None => PyNone end)).
  - destruct (_ || _); reflexivity.
  - destruct (_ || _); reflexivity.
Qed.

Lemma prepare_data_read_only_pure args kwargs w r w' :
  prepare_data_read_only args kwargs w = (r, w') ->
  w' = w /\ match r with
            | OK (arrays_in, _) => nodup_keys (keys arrays_in) = true
            | Err e => e = AdapterError
            end.
Proof.
  unfold prepare_data_read_only, ret, raise.
  destruct (columns_of_args args) as [c1|]; [|now intros [= <- <-]].
  destruct (columns_of_kwargs kwargs) as [c2|]; [|now intros [= <- <-]].
  destruct (nodup_keys (keys (c1 ++ c2))) eqn:E; now intros [= <- <-].
Qed.

(** Lines 240-271 when [data_out] is a table [t]. *)
Lemma redshift_resolved_with_out z_in z_out t args kwargs w arrays_in d :
  prepare_data_read_only args kwargs w = (OK (arrays_in, d), w) ->
  redshift_resolved fpow z_in z_out (PyTab t) args kwargs w =
    match redshift_columns fpow z_in z_out true arrays_in t w with
    | (OK _, w1) =>
        (OK (PyTab t),
         mk_world (w_heap w1) (w_next w1) (w_stdout w1 ++ debug_lines))
    | (Err e, w1) => (Err e, w1)
    end.
Proof.
  intros Hp. unfold redshift_resolved, bind. rewrite Hp.
  cbn [is_none negb prepare_data_in_place ret].
  destruct (redshift_columns fpow z_in z_out true arrays_in t w) as [[ao|e] w1];
    [|reflexivity].
  unfold print, ret. cbn [w_heap w_next w_stdout].
  now rewrite <- !app_assoc.
Qed.

(** Lines 240-271 never complain about the options; when they return,
    exactly the three lines of lines 267-269 have been printed. *)
Lemma redshift_resolved_outcome z_in z_out data_out args kwargs w r w' :
  redshift_resolved fpow z_in z_out data_out args kwargs w = (r, w') ->
  match r with
  | OK _ => w_stdout w' = w_stdout w ++ debug_lines
  | Err (ConflictingRedshiftSpec _) => False
  | Err _ => w_stdout w' = w_stdout w
  end.
Proof.
  unfold redshift_resolved, bind.
  destruct (prepare_data_read_only args kwargs w) as [[[arrays_in d]|e] w0] eqn:Hp;
    destruct (prepare_data_read_only_pure _ _ _ Hp) as [-> Hr].
  2:{ intros [= <- <-]. now subst e. }
  destruct (negb (is_none data_out)) eqn:Hout.
  - unfold prepare_data_in_place.
    destruct data_out as [| | |t]; unfold raise, ret; try (now intros [= <- <-]).
    cbn [is_none negb].
    destruct (redshift_columns fpow z_in z_out true arrays_in t w) as [[ao|e] w1] eqn:Hc;
      destruct (redshift_columns_quiet _ _ _ _ _ _ _ Hc) as [Hs Hq].
    + unfold print, ret. cbn. intros [= <- <-]. cbn.
      now rewrite <- !app_assoc, Hs.
    + intros [= <- <-]. destruct e; auto.
  - unfold ret. cbn [is_none negb].
    destruct (redshift_columns fpow z_in z_out false arrays_in [] w) as [[ao|e] w1] eqn:Hc;
      destruct (redshift_columns_quiet _ _ _ _ _ _ _ Hc) as [Hs Hq].
    + unfold tabular_like, print, ret. cbn. intros [= <- <-]. cbn.
      now rewrite <- !app_assoc, Hs.
    + intros [= <- <-]. destruct e; auto.
Qed.

End CallProperties.

(* ================================================================== *)
(** * The claims of the specification *)

(** ** The exponent registry *)

(** C2 (counterexample).  The table does not hold 11 names: it holds 12
    distinct ones. *)
Lemma exponents_has_twelve_names :
  List.length (keys exponents) = 12
  /\ nodup_keys (keys exponents) = true
  /\ Nat.eqb (List.length (keys exponents)) 11 = false.
Proof. repeat split. Qed.

(** C2 (amended).  The registry defines exactly 12 names: the three
    wavelength-like names map to +1, the three frequency-like names to -1,
    flux and irradiance per wavelength to -1, irradiance per frequency to
    +1, the inverse variances of wavelength-like and per-wavelength
    quantities to +2, that of irradiance per frequency to -2.  Every other
    name is absent, and [redshift_array] then works with the exponent 0. *)
Theorem exponents_registry :
  keys exponents
  = ["wlen"; "wavelength"; "wavelength_error";
     "freq"; "frequency"; "frequency_error";
     "flux"; "irradiance_per_wavelength"; "irradiance_per_frequency";
     "ivar"; "ivar_irradiance_per_wavelength";
     "ivar_irradiance_per_frequency"]%string
  /\ nodup_keys (keys exponents) = true
  /\ (forall name,
        In name ["wlen"; "wavelength"; "wavelength_error";
                 "irradiance_per_frequency"]%string ->
        dict_get name exponents = Some 1%Z)
  /\ (forall name,
        In name ["freq"; "frequency"; "frequency_error";
                 "flux"; "irradiance_per_wavelength"]%string ->
        dict_get name exponents = Some (-1)%Z)
  /\ (forall name,
        In name ["ivar"; "ivar_irradiance_per_wavelength"]%string ->
        dict_get name exponents = Some 2%Z)
  /\ dict_get "ivar_irradiance_per_frequency"%string exponents = Some (-2)%Z
  /\ (forall name, ~ In name (keys exponents) -> dict_get name exponents = None)
  /\ (forall fpow z_in z_out y_in y_out name w,
        dict_get name exponents = None ->
        redshift_array fpow z_in z_out y_in y_out None name w
        = redshift_array fpow z_in z_out y_in y_out (Some 0%float) name w).
Proof.
  repeat split.
  - intros name H. simpl in H.
    repeat (destruct H as [<-|H]; [reflexivity|]). contradiction.
  - intros name H. simpl in H.
    repeat (destruct H as [<-|H]; [reflexivity|]). contradiction.
  - intros name H. simpl in H.
    repeat (destruct H as [<-|H]; [reflexivity|]). contradiction.
  - intros name H. unfold exponents in *. cbn [keys map fst In] in H.
    cbn [dict_get].
    repeat match goal with
           | |- context [String.eqb name ?k] =>
               destruct (String.eqb_spec name k) as [->|_]; [exfalso; tauto|]
           end.
    reflexivity.
  - intros fpow z_in z_out y_in y_out name w H.
    unfold redshift_array, resolve_exponent. now rewrite H.
Qed.

(** ** The single-array transformer *)

(** C1 (counterexample).  For an integer [y_in] the result is not the
    formula: [redshift_array(1, 0, [3], exponent=1)] holds the integer 1,
    where [3 * ((1 + 0) / (1 + 1)) ** 1] is 1.5. *)
Lemma redshift_array_truncates_integers :
  let run := redshift_array pow_ref (scalar_int 1) (scalar_int 0) 0 None
               (Some 1%float) "y" w_counts in
  fst run = OK 1
  /\ load (snd run) 1 = mk_ndarray Int64 [1] [SI 1]
  /\ formula pow_ref (scalar_int 1) (scalar_int 0) (load w_counts 0) 1 [1] 0
     = 1.5%float
  /\ PrimFloat.eqb (to_float (SI 1)) 1.5 = false.
Proof. vm_compute. repeat split. Qed.

(** C1 (amended).  For every call of [redshift_array] in which every
    element of [z_in] and [z_out] is [> -1], [y_in] is numeric and finite and
    the three shapes broadcast to [s]: the array that the call returns has
    the shape [s], the element type of [y_in], and at every position the
    value [y_in * ((1 + z_out) / (1 + z_in)) ** e] converted to that element
    type (exact for float64, truncated toward zero for integers), where [e]
    is the exponent supplied, else the registry entry of [name], else 0.
    The product and the power are evaluated also when [e] is 0.  The call
    does return when [s] has at least one dimension and [y_out] is omitted
    or has the shape [s] and the element type of [y_in]. *)
Theorem redshift_array_computes_formula
    fpow z_in z_out y_in y_out exponent name w s :
  forallb gt_minus_one (items z_in) = true ->
  forallb gt_minus_one (items z_out) = true ->
  is_number (a_dtype (w_heap w y_in)) = true ->
  forallb isfinite (obj_items w y_in) = true ->
  wf_array z_in -> wf_array z_out ->
  broadcast_shape3 (shape z_in) (shape z_out) (a_shape (w_heap w y_in)) = Some s ->
  match y_out with None => True | Some o => writable w o = true end ->
  let e := match exponent with
           | Some e => e
           | None => match dict_get name exponents with
                     | Some n => Z2F n
                     | None => 0%float
                     end
           end in
  (s <> [] ->
   match y_out with
   | None => True
   | Some o => a_shape (w_heap w o) = s
               /\ a_dtype (w_heap w o) = a_dtype (w_heap w y_in)
   end ->
   exists r w',
     redshift_array fpow z_in z_out y_in y_out exponent name w = (OK r, w'))
  /\
  forall r w',
    redshift_array fpow z_in z_out y_in y_out exponent name w = (OK r, w') ->
    a_shape (w_heap w' r) = s
    /\ a_dtype (w_heap w' r) = a_dtype (w_heap w y_in)
    /\ List.length (obj_items w' r) = size s
    /\ forall k, k < size s ->
         nth k (obj_items w' r) (SI 0)
         = cast (a_dtype (w_heap w y_in))
             (SF (formula fpow z_in z_out (load w y_in) e s k)).
Proof.
  intros Hzi Hzo Hnum Hfin Hwi Hwo H3 Hout e.
  assert (He : e = resolve_exponent exponent name).
  { subst e. unfold resolve_exponent. destruct exponent; [reflexivity|].
    now destruct (dict_get name exponents). }
  rewrite He.
  destruct (@redshift_array_result fpow z_in z_out y_in y_out exponent name w s
              (valid_redshift_passes _ Hzi) (valid_redshift_passes _ Hzo)
              Hnum Hfin Hwi Hwo H3 Hout) as [Hex Hall].
  split; [|exact Hall].
  intros Hdims. apply Hex. destruct s; [contradiction|reflexivity].
Qed.

Lemma redshift_array_computes_formula_witness :
  exists r w',
    redshift_array pow_ref (scalar_int 0) (scalar_int 1) 1 None None "flux"
      w_spectrum = (OK r, w')
    /\ a_shape (w_heap w' r) = [3]
    /\ nth 2 (obj_items w' r) (SI 0) = SF 0.5.
Proof.
  destruct (@redshift_array_computes_formula pow_ref (scalar_int 0)
              (scalar_int 1) 1 None None "flux" w_spectrum [3]
              eq_refl eq_refl eq_refl eq_refl eq_refl eq_refl eq_refl I)
    as [Hex Hall].
  destruct (Hex ltac:(discriminate) I) as (r & w' & Hrun). exists r, w'.
  destruct (Hall r w' Hrun) as (Hs & _ & _ & Hv).
  split; [exact Hrun|]. split; [exact Hs|].
  rewrite (Hv 2) by (simpl; lia). vm_compute. reflexivity.
Defined.

(** C3 (counterexample).  With exponent 0 the integer 2^53 + 1 comes back
    as 2^53: the value goes through float64 on its way. *)
Lemma redshift_array_zero_exponent_rounds :
  let run := redshift_array pow_ref (scalar_int 0) (scalar_int 1) 0 None
               (Some 0%float) "y" w_big in
  fst run = OK 1
  /\ load (snd run) 1 = mk_ndarray Int64 [1] [SI 9007199254740992]
  /\ load w_big 0 = mk_ndarray Int64 [1] [SI 9007199254740993].
Proof. vm_compute. repeat split. Qed.

(** C3 (amended).  For [z_in] and [z_out] all [> -1], a numeric, finite
    [y_in] and the exponent 0, every element of the array that
    [redshift_array] returns equals the corresponding broadcast element of
    [y_in] exactly, provided [pow(x, 0)] is 1, for a float64 [y_in] and for
    an int64 [y_in] whose elements are binary64 numbers: the integers of at
    most 53 significant bits, among which are all those up to 2^53 in
    magnitude (an int64 of more significant bits goes through float64 and
    comes back rounded). *)
Theorem redshift_array_zero_exponent
    fpow z_in z_out y_in y_out exponent name w s :
  forallb gt_minus_one (items z_in) = true ->
  forallb gt_minus_one (items z_out) = true ->
  is_number (a_dtype (w_heap w y_in)) = true ->
  forallb isfinite (obj_items w y_in) = true ->
  wf_array z_in -> wf_array z_out -> wf_array (load w y_in) ->
  forallb (has_dtype (a_dtype (w_heap w y_in))) (obj_items w y_in) = true ->
  forallb exact_in_float (obj_items w y_in) = true ->
  broadcast_shape3 (shape z_in) (shape z_out) (a_shape (w_heap w y_in)) = Some s ->
  match y_out with None => True | Some o => writable w o = true end ->
  resolve_exponent exponent name = 0%float ->
  (forall x, fpow x 0%float = 1%float) ->
  forall r w',
    redshift_array fpow z_in z_out y_in y_out exponent name w = (OK r, w') ->
    a_shape (w_heap w' r) = s
    /\ forall k, k < size s ->
         nth k (obj_items w' r) (SI 0) = bget (load w y_in) s k.
Proof.
  intros Hzi Hzo Hnum Hfin Hwi Hwo Hwy Hty Hex H3 Hout He Hpow r w' Hrun.
  destruct (@redshift_array_result fpow z_in z_out y_in y_out exponent name w s
              (valid_redshift_passes _ Hzi) (valid_redshift_passes _ Hzo)
              Hnum Hfin Hwi Hwo H3 Hout) as [_ Hall].
  destruct (Hall r w' Hrun) as (Hs & _ & _ & Hv). split; [exact Hs|].
  intros k Hk. rewrite (Hv k Hk), He. unfold formula. rewrite Hpow.
  assert (Hin : In (bget (load w y_in) s k) (obj_items w y_in)).
  { unfold bget. apply nth_In. simpl. rewrite Hwy. simpl.
    destruct (broadcast_shape3_bto _ _ _ H3) as (_ & _ & Hby).
    rewrite <- (size_rev (a_shape (w_heap w y_in))).
    apply bidx_lt; [exact Hby|now rewrite size_rev]. }
  rewrite forallb_forall in Hty, Hex.
  apply cast_through_float; auto.
Qed.

Lemma redshift_array_zero_exponent_witness :
  exists r w',
    redshift_array pow_ref (scalar_float 0.5) (scalar_int 1) 0 None None "counts"
      (world_of [vector_int [3; -9223372036854775808; 9007199254740992]%Z])
    = (OK r, w')
    /\ a_shape (w_heap w' r) = [3]
    /\ nth 1 (obj_items w' r) (SI 0) = SI (-9223372036854775808).
Proof.
  assert (Hrun : exists r w',
            redshift_array pow_ref (scalar_float 0.5) (scalar_int 1) 0 None None
              "counts"
              (world_of [vector_int [3; -9223372036854775808; 9007199254740992]%Z])
            = (OK r, w'))
    by (eexists; eexists; vm_compute; reflexivity).
  destruct Hrun as (r & w' & Hrun). exists r, w'. split; [exact Hrun|].
  destruct (@redshift_array_zero_exponent pow_ref (scalar_float 0.5)
              (scalar_int 1) 0 None None "counts"
              (world_of [vector_int [3; -9223372036854775808; 9007199254740992]%Z])
              [3]
              eq_refl eq_refl eq_refl eq_refl eq_refl eq_refl eq_refl eq_refl
              eq_refl eq_refl I
              eq_refl (fun x => eq_refl) r w' Hrun) as [Hs Hv].
  split; [exact Hs|]. rewrite (Hv 1) by (simpl; lia). reflexivity.
Defined.

(** C9.  Whenever [redshift_array] raises one of its six validation
    errors (invalid redshift, non-numeric input, non-finite input,
    broadcast failure, wrong output shape, wrong output dtype), the world
    is the one before the call: no array, the [y_out] of the caller
    included, has been written, because every check precedes the single
    assignment of line 163.  The only other error of the function is the
    [IndexError] of that assignment on an output without dimensions; it
    too leaves the [y_out] of the caller, and every array that existed
    before the call, as they were. *)
Theorem redshift_array_error_writes_nothing
    fpow z_in z_out y_in y_out exponent name w e w' :
  redshift_array fpow z_in z_out y_in y_out exponent name w = (Err e, w') ->
  (validation_error name e \/ e = IndexError)
  /\ (validation_error name e -> w' = w)
  /\ (forall o, y_out = Some o -> w' = w)
  /\ (forall o, allocated w o = true -> load w' o = load w o).
Proof.
  intros H. apply redshift_array_failure in H as [[-> He]|[-> Hw]].
  - repeat split; auto.
  - split; [now right|]. split.
    { unfold validation_error.
      intros [H|[H|[H|[H|[H|[H|H]]]]]]; discriminate. }
    split.
    + intros o ->. exact Hw.
    + intros o Ho. destruct y_out as [o'|]; [now subst w'|].
      destruct Hw as (_ & _ & Hf).
      unfold allocated in Ho. apply andb_true_iff in Ho as [H1 H2].
      apply Nat.ltb_lt in H1, H2.
      apply load_agree; apply Hf; lia.
Qed.

Lemma redshift_array_error_writes_nothing_witness :
  let run := redshift_array pow_ref (scalar_int 0) (scalar_int 1) 0 (Some 1)
               None "wlen" (world_of [vector_float [1; 2]%float;
                                       vector_float [9]%float]) in
  fst run = Err (ShapeMismatch "wlen")
  /\ snd run = world_of [vector_float [1; 2]%float; vector_float [9]%float]
  /\ load (snd run) 1 = mk_ndarray Float64 [1] [SF 9].
Proof.
  cbv zeta.
  destruct (redshift_array pow_ref (scalar_int 0) (scalar_int 1) 0 (Some 1)
              None "wlen" (world_of [vector_float [1; 2]%float;
                                      vector_float [9]%float]))
    as [r w'] eqn:Hrun.
  assert (Hr : r = Err (ShapeMismatch "wlen")).
  { apply (f_equal fst) in Hrun. vm_compute in Hrun. now symmetry. }
  subst r.
  destruct (redshift_array_error_writes_nothing _ _ _ _ _ _ _ _ Hrun)
    as (_ & Hval & _ & Hload).
  cbn [fst snd]. split; [reflexivity|].
  rewrite (Hval ltac:(unfold validation_error; tauto)).
  split; reflexivity.
Defined.

(** C5.  [redshift_array] and [apply_redshift_transform] raise
    [InvalidRedshift] if and only if some element of [z_in] or [z_out] is
    [<= -1].  Each bound is tested by itself, [z_in] first, before anything
    else: whatever [y_in], [y_out] or the dictionaries are, the call then
    fails with this error and the world it leaves is the one it found. *)
Theorem invalid_redshift_checked_first fpow z_in z_out :
  let bad_in := existsb le_minus_one (items z_in) in
  let bad_out := existsb le_minus_one (items z_out) in
  (forall y_in y_out exponent name w,
     (bad_in = true ->
      redshift_array fpow z_in z_out y_in y_out exponent name w
      = (Err (InvalidRedshift Zin), w))
     /\ (bad_in = false -> bad_out = true ->
         redshift_array fpow z_in z_out y_in y_out exponent name w
         = (Err (InvalidRedshift Zout), w))
     /\ (forall which w',
           redshift_array fpow z_in z_out y_in y_out exponent name w
           = (Err (InvalidRedshift which), w') ->
           bad_in || bad_out = true))
  /\
  (forall data_in data_out exponent w,
     (bad_in = true ->
      apply_redshift_transform fpow z_in z_out data_in data_out exponent w
      = (Err (InvalidRedshift Zin), w))
     /\ (bad_in = false -> bad_out = true ->
         apply_redshift_transform fpow z_in z_out data_in data_out exponent w
         = (Err (InvalidRedshift Zout), w))
     /\ (forall which w',
           apply_redshift_transform fpow z_in z_out data_in data_out exponent w
           = (Err (InvalidRedshift which), w') ->
           bad_in || bad_out = true)).
Proof.
  cbv zeta. split.
  - intros y_in y_out exponent name w. repeat split.
    + intros H. unfold redshift_array. now rewrite H.
    + intros H1 H2. unfold redshift_array. now rewrite H1, H2.
    + intros which w'.
      destruct (existsb le_minus_one (items z_in)) eqn:Hzi; [reflexivity|].
      destruct (existsb le_minus_one (items z_out)) eqn:Hzo; [reflexivity|].
      intros H. exfalso. revert H.
      destruct (is_number (a_dtype (w_heap w y_in))) eqn:Hnum.
      2:{ unfold redshift_array, bind. rewrite Hzi, Hzo. simpl. rewrite Hnum.
          discriminate. }
      destruct (forallb isfinite (obj_items w y_in)) eqn:Hfin.
      2:{ unfold redshift_array, bind. rewrite Hzi, Hzo. simpl.
          rewrite Hnum, Hfin. discriminate. }
      destruct (broadcast_shape3 (shape z_in) (shape z_out)
                  (a_shape (w_heap w y_in))) as [s|] eqn:H3.
      2:{ unfold redshift_array, bind, lift. rewrite Hzi, Hzo. simpl.
          rewrite Hnum, Hfin, H3. discriminate. }
      destruct (@redshift_array_run fpow z_in z_out y_in y_out exponent name w s
                  Hzi Hzo Hnum Hfin H3) as (rhs & _ & _ & _ & Hrun).
      rewrite Hrun. destruct y_out as [o|].
      * destruct (negb _); [discriminate|]. destruct (negb _); [discriminate|].
        destruct (has_dims s); discriminate.
      * cbv zeta. destruct (has_dims s); discriminate.
  - intros data_in data_out exponent w. repeat split.
    + intros H. unfold apply_redshift_transform. now rewrite H.
    + intros H1 H2. unfold apply_redshift_transform. now rewrite H1, H2.
    + intros which w'. unfold apply_redshift_transform.
      destruct (existsb le_minus_one (items z_in)); [reflexivity|].
      destruct (existsb le_minus_one (items z_out)); [reflexivity|].
      unfold bind, lift. destruct (zfactor_of z_in z_out) as [zf|];
        [|discriminate].
      unfold ret at 1.
      destruct (fill_data_out fpow zf data_in exponent data_out w)
        as [[[]|e] w1] eqn:Hfill; [discriminate|].
      intros [= -> <-].
      destruct (fill_data_out_failure _ _ _ _ _ _ Hfill) as (n & [H|[H|H]]);
        discriminate.
Qed.

(** ** The bulk dictionary transformer *)

(** C6 (counterexample).  [data_out['x']] is the reversed view [a[::-1]] of
    [data_in['x'] = a = [1, 2, 3]] and [x] has no exponent: [.base] is [a],
    the copy is skipped, and [data_out['x']] reads [3, 2, 1].  And an
    integer array [[3]] transformed in place with exponent 1 from redshift
    1 to redshift 0 holds 1, where [3 * 0.5] is 1.5. *)
Lemma apply_redshift_transform_skips_reversed_view :
  let run := apply_redshift_transform pow_ref (scalar_int 0) (scalar_int 1)
               [("x", 0)]%string [("x", 1)]%string [] w_reversed in
  let run' := apply_redshift_transform pow_ref (scalar_int 1) (scalar_int 0)
                [("counts", 0)]%string [("counts", 0)]%string
                [("counts", 1%Z)]%string w_counts in
  fst run = OK [("x", 1)]%string
  /\ load (snd run) 1 = mk_ndarray Float64 [3] [SF 3; SF 2; SF 1]
  /\ load (snd run) 0 = mk_ndarray Float64 [3] [SF 1; SF 2; SF 3]
  /\ fst run' = OK [("counts", 0)]%string
  /\ load w_counts 0 = mk_ndarray Int64 [1] [SI 3]
  /\ load (snd run') 0 = mk_ndarray Int64 [1] [SI 1].
Proof. vm_compute. repeat split. Qed.

(** C6 (amended).  Let the redshifts be valid, every name of [data_out] be
    in [data_in], every array of [data_out] be writable and, when it is a
    direct view of the input array of its name, be the identity view of it,
    and let the entries not spoil each other: no array of [data_out] has an
    element in common with the output array of another name, nor with the
    input array of a name that is filled after it (separate arrays and the
    fields of one structured array are such).  After
    [apply_redshift_transform] returns, the value returned is [data_out],
    and every [data_out[name]] holds, converted to its own element type,
    [data_in[name] * ((1 + z_out) / (1 + z_in)) ** n] for a non-zero
    exponent [n = exponent[name]], and [data_in[name]] itself for a zero or
    unlisted exponent, be the array [data_in[name]] itself, a view of it or
    a separate one. *)
Theorem apply_redshift_transform_fills_data_out
    fpow z_in z_out data_in data_out exponent w r w' :
  forallb gt_minus_one (items z_in) = true ->
  forallb gt_minus_one (items z_out) = true ->
  wf_array z_in -> wf_array z_out ->
  forallb (entry_ok w data_in) data_out = true ->
  separated w data_in data_out = true ->
  apply_redshift_transform fpow z_in z_out data_in data_out exponent w
  = (OK r, w') ->
  r = data_out
  /\ forall name out, In (name, out) data_out ->
       exists src,
         dict_get name data_in = Some src
         /\ a_shape (w_heap w' out) = a_shape (w_heap w out)
         /\ a_dtype (w_heap w' out) = a_dtype (w_heap w out)
         /\ forall k, k < size (a_shape (w_heap w out)) ->
              nth k (obj_items w' out) (SI 0)
              = expected fpow w z_in z_out exponent name src out k.
Proof.
  intros Hzi Hzo Hwi Hwo Hok Hsep.
  unfold apply_redshift_transform.
  rewrite (valid_redshift_passes _ Hzi), (valid_redshift_passes _ Hzo).
  unfold bind, lift.
  destruct (zfactor_of z_in z_out) as [zf|] eqn:Ezf; [|discriminate].
  unfold ret at 1.
  destruct (fill_data_out fpow zf data_in exponent data_out w)
    as [[[]|e] w1] eqn:Hfill; [|discriminate].
  intros [= <- <-]. split; [reflexivity|].
  destruct (@fill_data_out_success fpow z_in z_out zf data_in exponent
              Hwi Hwo Ezf data_out w w1 Hok Hsep Hfill)
    as (_ & Hsh & Hdt & _ & _ & Hv).
  intros name out Hin. destruct (Hv name out Hin) as (src & Esrc & Hk).
  exists src. auto.
Qed.

Lemma apply_redshift_transform_fills_data_out_witness :
  exists r w',
    apply_redshift_transform pow_ref (scalar_int 0) (scalar_int 1)
      [("wlen", 3); ("note", 2)]%string [("wlen", 1); ("note", 2)]%string
      exponents w_record = (OK r, w')
    /\ r = [("wlen", 1); ("note", 2)]%string
    /\ nth 1 (obj_items w' 1) (SI 0) = SF 8002
    /\ nth 1 (obj_items w' 2) (SI 0) = SF 7.
Proof.
  assert (Hrun : exists r w',
            apply_redshift_transform pow_ref (scalar_int 0) (scalar_int 1)
              [("wlen", 3); ("note", 2)]%string [("wlen", 1); ("note", 2)]%string
              exponents w_record = (OK r, w'))
    by (eexists; eexists; vm_compute; reflexivity).
  destruct Hrun as (r & w' & Hrun). exists r, w'. split; [exact Hrun|].
  destruct (@apply_redshift_transform_fills_data_out pow_ref (scalar_int 0)
              (scalar_int 1) [("wlen", 3); ("note", 2)]%string
              [("wlen", 1); ("note", 2)]%string exponents
              w_record r w' eq_refl eq_refl eq_refl eq_refl eq_refl eq_refl Hrun)
    as [Hr Hv].
  split; [exact Hr|]. split.
  - destruct (Hv "wlen"%string 1 (or_introl eq_refl)) as (src & Esrc & _ & _ & Hk).
    injection Esrc as <-. rewrite (Hk 1) by (simpl; lia). reflexivity.
  - destruct (Hv "note"%string 2 (or_intror (or_introl eq_refl)))
      as (src & Esrc & _ & _ & Hk).
    injection Esrc as <-. rewrite (Hk 1) by (simpl; lia). reflexivity.
Defined.

(** ** The multi-column orchestrator *)

Lemma existsb_eqb_in n names :
  In n names -> existsb (String.eqb n) names = true.
Proof.
  intros H. apply existsb_exists. exists n. split; [exact H|apply String.eqb_refl].
Qed.

Lemma dict_get_drop_extra names n : forall t : dict objid,
  In n names -> dict_get n (drop_extra names t) = dict_get n t.
Proof.
  intros t Hn. induction t as [|[k v] t IH]; simpl; [reflexivity|].
  destruct (String.eqb_spec n k) as [->|Hne].
  - rewrite (existsb_eqb_in _ _ Hn). simpl. now rewrite String.eqb_refl.
  - destruct (existsb (String.eqb k) names); simpl; [|exact IH].
    destruct (String.eqb_spec n k); [contradiction|exact IH].
Qed.

Lemma kwarg_set k v kwargs n :
  kwarg (dict_set k v kwargs) n = if String.eqb n k then v else kwarg kwargs n.
Proof.
  unfold kwarg. rewrite dict_get_set. now destruct (String.eqb n k).
Qed.

Lemma column_kwargs_set v : forall kwargs,
  column_kwargs (dict_set "data_out" v kwargs) = column_kwargs kwargs.
Proof.
  unfold column_kwargs, get_options. cbn [fst].
  induction kwargs as [|[k x] kwargs IH]; [reflexivity|].
  cbn [dict_set]. destruct (String.eqb_spec "data_out" k) as [<-|Hne].
  - reflexivity.
  - cbn [filter fst]. rewrite IH. reflexivity.
Qed.

Lemma nodup_keys_middle name : forall pre post,
  nodup_keys (pre ++ name :: post) = true -> ~ In name pre.
Proof.
  induction pre as [|k pre IH]; intros post H; [tauto|].
  simpl in H. apply andb_true_iff in H as [Hk H].
  intros [->|Hin]; [|exact (IH _ H Hin)].
  apply negb_true_iff in Hk.
  assert (existsb (String.eqb name) (pre ++ name :: post) = true); [|congruence].
  apply existsb_eqb_in, in_or_app. right. now left.
Qed.


(** C8 (the code at the failing input).  The doctest call
    [redshift(z_in=0, z_out=1, wlen=wlen0, flux=flux0)] returns the
    transformed columns and has written three lines to the standard
    output. *)
Theorem redshift_prints_debug_lines :
  let run := redshift pow_ref []
               [("z_in", PyNum (scalar_int 0)); ("z_out", PyNum (scalar_int 1));
                ("wlen", PyArr 0); ("flux", PyArr 1)]%string w_spectrum in
  fst run = OK (PyTab [("wlen", 2); ("flux", 3)]%string)
  /\ load (snd run) 2 = mk_ndarray Float64 [3] [SF 8000; SF 8002; SF 8004]
  /\ load (snd run) 3 = mk_ndarray Float64 [3] [SF 0.5; SF 0.5; SF 0.5]
  /\ w_stdout w_spectrum = []
  /\ w_stdout (snd run) = ["arrays_out"; "data_in"; "data_out"]%string.
Proof. vm_compute. repeat split. Qed.

(** Every call of [redshift] that returns has printed these three lines;
    [redshift_array] and [apply_redshift_transform] print nothing. *)
Lemma redshift_always_prints fpow args kwargs w r w' :
  redshift fpow args kwargs w = (OK r, w') ->
  w_stdout w' = w_stdout w ++ debug_lines.
Proof.
  rewrite redshift_unfold. destruct (conflicting kwargs); [discriminate|].
  intros H. exact (redshift_resolved_outcome _ _ _ _ _ _ _ H).
Qed.

(** C7 (counterexample).  [data_out] has the column [wlen] and lacks
    [flux]: the call fails with [MissingOutputColumn] for [flux] after it
    has written the transformed [wlen] into [data_out]. *)
Lemma redshift_missing_column_after_write :
  let run := redshift pow_ref []
               [("z", PyNum (scalar_int 1)); ("wlen", PyArr 0); ("flux", PyArr 1);
                ("data_out", PyTab [("wlen", 2)])]%string w_table in
  fst run = Err (MissingOutputColumn "flux")
  /\ load w_table 2 = mk_ndarray Float64 [3] [SF 0; SF 0; SF 0]
  /\ load (snd run) 2 = mk_ndarray Float64 [3] [SF 8000; SF 8002; SF 8004].
Proof. vm_compute. repeat split. Qed.

(** C7 (amended).  When [data_out] lacks a column name of the input
    mapping, and the columns before the first such name transform without
    error, [redshift] fails with [MissingOutputColumn] for that name.  The
    test is made inside the loop over the columns, when the loop reaches
    the name: the world at the failure is the one the transforms of the
    columns before it have left, their results written into [data_out];
    the missing column and those after it are not transformed. *)
Theorem redshift_missing_column
    fpow args kwargs w t pre name y_in post d arrays_out1 w1 :
  conflicting kwargs = false ->
  kwarg kwargs "data_out" = PyTab t ->
  prepare_data_read_only args (column_kwargs kwargs) w
  = (OK (pre ++ (name, y_in) :: post, d), w) ->
  dict_get name t = None ->
  redshift_columns fpow (resolved_z_in kwargs) (resolved_z_out kwargs) true
    pre t w = (OK arrays_out1, w1) ->
  redshift fpow args kwargs w = (Err (MissingOutputColumn name), w1).
Proof.
  intros Hc Ht Hp Hget Hpre. rewrite redshift_unfold, Hc, Ht.
  rewrite (redshift_resolved_with_out _ _ _ _ _ _ Hp).
  destruct (prepare_data_read_only_pure _ _ _ Hp) as [_ Hnd].
  unfold keys in Hnd. rewrite map_app in Hnd. cbn [map fst] in Hnd.
  apply nodup_keys_middle in Hnd.
  now rewrite (@redshift_columns_missing fpow _ _ name y_in post pre t w
                 arrays_out1 w1 Hnd Hget Hpre).
Qed.

Lemma redshift_missing_column_witness :
  exists w1,
    redshift pow_ref []
      [("z", PyNum (scalar_int 1)); ("wlen", PyArr 0); ("flux", PyArr 1);
       ("data_out", PyTab [("wlen", 2)])]%string w_table
    = (Err (MissingOutputColumn "flux"), w1)
    /\ load w1 2 = mk_ndarray Float64 [3] [SF 8000; SF 8002; SF 8004].
Proof.
  assert (Hpre : exists ao w1,
            redshift_columns pow_ref py_zero (PyNum (scalar_int 1)) true
              [("wlen", 0)]%string [("wlen", 2)]%string w_table = (OK ao, w1)
            /\ load w1 2 = mk_ndarray Float64 [3] [SF 8000; SF 8002; SF 8004])
    by (eexists; eexists; vm_compute; split; reflexivity).
  destruct Hpre as (ao & w1 & Hpre & Hload). exists w1. split; [|exact Hload].
  exact (@redshift_missing_column pow_ref []
           [("z", PyNum (scalar_int 1)); ("wlen", PyArr 0); ("flux", PyArr 1);
            ("data_out", PyTab [("wlen", 2)])]%string w_table
           [("wlen", 2)]%string [("wlen", 0)]%string "flux"%string 1 []
           (PyTab [("wlen", 0); ("flux", 1)]%string) ao w1
           eq_refl eq_refl eq_refl eq_refl Hpre).
Defined.

Lemma dict_get_in {V} k (v : V) : forall d : dict V,
  dict_get k d = Some v -> In (k, v) d.
Proof.
  induction d as [|[k' v'] d IH]; simpl; [discriminate|].
  destruct (String.eqb_spec k k') as [->|_].
  - intros [= ->]. now left.
  - intros H. right. now apply IH.
Qed.

(** In a table, a write through a column reaches no column of another
    name. *)
Lemma table_ok_columns w t n o c x :
  table_ok w t = true ->
  dict_get n t = Some o -> dict_get c t = Some x -> n <> c ->
  based w o = true /\ untouched_by w o x = true.
Proof.
  unfold table_ok. rewrite andb_true_iff, !forallb_forall.
  intros [Hw Hp] Ho Hx Hne.
  apply dict_get_in in Ho, Hx. split.
  - apply writable_based. exact (Hw _ Ho).
  - specialize (Hp _ Ho). rewrite forallb_forall in Hp.
    specialize (Hp _ Hx). cbn [fst snd] in Hp.
    apply orb_true_iff in Hp as [Hp|Hp]; [|exact Hp].
    apply String.eqb_eq in Hp. contradiction.
Qed.

(** C10.  Let [data_out] be a table [t] with columns whose names are not
    in the input mapping.  The call ends as it does without these columns
    (the same exception or a return in both cases) and leaves the same
    world; and it leaves every such column untouched, [t] being a table in
    memory: columns that are writable arrays of which no two share an
    element, be they separate arrays or the fields of one structured
    array. *)
Theorem redshift_ignores_extra_columns fpow args kwargs w t arrays_in d :
  conflicting kwargs = false ->
  kwarg kwargs "data_out" = PyTab t ->
  prepare_data_read_only args (column_kwargs kwargs) w = (OK (arrays_in, d), w) ->
  let without :=
    dict_set "data_out" (PyTab (drop_extra (keys arrays_in) t)) kwargs in
  same_outcome (fst (redshift fpow args kwargs w))
               (fst (redshift fpow args without w))
  /\ snd (redshift fpow args kwargs w) = snd (redshift fpow args without w)
  /\ (table_ok w t = true ->
      forall c x,
        dict_get c t = Some x -> ~ In c (keys arrays_in) ->
        load (snd (redshift fpow args kwargs w)) x = load w x).
Proof.
  intros Hc Ht Hp without.
  assert (Hc' : conflicting without = false).
  { unfold conflicting, without in *. now rewrite !kwarg_set. }
  rewrite !redshift_unfold, Hc, Hc', Ht.
  unfold resolved_z_in, resolved_z_out, without.
  rewrite !kwarg_set, column_kwargs_set. cbn [String.eqb Ascii.eqb Bool.eqb].
  rewrite !(redshift_resolved_with_out _ _ _ _ _ _ Hp).
  set (zi := if negb (is_none (kwarg kwargs "z")) then py_zero
             else kwarg kwargs "z_in").
  set (zo := if negb (is_none (kwarg kwargs "z")) then kwarg kwargs "z"
             else kwarg kwargs "z_out").
  destruct (@redshift_columns_agree fpow zi zo true arrays_in t
              (drop_extra (keys arrays_in) t) w) as [Hw Hr].
  { intros n Hn. symmetry. now apply dict_get_drop_extra. }
  destruct (redshift_columns fpow zi zo true arrays_in t w) as [r1 w1] eqn:E1.
  destruct (redshift_columns fpow zi zo true arrays_in
              (drop_extra (keys arrays_in) t) w) as [r2 w2] eqn:E2.
  simpl in Hw, Hr. subst w2.
  assert (Hframe : table_ok w t = true ->
            forall c x,
              dict_get c t = Some x -> ~ In c (keys arrays_in) ->
              load w1 x = load w x).
  { intros Htab c x Hx Hnot.
    apply (@redshift_columns_untouched fpow zi zo x arrays_in t w r1 w1 E1).
    intros n o Hn Ho. apply (@table_ok_columns w t n o c x); auto.
    intros ->. contradiction. }
  destruct r1 as [a1|e1], r2 as [a2|e2]; simpl in Hr; try contradiction;
    cbn [fst snd]; repeat split; auto.
Qed.

Lemma redshift_ignores_extra_columns_witness :
  let run := redshift pow_ref []
               [("z", PyNum (scalar_int 1)); ("wlen", PyArr 3);
                ("data_out", PyTab [("wlen", 1); ("note", 2)])]%string
               w_record in
  load (snd run) 2 = mk_ndarray Float64 [3] [SF 7; SF 7; SF 7]
  /\ load (snd run) 1 = mk_ndarray Float64 [3] [SF 8000; SF 8002; SF 8004].
Proof.
  cbv zeta. split; [|vm_compute; reflexivity].
  destruct (@redshift_ignores_extra_columns pow_ref []
              [("z", PyNum (scalar_int 1)); ("wlen", PyArr 3);
               ("data_out", PyTab [("wlen", 1); ("note", 2)])]%string w_record
              [("wlen", 1); ("note", 2)]%string [("wlen", 3)]%string
              (PyTab [("wlen", 3)]%string) eq_refl eq_refl eq_refl)
    as (_ & _ & Hkeep).
  rewrite (Hkeep eq_refl "note"%string 2 eq_refl).
  - reflexivity.
  - simpl. intros [H|[]]. discriminate.
Defined.

(** * Further properties of the code *)

(** ** [redshift_array]: the order of the checks *)

Section ArrayOutcome.

Variable fpow : float -> float -> float.

(** The outcome of a call is decided by the six checks, in the order in
    which the source makes them, and then by the number of dimensions of
    the output: line 163 fails on an output without dimensions, and only
    then. *)
Lemma redshift_array_decided z_in z_out y_in y_out exponent name w :
  fst (redshift_array fpow z_in z_out y_in y_out exponent name w) =
    if existsb le_minus_one (items z_in) then Err (InvalidRedshift Zin)
    else if existsb le_minus_one (items z_out) then Err (InvalidRedshift Zout)
    else if negb (is_number (a_dtype (w_heap w y_in)))
    then Err (NonNumericInput name)
    else if negb (forallb isfinite (obj_items w y_in))
    then Err (NonFiniteInput name)
    else match broadcast_shape3 (shape z_in) (shape z_out)
                 (a_shape (w_heap w y_in)) with
         | None => Err (BroadcastError name)
         | Some s =>
             match y_out with
             | None => if has_dims s then OK (w_next w) else Err IndexError
             | Some o =>
                 if negb (shape_eqb (a_shape (w_heap w o)) s)
                 then Err (ShapeMismatch name)
                 else if negb (dtype_eqb (a_dtype (w_heap w o))
                                 (a_dtype (w_heap w y_in)))
                 then Err (DtypeMismatch name)
                 else if has_dims s then OK o else Err IndexError
             end
         end.
Proof.
  destruct (existsb le_minus_one (items z_in)) eqn:Hzi.
  { unfold redshift_array. now rewrite Hzi. }
  destruct (existsb le_minus_one (items z_out)) eqn:Hzo.
  { unfold redshift_array. now rewrite Hzi, Hzo. }
  destruct (is_number (a_dtype (w_heap w y_in))) eqn:Hnum; cbn [negb].
  2:{ unfold redshift_array, bind. rewrite Hzi, Hzo. simpl. now rewrite Hnum. }
  destruct (forallb isfinite (obj_items w y_in)) eqn:Hfin; cbn [negb].
  2:{ unfold redshift_array, bind. rewrite Hzi, Hzo. simpl.
      now rewrite Hnum, Hfin. }
  destruct (broadcast_shape3 (shape z_in) (shape z_out) (a_shape (w_heap w y_in)))
    as [s|] eqn:H3.
  2:{ unfold redshift_array, bind, lift. rewrite Hzi, Hzo. simpl.
      now rewrite Hnum, Hfin, H3. }
  destruct (@redshift_array_run fpow z_in z_out y_in y_out exponent name w s
              Hzi Hzo Hnum Hfin H3) as (rhs & _ & _ & _ & Hrun).
  rewrite Hrun. destruct y_out as [o|]; [|cbv zeta; now destruct (has_dims s)].
  destruct (negb _); [reflexivity|]. destruct (negb _); [reflexivity|].
  now destruct (has_dims s).
Qed.

End ArrayOutcome.


(** ** [redshift_array]: what it writes *)

Lemma allocated_below w o :
  allocated w o = true -> o <> w_next w /\ owner w o <> w_next w.
Proof.
  unfold allocated. rewrite andb_true_iff, !Nat.ltb_lt. lia.
Qed.

(** X2.  Without [y_out], [redshift_array] returns a new array and leaves
    every array that existed before the call as it was: the input [y_in] is
    never modified. *)
Theorem redshift_array_keeps_input
    fpow z_in z_out y_in exponent name w r w' :
  redshift_array fpow z_in z_out y_in None exponent name w = (OK r, w') ->
  r = w_next w
  /\ w_next w' = S (w_next w)
  /\ forall o, allocated w o = true -> load w' o = load w o.
Proof.
  intros H. apply redshift_array_frame in H as (_ & Hr & Hn & Hf).
  repeat split; auto. intros o Ho. destruct (allocated_below _ _ Ho).
  apply load_agree; apply Hf; auto.
Qed.

Lemma redshift_array_keeps_input_witness :
  exists r w',
    redshift_array pow_ref (scalar_int 0) (scalar_int 1) 0 None None "wlen"
      w_spectrum = (OK r, w')
    /\ r = 2
    /\ load w' 0 = mk_ndarray Float64 [3] [SF 4000; SF 4001; SF 4002].
Proof.
  assert (Hrun : exists r w',
            redshift_array pow_ref (scalar_int 0) (scalar_int 1) 0 None None
              "wlen" w_spectrum = (OK r, w'))
    by (eexists; eexists; vm_compute; reflexivity).
  destruct Hrun as (r & w' & Hrun). exists r, w'. split; [exact Hrun|].
  pose proof Hrun as Hk. apply redshift_array_keeps_input in Hk as (Hr & _ & Hkeep).
  split; [exact Hr|]. now rewrite (Hkeep 0 eq_refl).
Defined.

(** X3.  With [y_out], [redshift_array] returns [y_out] itself, allocates
    nothing, and changes nothing but the buffer that [y_out] writes to:
    every array that shares no buffer with [y_out] reads as before, and no
    array changes its shape or element type. *)
Theorem redshift_array_writes_only_y_out
    fpow z_in z_out y_in o exponent name w r w' :
  redshift_array fpow z_in z_out y_in (Some o) exponent name w = (OK r, w') ->
  r = o
  /\ w_next w' = w_next w
  /\ (forall p, a_shape (w_heap w' p) = a_shape (w_heap w p)
                /\ a_dtype (w_heap w' p) = a_dtype (w_heap w p))
  /\ forall p, p <> owner w o -> owner w p <> owner w o ->
               load w' p = load w p.
Proof.
  intros H. apply redshift_array_frame in H as (_ & Hr & Hn & vals & ->).
  repeat split; auto using set_items_shape, set_items_dtype.
  intros p H1 H2. apply load_agree; now apply set_items_frame.
Qed.

Lemma redshift_array_writes_only_y_out_witness :
  exists r w',
    redshift_array pow_ref (scalar_int 0) (scalar_int 1) 0 (Some 2) None "wlen"
      w_table = (OK r, w')
    /\ r = 2
    /\ load w' 2 = mk_ndarray Float64 [3] [SF 8000; SF 8002; SF 8004]
    /\ load w' 3 = mk_ndarray Float64 [3] [SF 7; SF 7; SF 7].
Proof.
  assert (Hrun : exists r w',
            redshift_array pow_ref (scalar_int 0) (scalar_int 1) 0 (Some 2) None
              "wlen" w_table = (OK r, w')
            /\ load w' 2 = mk_ndarray Float64 [3] [SF 8000; SF 8002; SF 8004])
    by (eexists; eexists; vm_compute; split; reflexivity).
  destruct Hrun as (r & w' & Hrun & H2). exists r, w'. split; [exact Hrun|].
  pose proof Hrun as Hk.
  apply redshift_array_writes_only_y_out in Hk as (Hr & _ & _ & Hkeep).
  split; [exact Hr|]. split; [exact H2|].
  rewrite (Hkeep 3); [reflexivity| |]; vm_compute; discriminate.
Defined.

(** ** [redshift_array]: transforms in place *)




(** ** A redshift that is not a number *)

Lemma nan_not_leb f g : PrimFloat.is_nan f = true -> PrimFloat.leb f g = false.
Proof.
  unfold PrimFloat.is_nan. rewrite FloatAxioms.eqb_spec, FloatAxioms.leb_spec.
  unfold SFeqb, SFleb. intros H.
  assert (Hn : Prim2SF f = S754_nan).
  { destruct (Prim2SF f) as [s|s| |s m e]; simpl in H; try discriminate; auto.
    - destruct s; discriminate.
    - destruct s; rewrite Z.compare_refl, Pos.compare_cont_refl in H; discriminate. }
  now rewrite Hn.
Qed.

(** X5.  The test of the redshifts is [z <= -1], not [z > -1]: a redshift
    that is NaN passes it.  If every element of [z_in] and [z_out] is
    either [> -1] or NaN, neither function raises [InvalidRedshift]. *)
Theorem nan_redshift_is_not_rejected fpow z_in z_out :
  forallb (fun s => gt_minus_one s || scalar_is_nan s) (items z_in) = true ->
  forallb (fun s => gt_minus_one s || scalar_is_nan s) (items z_out) = true ->
  (forall y_in y_out exponent name w which,
     fst (redshift_array fpow z_in z_out y_in y_out exponent name w)
     <> Err (InvalidRedshift which))
  /\ (forall data_in data_out exponent w which,
        fst (apply_redshift_transform fpow z_in z_out data_in data_out exponent w)
        <> Err (InvalidRedshift which)).
Proof.
  assert (Hpass : forall l,
            forallb (fun s => gt_minus_one s || scalar_is_nan s) l = true ->
            existsb le_minus_one l = false).
  { induction l as [|s l IH]; simpl; auto.
    rewrite andb_true_iff. intros [Hs Hl]. rewrite (IH Hl), orb_false_r.
    apply orb_true_iff in Hs as [Hs|Hs]; [now apply gt_not_le|].
    destruct s as [f| |]; simpl in *; try discriminate. now apply nan_not_leb. }
  intros Hzi Hzo. apply Hpass in Hzi, Hzo. split.
  - intros y_in y_out exponent name w which.
    rewrite redshift_array_decided, Hzi, Hzo.
    destruct (negb _); [discriminate|]. destruct (negb _); [discriminate|].
    destruct (broadcast_shape3 _ _ _) as [s|]; [|discriminate].
    destruct y_out; [|destruct (has_dims s); discriminate].
    destruct (negb _); [discriminate|]. destruct (negb _); [discriminate|].
    destruct (has_dims s); discriminate.
  - intros data_in data_out exponent w which.
    unfold apply_redshift_transform. rewrite Hzi, Hzo.
    unfold bind, lift. destruct (zfactor_of z_in z_out) as [zf|]; [|discriminate].
    unfold ret at 1.
    destruct (fill_data_out fpow zf data_in exponent data_out w)
      as [[[]|e] w1] eqn:Hfill; [discriminate|]. simpl.
    apply fill_data_out_failure in Hfill as (n & [->|[->| ->]]); discriminate.
Qed.

Lemma nan_redshift_is_not_rejected_witness :
  fst (redshift_array pow_ref (scalar_float nan) (scalar_int 1) 1 None None
         "flux" w_spectrum) <> Err (InvalidRedshift Zin)
  /\ fst (apply_redshift_transform pow_ref (scalar_int 1) (scalar_float nan)
            [("flux", 1)]%string [("flux", 1)]%string exponents w_spectrum)
     <> Err (InvalidRedshift Zout).
Proof.
  destruct (@nan_redshift_is_not_rejected pow_ref (scalar_float nan)
              (scalar_int 1) eq_refl eq_refl) as [H1 _].
  destruct (@nan_redshift_is_not_rejected pow_ref (scalar_int 1)
              (scalar_float nan) eq_refl eq_refl) as [_ H2].
  split; [apply H1|apply H2].
Defined.

(** ** [apply_redshift_transform]: what it writes and when it fails *)

Section DictFrame.

Variable fpow : float -> float -> float.

(** A write leaves the owner of every buffer where it was, unless the
    object is the one written to. *)
Lemma owner_after_write w o vals p :
  owner (set_items w o vals) p = owner w p \/ p = owner w o.
Proof.
  destruct (Nat.eq_dec p (owner w o)) as [->|Hne]; [now right|left].
  apply owner_agree. now apply set_items_frame.
Qed.

(** The loop changes the objects that own the buffers of the arrays of
    [data_out], and no other. *)
Lemma fill_data_out_frame zfactor data_in exponent p : forall todo w r w',
  fill_data_out fpow zfactor data_in exponent todo w = (r, w') ->
  (forall e, In e todo -> p <> owner w (snd e)) ->
  w_heap w' p = w_heap w p.
Proof.
  induction todo as [|[name out] rest IH]; intros w r w'; cbn [fill_data_out].
  - now intros [= _ <-].
  - unfold bind.
    destruct (fill_entry fpow zfactor data_in exponent name out w)
      as [[[]|e] w1] eqn:E1.
    + intros H Hp. pose proof (Hp (name, out) (or_introl eq_refl)) as Hpw.
      simpl in Hpw.
      destruct (fill_entry_world _ _ _ _ _ _ _ E1) as [->|[vals ->]].
      * apply (IH _ _ _ H). intros e He. apply Hp. now right.
      * rewrite (IH _ _ _ H); [now apply set_items_frame|].
        intros e He. pose proof (Hp e (or_intror He)) as H2.
        destruct (owner_after_write w out vals (snd e)) as [->|Heq]; [exact H2|].
        rewrite Heq at 1. rewrite set_items_owner_written. exact Hpw.
    + intros [= _ <-] Hp.
      destruct (fill_entry_world _ _ _ _ _ _ _ E1) as [->|[vals ->]]; [reflexivity|].
      pose proof (Hp (name, out) (or_introl eq_refl)) as Hpw.
      now apply set_items_frame.
Qed.

Lemma fill_data_out_bookkeeping zfactor data_in exponent : forall todo w r w',
  fill_data_out fpow zfactor data_in exponent todo w = (r, w') ->
  w_next w' = w_next w /\ w_stdout w' = w_stdout w
  /\ forall p, a_shape (w_heap w' p) = a_shape (w_heap w p)
               /\ a_dtype (w_heap w' p) = a_dtype (w_heap w p).
Proof.
  induction todo as [|[name out] rest IH]; intros w r w'; cbn [fill_data_out].
  - intros [= _ <-]. auto.
  - unfold bind.
    destruct (fill_entry fpow zfactor data_in exponent name out w)
      as [[[]|e] w1] eqn:E1.
    + intros H. destruct (IH _ _ _ H) as (Hn & Hs & Hp).
      destruct (fill_entry_world _ _ _ _ _ _ _ E1) as [->|[vals ->]]; auto.
      split; [now rewrite Hn, set_items_next|].
      split; [now rewrite Hs, set_items_stdout|].
      intros p. destruct (Hp p) as [H1 H2]. rewrite H1, H2.
      split; [apply set_items_shape|apply set_items_dtype].
    + intros [= _ <-].
      destruct (fill_entry_world _ _ _ _ _ _ _ E1) as [->|[vals ->]]; auto.
      split; [apply set_items_next|]. split; [apply set_items_stdout|].
      intros p. split; [apply set_items_shape|apply set_items_dtype].
Qed.

(** A prefix of [data_out] that is filled, then a name that [data_in]
    lacks. *)
Lemma fill_data_out_missing zfactor data_in exponent name out post :
  forall pre w w1,
    dict_get name data_in = None ->
    fill_data_out fpow zfactor data_in exponent pre w = (OK tt, w1) ->
    fill_data_out fpow zfactor data_in exponent (pre ++ (name, out) :: post) w
    = (Err (KeyError name), w1).
Proof.
  induction pre as [|[n o] pre IH]; intros w w1 Hget; cbn [fill_data_out app].
  - intros [= <-]. unfold bind, fill_entry, lift, raise. rewrite Hget.
    now destruct (negb _).
  - unfold bind.
    destruct (fill_entry fpow zfactor data_in exponent n o w) as [[[]|e] w2];
      [|discriminate].
    now apply IH.
Qed.

(** The world a call leaves is the one it found or the one its loop has
    left. *)
Lemma apply_redshift_transform_world z_in z_out data_in data_out exponent w r w' :
  apply_redshift_transform fpow z_in z_out data_in data_out exponent w = (r, w') ->
  w' = w
  \/ exists zfactor r1,
       fill_data_out fpow zfactor data_in exponent data_out w = (r1, w').
Proof.
  unfold apply_redshift_transform.
  destruct (existsb le_minus_one (items z_in)); [intros [= _ <-]; now left|].
  destruct (existsb le_minus_one (items z_out)); [intros [= _ <-]; now left|].
  unfold bind, lift. destruct (zfactor_of z_in z_out) as [zf|];
    unfold ret, raise; [|intros [= _ <-]; now left].
  destruct (fill_data_out fpow zf data_in exponent data_out w)
    as [[[]|e] w1] eqn:Hfill; intros [= _ <-]; right; eauto.
Qed.

End DictFrame.

(** X6.  However it ends, [apply_redshift_transform] allocates nothing,
    prints nothing, changes the shape and the element type of no array, and
    writes only through the arrays of [data_out]: an array that shares its
    buffer with none of them reads as before. *)
Theorem apply_redshift_transform_writes_only_data_out
    fpow z_in z_out data_in data_out exponent w :
  let w' := snd (apply_redshift_transform fpow z_in z_out data_in data_out
                   exponent w) in
  w_next w' = w_next w
  /\ w_stdout w' = w_stdout w
  /\ (forall p, a_shape (w_heap w' p) = a_shape (w_heap w p)
                /\ a_dtype (w_heap w' p) = a_dtype (w_heap w p))
  /\ (forall p,
        (forall name out, In (name, out) data_out ->
                          p <> owner w out /\ owner w p <> owner w out) ->
        load w' p = load w p).
Proof.
  cbv zeta.
  destruct (apply_redshift_transform fpow z_in z_out data_in data_out exponent w)
    as [r w'] eqn:Hrun. cbn [snd].
  destruct (apply_redshift_transform_world _ _ _ _ _ _ _ Hrun)
    as [->|(zf & r1 & Hfill)]; [auto|].
  destruct (fill_data_out_bookkeeping _ _ _ _ _ _ Hfill) as (Hn & Hs & Hp).
  split; [exact Hn|]. split; [exact Hs|]. split; [exact Hp|].
  intros p Hfr.
  apply load_agree; apply (fill_data_out_frame _ _ _ _ _ _ Hfill);
    intros [name out] He; apply (Hfr name out He).
Qed.

(** X7.  [apply_redshift_transform] fails with a [KeyError] for the first
    name of [data_out] that [data_in] lacks, if the entries before it are
    filled without error; the entries before it have been written by then,
    those from the name on have not been visited. *)
Theorem apply_redshift_transform_missing_input
    fpow z_in z_out zfactor data_in pre name out post exponent w w1 :
  forallb gt_minus_one (items z_in) = true ->
  forallb gt_minus_one (items z_out) = true ->
  zfactor_of z_in z_out = Some zfactor ->
  dict_get name data_in = None ->
  fill_data_out fpow zfactor data_in exponent pre w = (OK tt, w1) ->
  apply_redshift_transform fpow z_in z_out data_in (pre ++ (name, out) :: post)
    exponent w
  = (Err (KeyError name), w1).
Proof.
  intros Hzi Hzo Ezf Hget Hpre. unfold apply_redshift_transform.
  rewrite (valid_redshift_passes _ Hzi), (valid_redshift_passes _ Hzo).
  unfold bind, lift. rewrite Ezf. unfold ret at 1.
  now rewrite (@fill_data_out_missing fpow zfactor data_in exponent name out post
                 pre w w1 Hget Hpre).
Qed.

Lemma apply_redshift_transform_missing_input_witness :
  exists w1,
    apply_redshift_transform pow_ref (scalar_int 0) (scalar_int 1)
      [("wlen", 0)]%string [("wlen", 2); ("flux", 3)]%string exponents w_table
    = (Err (KeyError "flux"), w1)
    /\ load w1 2 = mk_ndarray Float64 [3] [SF 8000; SF 8002; SF 8004]
    /\ load w1 3 = mk_ndarray Float64 [3] [SF 7; SF 7; SF 7].
Proof.
  assert (Hzf : exists zf, zfactor_of (scalar_int 0) (scalar_int 1) = Some zf)
    by (eexists; reflexivity).
  destruct Hzf as (zf & Hzf).
  assert (Hpre : exists w1,
            fill_data_out pow_ref zf [("wlen", 0)]%string exponents
              [("wlen", 2)]%string w_table = (OK tt, w1)
            /\ load w1 2 = mk_ndarray Float64 [3] [SF 8000; SF 8002; SF 8004]
            /\ load w1 3 = mk_ndarray Float64 [3] [SF 7; SF 7; SF 7]).
  { injection Hzf as <-. eexists. vm_compute. repeat split. }
  destruct Hpre as (w1 & Hpre & H2 & H3). exists w1. split; [|now split].
  exact (@apply_redshift_transform_missing_input pow_ref (scalar_int 0)
           (scalar_int 1) zf [("wlen", 0)]%string [("wlen", 2)]%string
           "flux"%string 3 [] exponents w_table w1 eq_refl eq_refl Hzf eq_refl
           Hpre).
Defined.

(** X8.  The factor [(1 + z_out) / (1 + z_in)] is computed before the loop:
    when the shapes of [z_in] and [z_out] do not broadcast, the call fails
    whatever the dictionaries hold, an empty [data_out] included, and
    writes nothing; when they do, an empty [data_out] is returned with the
    world unchanged. *)
Theorem apply_redshift_transform_factor_first fpow z_in z_out :
  forallb gt_minus_one (items z_in) = true ->
  forallb gt_minus_one (items z_out) = true ->
  (broadcast_shape (shape z_out) (shape z_in) = None ->
   forall data_in data_out exponent w,
     apply_redshift_transform fpow z_in z_out data_in data_out exponent w
     = (Err OperandsError, w))
  /\ (broadcast_shape (shape z_out) (shape z_in) <> None ->
      forall data_in exponent w,
        apply_redshift_transform fpow z_in z_out data_in [] exponent w
        = (OK [], w)).
Proof.
  intros Hzi Hzo. apply valid_redshift_passes in Hzi, Hzo.
  unfold apply_redshift_transform, zfactor_of, broadcast_op, bind, lift.
  cbn [shape scalar_op]. rewrite Hzi, Hzo. split.
  - intros ->. reflexivity.
  - destruct (broadcast_shape (shape z_out) (shape z_in)); [|congruence].
    reflexivity.
Qed.

Lemma apply_redshift_transform_factor_first_witness :
  apply_redshift_transform pow_ref (mk_ndarray Float64 [2] [SF 0; SF 1])
    (mk_ndarray Float64 [3] [SF 0; SF 1; SF 2]) [] [] [] w_spectrum
  = (Err OperandsError, w_spectrum)
  /\ apply_redshift_transform pow_ref (scalar_int 0) (scalar_int 1) [] [] []
       w_spectrum = (OK [], w_spectrum).
Proof.
  split.
  - apply (proj1 (@apply_redshift_transform_factor_first pow_ref
                    (mk_ndarray Float64 [2] [SF 0; SF 1])
                    (mk_ndarray Float64 [3] [SF 0; SF 1; SF 2])
                    eq_refl eq_refl)).
    reflexivity.
  - apply (proj2 (@apply_redshift_transform_factor_first pow_ref
                    (scalar_int 0) (scalar_int 1) eq_refl eq_refl)).
    discriminate.
Defined.

(** ** The two entry points compute the same *)

Section Agreement.

Variable fpow : float -> float -> float.


End Agreement.



(** ** [redshift] without [data_out] *)

Lemma dict_set_fresh {V} k (v : V) : forall d,
  dict_get k d = None -> dict_set k v d = d ++ [(k, v)].
Proof.
  induction d as [|[k' v'] d IH]; simpl; [reflexivity|].
  destruct (String.eqb_spec k k'); [discriminate|].
  intros H. now rewrite IH.
Qed.

Lemma dict_get_app_none {V} k (d1 d2 : dict V) :
  dict_get k d1 = None -> dict_get k (d1 ++ d2) = dict_get k d2.
Proof.
  induction d1 as [|[k' v'] d1 IH]; simpl; [reflexivity|].
  destruct (String.eqb k k'); [discriminate|exact IH].
Qed.

Lemma existsb_eqb_string_false n names :
  existsb (String.eqb n) names = false -> ~ In n names.
Proof.
  intros H Hin. rewrite (existsb_eqb_in _ _ Hin) in H. discriminate.
Qed.

Section FreshOutput.

Variable fpow : float -> float -> float.

(** The loop of lines 252-262 when no [data_out] is given: every column
    gets the next new array, in order, and no existing array is touched. *)
Lemma redshift_columns_fresh z_in z_out : forall todo ao w ao' w',
  nodup_keys (keys todo) = true ->
  (forall n, In n (keys todo) -> dict_get n ao = None) ->
  redshift_columns fpow z_in z_out false todo ao w = (OK ao', w') ->
  ao' = ao ++ fresh_columns (keys todo) (w_next w)
  /\ w_next w' = w_next w + List.length todo
  /\ forall p, p < w_next w -> w_heap w' p = w_heap w p.
Proof.
  induction todo as [|[name y] rest IH]; intros ao w ao' w' Hnd Hfree;
    cbn [redshift_columns].
  - intros [= <- <-]. unfold fresh_columns. simpl. rewrite app_nil_r.
    repeat split; auto.
  - unfold bind.
    destruct (redshift_column fpow z_in z_out false ao name y w)
      as [[r|e] w1] eqn:E1; [|discriminate].
    intros H. apply redshift_column_success in E1 as (_ & -> & Hn1 & Hf1).
    simpl in Hnd. apply andb_true_iff in Hnd as [Hname Hnd].
    apply negb_true_iff, existsb_eqb_string_false in Hname.
    rewrite (dict_set_fresh _ _ _ (Hfree name (or_introl eq_refl))) in H.
    apply IH in H as (-> & Hn & Hf); auto.
    + rewrite Hn1 in *. repeat split.
      * unfold fresh_columns. cbn [keys map fst List.length seq combine].
        now rewrite <- app_assoc.
      * simpl. lia.
      * intros p Hp. rewrite Hf by lia. apply Hf1. lia.
    + intros n Hn. rewrite dict_get_app_none by (apply Hfree; now right).
      simpl. destruct (String.eqb_spec n name) as [->|_]; [contradiction|].
      reflexivity.
Qed.

End FreshOutput.

(** X10.  Without [data_out], a call of [redshift] that returns has
    allocated one new array per input column and returns them under the
    names and in the order of the input mapping; every array that existed
    before the call, the input columns included, reads as before. *)
Theorem redshift_allocates_columns_in_order
    fpow args kwargs w arrays_in d r w' :
  conflicting kwargs = false ->
  kwarg kwargs "data_out" = PyNone ->
  prepare_data_read_only args (column_kwargs kwargs) w = (OK (arrays_in, d), w) ->
  redshift fpow args kwargs w = (OK r, w') ->
  r = PyTab (fresh_columns (keys arrays_in) (w_next w))
  /\ w_next w' = w_next w + List.length arrays_in
  /\ forall o, allocated w o = true -> load w' o = load w o.
Proof.
  intros Hc Hout Hp. rewrite redshift_unfold, Hc, Hout.
  unfold redshift_resolved, bind. rewrite Hp. cbn [is_none negb ret].
  destruct (redshift_columns fpow (resolved_z_in kwargs) (resolved_z_out kwargs)
              false arrays_in [] w) as [[ao|e] w1] eqn:Hcols; [|discriminate].
  apply prepare_data_read_only_pure in Hp as [_ Hnd].
  apply redshift_columns_fresh in Hcols as (-> & Hn & Hf); auto.
  unfold tabular_like, print, ret. cbn. intros [= <- <-]. cbn.
  repeat split; auto.
  intros o Ho. unfold allocated in Ho.
  apply andb_true_iff in Ho as [H1 H2]. apply Nat.ltb_lt in H1, H2.
  unfold load, obj_items, buffer_of. cbn [w_heap].
  rewrite (Hf o H1).
  destruct (a_store (w_heap w o)) as [buf|b m] eqn:E; [reflexivity|].
  unfold owner in H2. rewrite E in H2. now rewrite (Hf b H2).
Qed.

Lemma redshift_allocates_columns_in_order_witness :
  exists r w',
    redshift pow_ref []
      [("z", PyNum (scalar_int 1)); ("wlen", PyArr 0); ("flux", PyArr 1)]%string
      w_spectrum = (OK r, w')
    /\ r = PyTab [("wlen", 2); ("flux", 3)]%string
    /\ load w' 1 = mk_ndarray Float64 [3] [SF 1; SF 1; SF 1].
Proof.
  assert (Hrun : exists r w',
            redshift pow_ref []
              [("z", PyNum (scalar_int 1)); ("wlen", PyArr 0);
               ("flux", PyArr 1)]%string w_spectrum = (OK r, w'))
    by (eexists; eexists; vm_compute; reflexivity).
  destruct Hrun as (r & w' & Hrun). exists r, w'. split; [exact Hrun|].
  destruct (@redshift_allocates_columns_in_order pow_ref []
              [("z", PyNum (scalar_int 1)); ("wlen", PyArr 0);
               ("flux", PyArr 1)]%string w_spectrum
              [("wlen", 0); ("flux", 1)]%string
              (PyTab [("wlen", 0); ("flux", 1)]%string) r w'
              eq_refl eq_refl eq_refl Hrun) as (Hr & _ & Hkeep).
  split; [exact Hr|]. now rewrite (Hkeep 1 eq_refl).
Defined.

Section ColumnValues.

Variable fpow : float -> float -> float.

Lemma set_items_own w o vals :
  is_own w o = true -> is_own (set_items w o vals) o = true.
Proof.
  unfold is_own, set_items.
  destruct (a_store (w_heap w o)); [|discriminate].
  intros _. cbn [w_heap]. now rewrite upd_same.
Qed.

(** The array that [redshift_array] allocates owns its buffer. *)
Lemma redshift_array_fresh_own z_in z_out y_in exponent name w r w' :
  redshift_array fpow z_in z_out y_in None exponent name w = (OK r, w') ->
  is_own w' r = true.
Proof.
  intros H. pose proof (f_equal fst H) as Hfst. simpl in Hfst.
  rewrite redshift_array_decided in Hfst.
  destruct (existsb le_minus_one (items z_in)) eqn:Hzi; [discriminate|].
  destruct (existsb le_minus_one (items z_out)) eqn:Hzo; [discriminate|].
  destruct (is_number (a_dtype (w_heap w y_in))) eqn:Hnum; [|discriminate].
  destruct (forallb isfinite (obj_items w y_in)) eqn:Hfin; [|discriminate].
  cbn [negb] in Hfst.
  destruct (broadcast_shape3 (shape z_in) (shape z_out) (a_shape (w_heap w y_in)))
    as [s|] eqn:H3; [|discriminate].
  destruct (@redshift_array_run fpow z_in z_out y_in None exponent name w s
              Hzi Hzo Hnum Hfin H3) as (rhs & _ & _ & _ & Hrun).
  rewrite Hrun in H. cbv zeta in H.
  destruct (has_dims s); [|discriminate]. injection H as <- <-.
  apply set_items_own. unfold is_own, empty_like. cbn [snd w_heap].
  now rewrite upd_same.
Qed.

(** Arrays that exist stay ready for the transform while new arrays are
    allocated. *)
Lemma column_ready_later w w1 zi zo c :
  (forall p, p < w_next w -> w_heap w1 p = w_heap w p) ->
  w_next w <= w_next w1 ->
  column_ready w zi zo c = true ->
  column_ready w1 zi zo c = true
  /\ w_heap w1 (snd c) = w_heap w (snd c)
  /\ load w1 (snd c) = load w (snd c).
Proof.
  intros Hf Hle Hr. unfold column_ready in *.
  rewrite !andb_true_iff in Hr. destruct Hr as [[[Hal Hnum] Hfin] Hsh].
  unfold allocated in Hal. apply andb_true_iff in Hal as [H1 H2].
  apply Nat.ltb_lt in H1, H2.
  assert (E1 : w_heap w1 (snd c) = w_heap w (snd c)) by auto.
  assert (E2 : w_heap w1 (owner w (snd c)) = w_heap w (owner w (snd c))) by auto.
  assert (El : load w1 (snd c) = load w (snd c)) by now apply load_agree.
  assert (Ei : obj_items w1 (snd c) = obj_items w (snd c))
    by now apply obj_items_agree.
  repeat split; auto.
  rewrite Ei, E1, Hnum, Hfin, Hsh, !andb_true_r. unfold allocated.
  rewrite (owner_agree _ _ _ E1).
  apply andb_true_iff. split; apply Nat.ltb_lt; lia.
Qed.

(** The loop of lines 252-262 without [data_out], on columns that pass the
    input checks: it returns, and the new array of every column holds the
    formula with the exponent that the registry gives for the name of the
    column. *)
Lemma redshift_columns_values zi zo :
  existsb le_minus_one (items zi) = false ->
  existsb le_minus_one (items zo) = false ->
  wf_array zi -> wf_array zo ->
  forall todo ao w,
    forallb (column_ready w zi zo) todo = true ->
    exists ao' w',
      redshift_columns fpow (PyNum zi) (PyNum zo) false todo ao w = (OK ao', w')
      /\ w_next w <= w_next w'
      /\ (forall p, p < w_next w -> w_heap w' p = w_heap w p)
      /\ forall i name y, nth_error todo i = Some (name, y) ->
           let r := w_next w + i in
           let s := column_shape w zi zo y in
           a_shape (w_heap w' r) = s
           /\ a_dtype (w_heap w' r) = a_dtype (w_heap w y)
           /\ List.length (obj_items w' r) = size s
           /\ forall k, k < size s ->
                nth k (obj_items w' r) (SI 0)
                = cast (a_dtype (w_heap w y))
                    (SF (formula fpow zi zo (load w y)
                           (resolve_exponent None name) s k)).
Proof.
  intros Hzi Hzo Hwi Hwo.
  induction todo as [|[name y] rest IH]; intros ao w Hready.
  - exists ao, w. cbn [redshift_columns]. unfold ret.
    split; [reflexivity|]. split; [lia|]. split; [auto|].
    intros [|i] n0 y0 Hnth; discriminate.
  - simpl in Hready. apply andb_true_iff in Hready as [Hr Hready].
    pose proof Hr as Hr0. unfold column_ready in Hr0. cbn [snd] in Hr0.
    rewrite !andb_true_iff in Hr0. destruct Hr0 as [[[Hal Hnum] Hfin] Hsh].
    destruct (broadcast_shape3 (shape zi) (shape zo) (a_shape (w_heap w y)))
      as [s|] eqn:H3; [|discriminate].
    destruct (@redshift_array_result fpow zi zo y None None name w s
                Hzi Hzo Hnum Hfin Hwi Hwo H3 I) as [Hex Hall].
    destruct (Hex Hsh I) as (r & w1 & Hrun).
    destruct (Hall r w1 Hrun) as (Hs1 & Hd1 & Hl1 & Hv1).
    pose proof (redshift_array_fresh_own _ _ _ _ _ _ Hrun) as Hown.
    pose proof Hrun as Hfr.
    apply redshift_array_frame in Hfr as (_ & -> & Hn1 & Hf1).
    assert (Hbelow : forall p, p < w_next w -> w_heap w1 p = w_heap w p)
      by (intros p Hp; apply Hf1; lia).
    assert (Hready1 : forallb (column_ready w1 zi zo) rest = true).
    { rewrite forallb_forall in *. intros c Hc.
      apply (@column_ready_later w w1 zi zo c); auto. lia. }
    destruct (IH (dict_set name (w_next w) ao) w1 Hready1)
      as (ao' & w' & Hrest & Hle & Hf & Hv).
    exists ao', w'. split.
    { cbn [redshift_columns]. unfold redshift_column.
      unfold bind, ret, asanyarray. cbn [negb]. cbv beta iota.
      rewrite Hrun. exact Hrest. }
    split; [lia|]. split.
    { intros p Hp. rewrite Hf by lia. now apply Hbelow. }
    intros [|i] name' y' Hnth; cbn [nth_error] in Hnth.
    + injection Hnth as <- <-. cbv zeta. unfold column_shape. rewrite H3.
      rewrite Nat.add_0_r.
      assert (E : w_heap w' (w_next w) = w_heap w1 (w_next w)) by (apply Hf; lia).
      assert (Ei : obj_items w' (w_next w) = obj_items w1 (w_next w)).
      { apply obj_items_agree; [exact E|].
        unfold owner. unfold is_own in Hown.
        destruct (a_store (w_heap w1 (w_next w))); [exact E|discriminate]. }
      rewrite E, Ei. auto.
    + assert (Hin : In (name', y') rest) by (eapply nth_error_In; eauto).
      rewrite forallb_forall in Hready.
      destruct (@column_ready_later w w1 zi zo (name', y') Hbelow
                  ltac:(lia) (Hready _ Hin)) as (_ & Eh & El).
      cbn [snd] in Eh, El.
      specialize (Hv i name' y' Hnth). cbv zeta in Hv.
      unfold column_shape in *. rewrite Eh, El, Hn1 in Hv.
      cbv zeta. replace (w_next w + S i) with (S (w_next w) + i) by lia.
      exact Hv.
Qed.

End ColumnValues.

(** X11.  Without [data_out], and with redshifts that are all [> -1], a
    call of [redshift] on columns that are numeric, finite and broadcast
    with the redshifts to a shape of at least one dimension returns; the
    [i]-th column of the result is a new
    array of the broadcast shape and of the element type of the [i]-th
    input column, holding [y * ((1 + z_out) / (1 + z_in)) ** e] converted
    to that element type, where [e] is the registry exponent of the name
    of the column, 0 for a name the registry does not know. *)
Theorem redshift_transforms_every_column
    fpow args kwargs w arrays_in d zi zo :
  conflicting kwargs = false ->
  kwarg kwargs "data_out" = PyNone ->
  resolved_z_in kwargs = PyNum zi ->
  resolved_z_out kwargs = PyNum zo ->
  forallb gt_minus_one (items zi) = true ->
  forallb gt_minus_one (items zo) = true ->
  wf_array zi -> wf_array zo ->
  prepare_data_read_only args (column_kwargs kwargs) w = (OK (arrays_in, d), w) ->
  forallb (column_ready w zi zo) arrays_in = true ->
  exists w',
    redshift fpow args kwargs w
    = (OK (PyTab (fresh_columns (keys arrays_in) (w_next w))), w')
    /\ forall i name y, nth_error arrays_in i = Some (name, y) ->
         let r := w_next w + i in
         let s := column_shape w zi zo y in
         let e := match dict_get name exponents with
                  | Some n => Z2F n
                  | None => 0%float
                  end in
         a_shape (w_heap w' r) = s
         /\ a_dtype (w_heap w' r) = a_dtype (w_heap w y)
         /\ List.length (obj_items w' r) = size s
         /\ forall k, k < size s ->
              nth k (obj_items w' r) (SI 0)
              = cast (a_dtype (w_heap w y))
                  (SF (formula fpow zi zo (load w y) e s k)).
Proof.
  intros Hc Hout Ezi Ezo Hzi Hzo Hwi Hwo Hp Hready.
  apply valid_redshift_passes in Hzi, Hzo.
  destruct (@redshift_columns_values fpow zi zo Hzi Hzo Hwi Hwo arrays_in [] w
              Hready) as (ao' & w1 & Hcols & _ & _ & Hv).
  pose proof Hp as Hnd. apply prepare_data_read_only_pure in Hnd as [_ Hnd].
  pose proof Hcols as Hfresh.
  apply redshift_columns_fresh in Hfresh as (-> & _ & _); auto.
  eexists. split.
  - rewrite redshift_unfold, Hc, Hout, Ezi, Ezo.
    unfold redshift_resolved, bind. rewrite Hp. cbn [is_none negb ret].
    rewrite Hcols. unfold tabular_like, print, ret. cbn. reflexivity.
  - intros i name y Hnth. specialize (Hv i name y Hnth). cbv zeta in *.
    assert (He : resolve_exponent None name
                 = match dict_get name exponents with
                   | Some n => Z2F n
                   | None => 0%float
                   end).
    { unfold resolve_exponent. now destruct (dict_get name exponents). }
    rewrite <- He. exact Hv.
Qed.

Lemma redshift_transforms_every_column_witness :
  exists w',
    redshift pow_ref []
      [("z", PyNum (scalar_int 1)); ("wlen", PyArr 0); ("flux", PyArr 1)]%string
      w_spectrum = (OK (PyTab [("wlen", 2); ("flux", 3)]%string), w')
    /\ nth 2 (obj_items w' 2) (SI 0) = SF 8004
    /\ nth 2 (obj_items w' 3) (SI 0) = SF 0.5.
Proof.
  destruct (@redshift_transforms_every_column pow_ref []
              [("z", PyNum (scalar_int 1)); ("wlen", PyArr 0);
               ("flux", PyArr 1)]%string w_spectrum
              [("wlen", 0); ("flux", 1)]%string
              (PyTab [("wlen", 0); ("flux", 1)]%string)
              (scalar_int 0) (scalar_int 1)
              eq_refl eq_refl eq_refl eq_refl eq_refl eq_refl eq_refl eq_refl
              eq_refl eq_refl) as (w' & Hrun & Hv).
  exists w'. split; [exact Hrun|]. split.
  - destruct (Hv 0 "wlen"%string 0 eq_refl) as (_ & _ & _ & Hk).
    etransitivity; [exact (Hk 2 ltac:(simpl; lia))|reflexivity].
  - destruct (Hv 1 "flux"%string 1 eq_refl) as (_ & _ & _ & Hk).
    etransitivity; [exact (Hk 2 ltac:(simpl; lia))|reflexivity].
Defined.

(** ** [redshift]: its errors, its output, its use of [data_out] *)

Section CallOutcome.

Variable fpow : float -> float -> float.

Lemma redshift_column_error z_in z_out has_out arrays_out name y_in w e w' :
  redshift_column fpow z_in z_out has_out arrays_out name y_in w = (Err e, w') ->
  e = TypeError \/ e = IndexError \/ (exists which, e = InvalidRedshift which)
  \/ error_column e = Some name.
Proof.
  unfold redshift_column, bind.
  destruct (if negb has_out then _ else _) as [[y_out|e0] w0] eqn:E0.
  2:{ intros [= <- <-]. destruct has_out; cbn [negb] in E0; [|discriminate].
      destruct (dict_get name arrays_out); [discriminate|].
      injection E0 as <- _. auto. }
  destruct (asanyarray z_in w0) as [[zi|e1] w1] eqn:E1.
  2:{ intros [= <- <-]. apply asanyarray_error in E1 as ->. auto. }
  destruct (asanyarray z_out w1) as [[zo|e2] w2] eqn:E2.
  2:{ intros [= <- <-]. apply asanyarray_error in E2 as ->. auto. }
  intros H. apply redshift_array_failure in H as [[_ He]|[-> _]]; [|auto].
  unfold validation_error in He.
  destruct He as [->|[->|[->|[->|[->|[->| ->]]]]]]; eauto 6.
Qed.

Lemma redshift_columns_error z_in z_out has_out : forall todo ao w e w',
  redshift_columns fpow z_in z_out has_out todo ao w = (Err e, w') ->
  e = TypeError \/ e = IndexError \/ (exists which, e = InvalidRedshift which)
  \/ exists n, error_column e = Some n /\ In n (keys todo).
Proof.
  induction todo as [|[name y] rest IH]; intros ao w e w'; cbn [redshift_columns].
  - discriminate.
  - unfold bind.
    destruct (redshift_column fpow z_in z_out has_out ao name y w)
      as [[r|e1] w1] eqn:E1.
    + intros H. apply IH in H as [H|[H|[H|(n & Hn & Hin)]]]; auto.
      do 3 right. exists n. split; [exact Hn|now right].
    + intros [= <- <-]. apply redshift_column_error in E1 as [H|[H|[H|H]]]; auto.
      do 3 right. exists name. split; [exact H|now left].
Qed.

Lemma redshift_columns_in_place z_in z_out : forall todo ao w r w',
  redshift_columns fpow z_in z_out true todo ao w = (r, w') ->
  w_next w' = w_next w
  /\ forall p, a_shape (w_heap w' p) = a_shape (w_heap w p)
               /\ a_dtype (w_heap w' p) = a_dtype (w_heap w p).
Proof.
  induction todo as [|[name y] rest IH]; intros ao w r w'; cbn [redshift_columns].
  - intros [= _ <-]. auto.
  - unfold bind.
    destruct (redshift_column fpow z_in z_out true ao name y w)
      as [[o|e] w1] eqn:E1.
    + intros H. apply IH in H as [Hn Hp].
      apply redshift_column_success in E1 as (_ & _ & vals & ->).
      split; [now rewrite Hn, set_items_next|].
      intros p. destruct (Hp p) as [H1 H2]. rewrite H1, H2.
      split; [apply set_items_shape|apply set_items_dtype].
    + intros [= _ <-]. apply redshift_column_failure_in_place in E1 as ->. auto.
Qed.

End CallOutcome.

(** X12.  An error of [redshift] that carries a column name carries the
    name of a column of the input mapping.  The other errors are the
    conflict of the options, a failure of the adapter, an invalid redshift,
    a redshift of the wrong Python type, and the [IndexError] of a column
    that is transformed to an array without dimensions: a [KeyError] or
    numpy's own broadcasting error never comes out of [redshift]. *)
Theorem redshift_error_names_input_column fpow args kwargs w e w' :
  redshift fpow args kwargs w = (Err e, w') ->
  (exists c, e = ConflictingRedshiftSpec c)
  \/ e = AdapterError \/ e = TypeError \/ e = IndexError
  \/ (exists which, e = InvalidRedshift which)
  \/ exists arrays_in d n,
       prepare_data_read_only args (column_kwargs kwargs) w
       = (OK (arrays_in, d), w)
       /\ error_column e = Some n /\ In n (keys arrays_in).
Proof.
  rewrite redshift_unfold. destruct (conflicting kwargs).
  { intros [= <- _]. eauto. }
  unfold redshift_resolved, bind.
  destruct (prepare_data_read_only args (column_kwargs kwargs) w)
    as [[[arrays_in d]|e0] w0] eqn:Hp;
    destruct (prepare_data_read_only_pure _ _ _ Hp) as [-> Hr].
  2:{ intros [= <- _]. subst e0. auto. }
  destruct (negb (is_none (kwarg kwargs "data_out"))) eqn:Hout.
  - unfold prepare_data_in_place.
    destruct (kwarg kwargs "data_out") as [| | |t]; unfold raise, ret;
      try (intros [= <- _]; now auto).
    cbn [is_none negb].
    destruct (redshift_columns fpow (resolved_z_in kwargs) (resolved_z_out kwargs)
                true arrays_in t w) as [[ao|e1] w1] eqn:Hc.
    + unfold print, ret. discriminate.
    + intros [= <- _].
      apply redshift_columns_error in Hc as [H|[H|[H|(n & H1 & H2)]]];
        auto 6. do 5 right. exists arrays_in, d, n. auto.
  - unfold ret. cbn [is_none negb].
    destruct (redshift_columns fpow (resolved_z_in kwargs) (resolved_z_out kwargs)
                false arrays_in [] w) as [[ao|e1] w1] eqn:Hc.
    + unfold tabular_like, print, ret. discriminate.
    + intros [= <- _].
      apply redshift_columns_error in Hc as [H|[H|[H|(n & H1 & H2)]]];
        auto 6. do 5 right. exists arrays_in, d, n. auto.
Qed.

Lemma redshift_error_names_input_column_witness :
  exists n,
    error_column (NonNumericInput "mask") = Some n
    /\ In n ["wlen"; "mask"]%string
    /\ fst (redshift pow_ref []
              [("z", PyNum (scalar_int 1)); ("wlen", PyArr 0); ("mask", PyArr 1)]%string
              (world_of [vector_float [1; 2]%float;
                         mk_arrobj Bool8 [2] (Own [SB true; SB false])]))
       = Err (NonNumericInput "mask").
Proof.
  destruct (redshift pow_ref []
              [("z", PyNum (scalar_int 1)); ("wlen", PyArr 0); ("mask", PyArr 1)]%string
              (world_of [vector_float [1; 2]%float;
                         mk_arrobj Bool8 [2] (Own [SB true; SB false])]))
    as [r w'] eqn:Hrun.
  assert (Hr : r = Err (NonNumericInput "mask")).
  { apply (f_equal fst) in Hrun. vm_compute in Hrun. now symmetry. }
  subst r.
  destruct (redshift_error_names_input_column _ _ _ _ Hrun)
    as [(c & H)|[H|[H|[H|[(which & H)|(arrays_in & d & n & Hp & Hn & Hin)]]]]];
    try discriminate.
  exists n. split; [exact Hn|]. split; [|reflexivity].
  vm_compute in Hp. injection Hp as <- _. exact Hin.
Defined.

(** X13.  With a table [t] as [data_out], [redshift] allocates no array
    and changes the shape and the element type of none, however the call
    ends; when it returns, what it returns is [t] itself. *)
Theorem redshift_reuses_data_out fpow args kwargs w t :
  kwarg kwargs "data_out" = PyTab t ->
  let run := redshift fpow args kwargs w in
  w_next (snd run) = w_next w
  /\ (forall p, a_shape (w_heap (snd run) p) = a_shape (w_heap w p)
                /\ a_dtype (w_heap (snd run) p) = a_dtype (w_heap w p))
  /\ (forall r, fst run = OK r -> r = PyTab t).
Proof.
  intros Ht. cbv zeta. rewrite redshift_unfold, Ht.
  destruct (conflicting kwargs); [cbn; repeat split; auto; discriminate|].
  destruct (prepare_data_read_only args (column_kwargs kwargs) w)
    as [[[arrays_in d]|e0] w0] eqn:Hp;
    destruct (prepare_data_read_only_pure _ _ _ Hp) as [-> Hr].
  - rewrite (redshift_resolved_with_out _ _ _ _ _ _ Hp).
    destruct (redshift_columns fpow (resolved_z_in kwargs) (resolved_z_out kwargs)
                true arrays_in t w) as [[ao|e1] w1] eqn:Hc;
      apply redshift_columns_in_place in Hc as [Hn Hs]; cbn;
      repeat split; try apply Hs; auto; try discriminate.
    now intros r [= <-].
  - unfold redshift_resolved, bind. rewrite Hp. cbn.
    repeat split; auto; discriminate.
Qed.

Lemma redshift_reuses_data_out_witness :
  w_next (snd (redshift pow_ref []
                 [("z", PyNum (scalar_int 1)); ("wlen", PyArr 0);
                  ("data_out", PyTab [("wlen", 2); ("note", 3)])]%string w_table))
  = 4.
Proof.
  destruct (@redshift_reuses_data_out pow_ref []
              [("z", PyNum (scalar_int 1)); ("wlen", PyArr 0);
               ("data_out", PyTab [("wlen", 2); ("note", 3)])]%string w_table
              [("wlen", 2); ("note", 3)]%string eq_refl) as (Hn & _ & _).
  exact Hn.
Defined.

(** X14.  [redshift] writes to the standard output exactly when it
    returns, and then exactly the three lines of lines 267-269; a call that
    raises has printed nothing.  [redshift_array] never prints. *)
Theorem redshift_output fpow args kwargs w :
  match redshift fpow args kwargs w with
  | (OK _, w') => w_stdout w' = w_stdout w ++ debug_lines
  | (Err _, w') => w_stdout w' = w_stdout w
  end
  /\ forall z_in z_out y_in y_out exponent name,
       w_stdout (snd (redshift_array fpow z_in z_out y_in y_out exponent name w))
       = w_stdout w.
Proof.
  split.
  - rewrite redshift_unfold. destruct (conflicting kwargs); [reflexivity|].
    destruct (redshift_resolved fpow (resolved_z_in kwargs) (resolved_z_out kwargs)
                (kwarg kwargs "data_out") args (column_kwargs kwargs) w)
      as [[r|e] w'] eqn:H; apply redshift_resolved_outcome in H; auto.
    destruct e; auto; contradiction.
  - intros z_in z_out y_in y_out exponent name.
    destruct (redshift_array fpow z_in z_out y_in y_out exponent name w)
      as [[r|e] w'] eqn:H; cbn [snd].
    + now apply redshift_array_frame in H as [H _].
    + apply redshift_array_failure in H as [[-> _]|[_ Hw]]; [reflexivity|].
      destruct y_out; [now subst w'|now destruct Hw].
Qed.

(** ** [redshift] with [data_out]: transforms in place *)

Lemma dict_get_in_nodup {V} name (y : V) : forall d : dict V,
  nodup_keys (keys d) = true -> In (name, y) d -> dict_get name d = Some y.
Proof.
  induction d as [|[k v] d IH]; simpl; [tauto|].
  intros Hnd [[= -> ->]|Hin].
  - now rewrite String.eqb_refl.
  - apply andb_true_iff in Hnd as [Hk Hnd].
    destruct (String.eqb_spec name k) as [->|_]; [|auto].
    apply negb_true_iff, existsb_eqb_string_false in Hk.
    exfalso. apply Hk. apply in_map_iff. now exists (k, y).
Qed.

Section InPlaceValues.

Variable fpow : float -> float -> float.

Lemma column_out_ready_agree w1 w zi zo t name y o :
  dict_get name t = Some o ->
  (forall p, a_shape (w_heap w1 p) = a_shape (w_heap w p)) ->
  (forall p, a_dtype (w_heap w1 p) = a_dtype (w_heap w p)) ->
  writable w1 o = writable w o ->
  load w1 y = load w y ->
  column_out_ready w1 zi zo t (name, y) = column_out_ready w zi zo t (name, y).
Proof.
  intros Ho Hs Hd Hw Hl. unfold column_out_ready. cbn [fst snd]. rewrite Ho.
  now rewrite Hw, !Hs, !Hd, (f_equal items Hl : obj_items w1 y = obj_items w y).
Qed.

(** The loop of lines 252-262 with [data_out], on columns that are ready
    and do not spoil each other: it returns, an array that no write reaches
    reads as before, and every output column holds the formula of the
    input column of its name. *)
Lemma redshift_columns_in_place_values zi zo t data_in :
  existsb le_minus_one (items zi) = false ->
  existsb le_minus_one (items zo) = false ->
  wf_array zi -> wf_array zo ->
  forall todo ao w,
    (forall n, dict_get n ao = dict_get n t) ->
    (forall name y, In (name, y) todo -> dict_get name data_in = Some y) ->
    forallb (column_out_ready w zi zo t) todo = true ->
    separated w data_in (outputs_for t todo) = true ->
    exists ao' w',
      redshift_columns fpow (PyNum zi) (PyNum zo) true todo ao w = (OK ao', w')
      /\ (forall p, view_of w' p = view_of w p)
      /\ (forall p, a_shape (w_heap w' p) = a_shape (w_heap w p))
      /\ (forall p, a_dtype (w_heap w' p) = a_dtype (w_heap w p))
      /\ (forall x, (forall e, In e (outputs_for t todo) ->
                                untouched_by w (snd e) x = true) ->
                    load w' x = load w x)
      /\ forall name y, In (name, y) todo ->
           exists o,
             dict_get name t = Some o
             /\ forall k, k < size (a_shape (w_heap w o)) ->
                  nth k (obj_items w' o) (SI 0)
                  = cast (a_dtype (w_heap w y))
                      (SF (formula fpow zi zo (load w y)
                             (resolve_exponent None name)
                             (a_shape (w_heap w o)) k)).
Proof.
  intros Hzi Hzo Hwi Hwo.
  induction todo as [|[name y] rest IH]; intros ao w Hao Hlook Hready Hsep.
  - exists ao, w. cbn [redshift_columns]. unfold ret.
    repeat split; auto. intros ? ? [].
  - cbn [forallb] in Hready. apply andb_true_iff in Hready as [Hr Hready].
    pose proof Hr as Hr0. unfold column_out_ready in Hr0. cbn [fst snd] in Hr0.
    destruct (dict_get name t) as [o|] eqn:Ho; [|discriminate].
    rewrite !andb_true_iff in Hr0. destruct Hr0 as [[[Hwr Hnum] Hfin] Hsh].
    destruct (broadcast_shape3 (shape zi) (shape zo) (a_shape (w_heap w y)))
      as [s|] eqn:H3; [|discriminate].
    rewrite !andb_true_iff in Hsh. destruct Hsh as [[Hdims Hshape] Hdt].
    apply shape_eqb_eq in Hshape. apply dtype_eqb_eq in Hdt.
    destruct (@redshift_array_result fpow zi zo y (Some o) None name w s
                Hzi Hzo Hnum Hfin Hwi Hwo H3 Hwr) as [Hex Hall].
    destruct (Hex Hdims (conj Hshape Hdt)) as (r & w1 & Hrun).
    destruct (Hall r w1 Hrun) as (_ & _ & _ & Hv1).
    pose proof Hrun as Hfr.
    apply redshift_array_frame in Hfr as (_ & -> & _ & Hw1).
    destruct (@write_step w o w1 Hwr (or_intror Hw1))
      as (Vw1 & Sh1 & Dt1 & _ & _ & Fr1 & Wr1).
    cbn [outputs_for map fst snd] in Hsep. rewrite Ho in Hsep.
    fold (outputs_for t rest) in Hsep.
    cbn [separated] in Hsep. apply andb_true_iff in Hsep as [Hdis Hsep].
    rewrite forallb_forall in Hdis.
    assert (Hout : forall name' y', In (name', y') rest ->
              exists o', dict_get name' t = Some o'
                         /\ In (name', o') (outputs_for t rest)).
    { intros name' y' Hin. rewrite forallb_forall in Hready.
      pose proof (Hready _ Hin) as Hr'. unfold column_out_ready in Hr'.
      cbn [fst] in Hr'. destruct (dict_get name' t) as [o'|] eqn:Ho';
        [|discriminate].
      exists o'. split; [reflexivity|]. unfold outputs_for.
      apply in_map_iff. exists (name', y'). cbn [fst snd]. now rewrite Ho'. }
    assert (Hind : forall e', In e' (outputs_for t rest) ->
              untouched_by w (snd e') o = true
              /\ forall y', dict_get (fst e') data_in = Some y' ->
                            untouched_by w o y' = true).
    { intros e' He'. specialize (Hdis _ He'). unfold independent in Hdis.
      cbn [fst snd] in Hdis. apply andb_true_iff in Hdis as [H1 H2].
      split; [exact H1|]. intros y' Hy'. now rewrite Hy' in H2. }
    assert (Hkeep : forall name' y', In (name', y') rest ->
              exists o', dict_get name' t = Some o'
                         /\ writable w1 o' = writable w o'
                         /\ load w1 y' = load w y').
    { intros name' y' Hin. destruct (Hout _ _ Hin) as (o' & Ho' & Hin').
      destruct (Hind _ Hin') as [H1 H2]. cbn [fst snd] in H1, H2.
      exists o'. split; [exact Ho'|]. split; [now apply Wr1|].
      apply Fr1, H2, Hlook. now right. }
    assert (Hready1 : forallb (column_out_ready w1 zi zo t) rest = true).
    { rewrite forallb_forall in Hready. apply forallb_forall.
      intros [name' y'] Hin. destruct (Hkeep _ _ Hin) as (o' & Ho' & Hw' & Hl').
      rewrite (@column_out_ready_agree w1 w zi zo t name' y' o'); auto. }
    assert (Hsep1 : separated w1 data_in (outputs_for t rest) = true)
      by (now rewrite (@separated_agree w1 w data_in _ Vw1)).
    assert (Hao1 : forall n, dict_get n (dict_set name o ao) = dict_get n t).
    { intros n. rewrite dict_get_set.
      destruct (String.eqb_spec n name) as [->|_]; [now rewrite Ho|apply Hao]. }
    destruct (IH (dict_set name o ao) w1 Hao1
                (fun n' y' H => Hlook n' y' (or_intror H)) Hready1 Hsep1)
      as (ao' & w' & Hrest & Vw2 & Sh2 & Dt2 & Fr2 & V2).
    exists ao', w'. split.
    { cbn [redshift_columns]. unfold redshift_column.
      unfold bind, ret, asanyarray. cbn [negb]. rewrite Hao, Ho.
      cbv beta iota. rewrite Hrun. exact Hrest. }
    split; [intros p; now rewrite Vw2|].
    split; [intros p; now rewrite Sh2|].
    split; [intros p; now rewrite Dt2|].
    split.
    { intros x Hx. cbn [outputs_for map fst snd] in Hx. rewrite Ho in Hx.
      fold (outputs_for t rest) in Hx.
      rewrite Fr2.
      - apply Fr1. exact (Hx (name, o) (or_introl eq_refl)).
      - intros e' He'. rewrite (@untouched_by_agree w1 w _ _ Vw1).
        apply Hx. now right. }
    intros name' y' [[= <- <-]|Hin].
    + exists o. split; [exact Ho|]. intros k Hk.
      rewrite Hshape in *. rewrite <- (Hv1 k Hk). f_equal.
      assert (Hl : load w' o = load w1 o).
      { apply Fr2. intros e' He'. rewrite (@untouched_by_agree w1 w _ _ Vw1).
        now apply Hind. }
      exact (f_equal items Hl).
    + destruct (Hkeep _ _ Hin) as (o' & Ho' & _ & El).
      destruct (V2 _ _ Hin) as (o'' & Ho'' & V). rewrite Ho' in Ho''.
      injection Ho'' as <-. exists o'. split; [exact Ho'|].
      intros k Hk. rewrite V by (now rewrite Sh1). now rewrite Dt1, Sh1, El.
Qed.

End InPlaceValues.

(** X15.  A transform into a table: with redshifts all [> -1], and a
    table [data_out] that has, for every input column, a writable column of
    that name with the broadcast shape, which has at least one dimension,
    and the element type of the input column, no output column having an
    element in common with the output column of another name or with an
    input column that is transformed after it, [redshift] returns
    [data_out], and every such column of it holds
    [y * ((1 + z_out) / (1 + z_in)) ** e] converted to the element type,
    where [y] is the input column as it was before the call and [e] the
    registry exponent of its name.  The output column may be the input
    column itself: the transform is then made in place. *)
Theorem redshift_fills_data_out
    fpow args kwargs w arrays_in d t zi zo :
  conflicting kwargs = false ->
  kwarg kwargs "data_out" = PyTab t ->
  resolved_z_in kwargs = PyNum zi ->
  resolved_z_out kwargs = PyNum zo ->
  forallb gt_minus_one (items zi) = true ->
  forallb gt_minus_one (items zo) = true ->
  wf_array zi -> wf_array zo ->
  prepare_data_read_only args (column_kwargs kwargs) w = (OK (arrays_in, d), w) ->
  forallb (column_out_ready w zi zo t) arrays_in = true ->
  separated w arrays_in (outputs_for t arrays_in) = true ->
  exists w',
    redshift fpow args kwargs w = (OK (PyTab t), w')
    /\ forall name y, In (name, y) arrays_in ->
         exists o,
           dict_get name t = Some o
           /\ let e := match dict_get name exponents with
                       | Some n => Z2F n
                       | None => 0%float
                       end in
              forall k, k < size (a_shape (w_heap w o)) ->
                nth k (obj_items w' o) (SI 0)
                = cast (a_dtype (w_heap w y))
                    (SF (formula fpow zi zo (load w y) e
                           (a_shape (w_heap w o)) k)).
Proof.
  intros Hc Hout Ezi Ezo Hzi Hzo Hwi Hwo Hp Hready Hsep.
  apply valid_redshift_passes in Hzi, Hzo.
  pose proof Hp as Hnd. apply prepare_data_read_only_pure in Hnd as [_ Hnd].
  destruct (@redshift_columns_in_place_values fpow zi zo t arrays_in
              Hzi Hzo Hwi Hwo arrays_in t w (fun n => eq_refl)
              (fun name y H => dict_get_in_nodup name y arrays_in Hnd H)
              Hready Hsep) as (ao' & w1 & Hcols & _ & _ & _ & _ & Hv).
  eexists. split.
  - rewrite redshift_unfold, Hc, Hout, Ezi, Ezo.
    rewrite (redshift_resolved_with_out _ _ _ _ _ _ Hp), Hcols. reflexivity.
  - intros name y Hin. destruct (Hv name y Hin) as (o & Ho & V).
    exists o. split; [exact Ho|]. cbv zeta.
    assert (He : resolve_exponent None name
                 = match dict_get name exponents with
                   | Some n => Z2F n
                   | None => 0%float
                   end).
    { unfold resolve_exponent. now destruct (dict_get name exponents). }
    rewrite <- He. exact V.
Qed.

Lemma redshift_fills_data_out_witness :
  exists w',
    redshift pow_ref [PyTab [("wlen", 1); ("note", 2)]%string]
      [("z", PyNum (scalar_int 1));
       ("data_out", PyTab [("wlen", 1); ("note", 2)])]%string w_record
    = (OK (PyTab [("wlen", 1); ("note", 2)]%string), w')
    /\ nth 1 (obj_items w' 1) (SI 0) = SF 4
    /\ nth 1 (obj_items w' 2) (SI 0) = SF 7.
Proof.
  destruct (@redshift_fills_data_out pow_ref
              [PyTab [("wlen", 1); ("note", 2)]%string]
              [("z", PyNum (scalar_int 1));
               ("data_out", PyTab [("wlen", 1); ("note", 2)])]%string w_record
              [("wlen", 1); ("note", 2)]%string
              (PyTab [("wlen", 1); ("note", 2)]%string)
              [("wlen", 1); ("note", 2)]%string (scalar_int 0) (scalar_int 1)
              eq_refl eq_refl eq_refl eq_refl eq_refl eq_refl eq_refl eq_refl
              eq_refl eq_refl eq_refl) as (w' & Hrun & Hv).
  exists w'. split; [exact Hrun|]. split.
  - destruct (Hv "wlen"%string 1 (or_introl eq_refl)) as (o & Ho & Hk).
    injection Ho as <-.
    etransitivity; [exact (Hk 1 ltac:(simpl; lia))|reflexivity].
  - destruct (Hv "note"%string 2 (or_intror (or_introl eq_refl))) as (o & Ho & Hk).
    injection Ho as <-.
    etransitivity; [exact (Hk 1 ltac:(simpl; lia))|reflexivity].
Defined.
